(** * google-photos-fixer: a shallow embedding of [GooglePhotosFixer]

    The development follows [google-photos-fixer.py] method by method.

    - Python strings are lists of characters whose code points lie in
      0..255 ([list ascii]); on that range the regular-expression class
      [\d] is exactly the ten ASCII digits.
    - The file system is a finite map from the full path of a regular file
      to its text; directories are implicit in the paths, and
      [os.path.exists] is membership in that map.
    - The object's fields [fixes] and [errors], the file system, and what
      [print] has written are threaded through a state-and-exception monad;
      an exception keeps the state reached when it was raised, as the files
      already changed stay changed.
    - [int(time.timestamp())] depends on the platform and its time zone;
      it is a parameter of the methods that use it, a partial function
      since the call raises [ValueError] for some dates.  [posix_timestamp]
      is the library's computation on a POSIX platform, given the offsets
      of the local time zone. *)

From Stdlib Require Import Ascii String ZArith Lia DecimalString.
From stdpp Require Import base option list gmap strings.

Local Open Scope Z_scope.
#[local] Set Warnings "-register-all".

(** ** Python strings *)

Abbreviation str := (list ascii).

(** A string literal of the source. *)
Definition lit (s : string) : str := String.list_ascii_of_string s.

Definition is_digit (c : ascii) : bool :=
  match c with
  | "0" | "1" | "2" | "3" | "4" | "5" | "6" | "7" | "8" | "9" => true
  | _ => false
  end%char.

Definition digit_val (c : ascii) : Z :=
  Z.of_nat (nat_of_ascii c) - 48.

(** [int(x)] on a string of decimal digits. *)
Definition py_int (s : str) : Z :=
  fold_left (fun acc c => 10 * acc + digit_val c) s 0.

(** [str(n)] on an integer. *)
Definition str_of_Z (n : Z) : str :=
  lit (NilZero.string_of_int (Z.to_int n)).

(** ["%0<w>d" % n] for [n >= 0]. *)
Definition zero_pad (w : nat) (n : Z) : str :=
  let d := str_of_Z n in
  replicate (w - length d)%nat "0"%char ++ d.

(** [s.startswith(p)] and [s.endswith(p)]. *)
Definition startswith (s p : str) : bool := bool_decide (p `prefix_of` s).
Definition endswith (s p : str) : bool := bool_decide (p `suffix_of` s).

(** [sub in s] *)
Fixpoint str_in (sub s : str) : bool :=
  startswith s sub ||
  match s with
  | [] => false
  | _ :: s' => str_in sub s'
  end.

(** [s.replace(old, new)]: the occurrences of [old] are replaced from left
    to right, without overlap.  [skip] counts the characters of a replaced
    occurrence that are still to be passed over. *)
Fixpoint replace_go (old new : str) (skip : nat) (s : str) : str :=
  match s with
  | [] => []
  | c :: s' =>
      match skip with
      | S k => replace_go old new k s'
      | O =>
          if startswith s old
          then new ++ replace_go old new (length old - 1) s'
          else c :: replace_go old new 0 s'
      end
  end.

Definition replace (old new s : str) : str :=
  match old with
  | [] => new ++ flat_map (fun c => c :: new) s
  | _ => replace_go old new 0 s
  end.

(** Split at the last occurrence of [c]: [s.rpartition(c)] without the
    separator, [None] when [c] does not occur. *)
Fixpoint split_last (c : ascii) (s : str) : option (str * str) :=
  match s with
  | [] => None
  | x :: s' =>
      match split_last c s' with
      | Some (a, b) => Some (x :: a, b)
      | None => if decide (x = c) then Some ([], s') else None
      end
  end.

(** [s.rstrip(c)] for a single character [c]. *)
Fixpoint rstrip (c : ascii) (s : str) : str :=
  match s with
  | [] => []
  | x :: s' =>
      match rstrip c s' with
      | [] => if decide (x = c) then [] else [x]
      | r => x :: r
      end
  end.

(** [c.lower()] on the code points 0..255: the ASCII capitals and the
    Latin-1 capitals (all of 0xC0..0xDE but the multiplication sign). *)
Definition lower_char (c : ascii) : ascii :=
  let n := nat_of_ascii c in
  if ((65 <=? n) && (n <=? 90))%nat then ascii_of_nat (n + 32)
  else if ((192 <=? n) && (n <=? 222) && negb (n =? 215))%nat
       then ascii_of_nat (n + 32)
  else c.

Definition lower (s : str) : str := map lower_char s.

(** ** [os.path] (posixpath) *)

Definition slash : ascii := "/"%char.
Definition dot : ascii := "."%char.

(** [os.path.basename(p)] *)
Definition basename (p : str) : str :=
  match split_last slash p with
  | Some (_, b) => b
  | None => p
  end.

(** [os.path.dirname(p)]: everything up to and including the last slash,
    with the trailing slashes removed unless it consists of slashes only. *)
Definition dirname (p : str) : str :=
  match split_last slash p with
  | Some (a, _) =>
      let head := a ++ [slash] in
      if forallb (fun c => bool_decide (c = slash)) head then head
      else rstrip slash head
  | None => []
  end.

(** [os.path.splitext(p)]: the extension starts at the last dot of the last
    path component, unless only dots precede that dot in the component. *)
Definition splitext (p : str) : str * str :=
  let '(d, b) := match split_last slash p with
                 | Some (a, b) => (a ++ [slash], b)
                 | None => ([], p)
                 end in
  match split_last dot b with
  | Some (r, e) =>
      if forallb (fun c => bool_decide (c = dot)) r then (p, [])
      else (d ++ r, dot :: e)
  | None => (p, [])
  end.

(** [os.path.join(a, b)] *)
Definition join (a b : str) : str :=
  if startswith b [slash] then b
  else if bool_decide (a = []) || endswith a [slash] then a ++ b
  else a ++ slash :: b.

(** ** The regular expressions of the source

    Every pattern of the source is a fixed sequence of literals and digit
    classes, so at a given start position it matches in at most one way;
    [re.search] returns the match at the leftmost start position. *)

(** [\d{n}]: the [n] digits and what follows them. *)
Fixpoint digits (n : nat) (s : str) : option (str * str) :=
  match n with
  | O => Some ([], s)
  | S k =>
      match s with
      | c :: s' =>
          if is_digit c then '(d, r) ← digits k s'; Some (c :: d, r) else None
      | [] => None
      end
  end.

(** [\d+] (greedy; what follows it in the patterns is never a digit). *)
Fixpoint span_digits (s : str) : str * str :=
  match s with
  | c :: s' =>
      if is_digit c then let '(d, r) := span_digits s' in (c :: d, r)
      else ([], s)
  | [] => ([], [])
  end.

(** A literal text: what follows it. *)
Fixpoint literal (p s : str) : option str :=
  match p with
  | [] => Some s
  | c :: p' =>
      match s with
      | x :: s' => if decide (x = c) then literal p' s' else None
      | [] => None
      end
  end.

Definition newline : ascii := "010"%char.

(** [$]: at the end of the string, or just before a newline that ends it. *)
Definition at_end (s : str) : bool :=
  bool_decide (s = []) || bool_decide (s = [newline]).

(** [re.search]: the first start position, from the left, at which the
    pattern [m] matches. *)
Fixpoint re_search {A} (m : str -> option A) (s : str) : option A :=
  match m s with
  | Some r => Some r
  | None =>
      match s with
      | [] => None
      | _ :: s' => re_search m s'
      end
  end.

(** [(\d{4})(\d{2})(\d{2})(\d{2})(\d{2})(\d{2})], a part of three patterns *)
Definition ymdhms_tail (y mo d : str) (s : str) : option (list str * str) :=
  '(h, s) ← digits 2 s; '(mi, s) ← digits 2 s; '(sec, s) ← digits 2 s;
  Some ([y; mo; d; h; mi; sec], s).

(** [(\d{4})(\d{2})(\d{2})_(\d{2})(\d{2})(\d{2})]: the groups. *)
Definition pat_date_time (s : str) : option (list str) :=
  '(y, s) ← digits 4 s; '(mo, s) ← digits 2 s; '(d, s) ← digits 2 s;
  s ← literal (lit "_") s;
  '(g, _) ← ymdhms_tail y mo d s; Some g.

(** [(\d{4})(\d{2})(\d{2})(\d{2})(\d{2})(\d{2})(\d{3})] *)
Definition pat_millis (s : str) : option (list str) :=
  '(y, s) ← digits 4 s; '(mo, s) ← digits 2 s; '(d, s) ← digits 2 s;
  '(g, s) ← ymdhms_tail y mo d s;
  '(ms, _) ← digits 3 s; Some (g ++ [ms]).

(** [_(\d{4})(\d{2})(\d{2})(\d{2})(\d{2})(\d{2})_] *)
Definition pat_underscored (s : str) : option (list str) :=
  s ← literal (lit "_") s;
  '(y, s) ← digits 4 s; '(mo, s) ← digits 2 s; '(d, s) ← digits 2 s;
  '(g, s) ← ymdhms_tail y mo d s;
  _ ← literal (lit "_") s; Some g.

(** [Photos from (\d{4})/] *)
Definition pat_photos_from_year (s : str) : option (list str) :=
  s ← literal (lit "Photos from ") s;
  '(y, s) ← digits 4 s;
  _ ← literal (lit "/") s; Some [y].

(** [Photos from (\d+)$] *)
Definition pat_year_dir (s : str) : option (list str) :=
  s ← literal (lit "Photos from ") s;
  let '(y, s) := span_digits s in
  if bool_decide (y = []) then None
  else if at_end s then Some [y] else None.

(** [(\(\d+\))$]: group 1, the parentheses included. *)
Definition pat_paren_num (s : str) : option str :=
  s ← literal (lit "(") s;
  let '(n, s) := span_digits s in
  if bool_decide (n = []) then None
  else s ← literal (lit ")") s;
       if at_end s then Some (lit "(" ++ n ++ lit ")") else None.

(** [re.sub(r'\.suppl\.json$', repl, s)].  A match ends at the end of the
    string or before its final newline, so nothing after it matches again. *)
Fixpoint re_sub_suppl (repl : str) (s : str) : str :=
  match literal (lit ".suppl.json") s with
  | Some rest =>
      if at_end rest then repl ++ rest
      else match s with [] => [] | c :: s' => c :: re_sub_suppl repl s' end
  | None => match s with [] => [] | c :: s' => c :: re_sub_suppl repl s' end
  end.

(** ** [datetime] *)

Record datetime := mk_datetime {
  year : Z; month : Z; day : Z;
  hour : Z; minute : Z; second : Z; microsecond : Z
}.

Definition is_leap (y : Z) : bool :=
  (y mod 4 =? 0) && (negb (y mod 100 =? 0) || (y mod 400 =? 0)).

Definition days_in_month (y m : Z) : Z :=
  if m =? 2 then (if is_leap y then 29 else 28)
  else if (m =? 4) || (m =? 6) || (m =? 9) || (m =? 11) then 30
  else 31.

(** The range checks of the [datetime] constructor. *)
Definition valid_datetime (y m d h mi s us : Z) : bool :=
  (1 <=? y) && (y <=? 9999) && (1 <=? m) && (m <=? 12)
  && (1 <=? d) && (d <=? days_in_month y m)
  && (0 <=? h) && (h <=? 23) && (0 <=? mi) && (mi <=? 59)
  && (0 <=? s) && (s <=? 59) && (0 <=? us) && (us <=? 999999).

(** [datetime(y, m, d, h, mi, s, us)]; [None] stands for [ValueError]. *)
Definition datetime_new (y m d h mi s us : Z) : option datetime :=
  if valid_datetime y m d h mi s us
  then Some (mk_datetime y m d h mi s us) else None.

(** [str(t)]: ISO format with a space, the microseconds only when not 0. *)
Definition str_of_datetime (t : datetime) : str :=
  zero_pad 4 (year t) ++ lit "-" ++ zero_pad 2 (month t) ++ lit "-"
  ++ zero_pad 2 (day t) ++ lit " " ++ zero_pad 2 (hour t) ++ lit ":"
  ++ zero_pad 2 (minute t) ++ lit ":" ++ zero_pad 2 (second t)
  ++ (if microsecond t =? 0 then []
      else lit "." ++ zero_pad 6 (microsecond t)).

(** ** [json.dumps(obj, indent=2)]

    Only dictionaries with string keys and strings occur in the source. *)

Inductive json :=
| JStr (s : str)
| JObj (fields : list (str * json)).

Definition hex_digit (n : nat) : ascii :=
  nth n (lit "0123456789abcdef") "0"%char.

Definition quote : ascii := ascii_of_nat 34.
Definition backslash : ascii := ascii_of_nat 92.

(** The escapes of [json.dumps] with [ensure_ascii=True]. *)
Definition json_escape_char (c : ascii) : str :=
  let n := nat_of_ascii c in
  if (n =? 34)%nat then [backslash; quote]
  else if (n =? 92)%nat then [backslash; backslash]
  else if (n =? 8)%nat then backslash :: lit "b"
  else if (n =? 9)%nat then backslash :: lit "t"
  else if (n =? 10)%nat then backslash :: lit "n"
  else if (n =? 12)%nat then backslash :: lit "f"
  else if (n =? 13)%nat then backslash :: lit "r"
  else if ((32 <=? n) && (n <=? 126))%nat then [c]
  else backslash :: lit "u00" ++ [hex_digit (n / 16); hex_digit (n mod 16)].

Definition json_quote (s : str) : str :=
  quote :: flat_map json_escape_char s ++ [quote].

Definition newline_indent (level : nat) : str :=
  newline :: replicate (2 * level) " "%char.

Fixpoint join_with (sep : str) (l : list str) : str :=
  match l with
  | [] => []
  | [x] => x
  | x :: l' => x ++ sep ++ join_with sep l'
  end.

Fixpoint json_dumps (level : nat) (j : json) : str :=
  match j with
  | JStr s => json_quote s
  | JObj [] => lit "{}"
  | JObj fs =>
      lit "{" ++ newline_indent (S level)
      ++ join_with (lit "," ++ newline_indent (S level))
           (List.map (fun kv => json_quote (fst kv) ++ lit ": "
                                ++ json_dumps (S level) (snd kv)) fs)
      ++ newline_indent level ++ lit "}"
  end.

(** ** The state of a run *)

(** The calls made to the file-system functions that change files
    ([shutil.copy2], [shutil.move], [os.remove], [open(name, 'w')]), in the
    order they are made; kept beside the state to speak about them. *)
Inductive fs_call :=
| Copy (origin destination : str)
| Move (origin destination : str)
| Remove (origin : str)
| WriteText (name content : str).

Record state := mk_state {
  files : gmap str str;       (* the regular files: path to content *)
  fixes : list str;           (* self.fixes *)
  errors : list str;          (* self.errors *)
  stdout : list str;          (* one entry per call of print *)
  fs_calls : list fs_call
}.

Inductive exn :=
| FileNotFoundError (p : str)
| SameFileError (p : str)
| IndexError
| ValueError.

Inductive result (A : Type) :=
| Ok (a : A) (s : state)
| Raise (e : exn) (s : state).
Arguments Ok {A} a s.
Arguments Raise {A} e s.

Definition M (A : Type) : Type := state -> result A.

Definition ret {A} (a : A) : M A := fun s => Ok a s.
Definition bind {A B} (m : M A) (k : A -> M B) : M B :=
  fun s => match m s with
           | Ok a s' => k a s'
           | Raise e s' => Raise e s'
           end.
Definition raise {A} (e : exn) : M A := fun s => Raise e s.

Declare Scope fixer_scope.
Delimit Scope fixer_scope with fixer.
Notation "'let*' x := m 'in' k" := (bind m (fun x => k))
  (at level 10, x name, m at level 100, k at level 200) : fixer_scope.
Notation "m ;; k" := (bind m (fun _ => k))
  (at level 100, k at level 200, right associativity) : fixer_scope.
Local Open Scope fixer_scope.

(** [for x in l: body(x)] *)
Fixpoint for_each {A} (l : list A) (body : A -> M unit) : M unit :=
  match l with
  | [] => ret tt
  | x :: l' => body x ;; for_each l' body
  end.

(** [[f(x) for x in l]] *)
Fixpoint comprehension {A B} (l : list A) (f : A -> M B) : M (list B) :=
  match l with
  | [] => ret []
  | x :: l' =>
      let* y := f x in
      let* ys := comprehension l' f in
      ret (y :: ys)
  end.

Definition final {A} (r : result A) : state :=
  match r with Ok _ s => s | Raise _ s => s end.

(** The value returned, [None] when an exception was raised. *)
Definition returned {A} (r : result A) : option A :=
  match r with Ok a _ => Some a | Raise _ _ => None end.

(** *** The file-system functions *)

(** [os.path.exists(p)] *)
Definition path_exists (p : str) : M bool :=
  fun s => Ok (bool_decide (is_Some (files s !! p))) s.

Definition set_files (f : gmap str str) (c : fs_call) (s : state) : state :=
  mk_state f (fixes s) (errors s) (stdout s) (fs_calls s ++ [c]).

(** [shutil.copy2(origin, destination)]: [destination] is created or
    overwritten with the content of [origin]. *)
Definition shutil_copy2 (origin destination : str) : M unit :=
  fun s =>
    match files s !! origin with
    | None => Raise (FileNotFoundError origin) s
    | Some c =>
        if bool_decide (origin = destination)
        then Raise (SameFileError origin) s
        else Ok tt (set_files (<[destination := c]> (files s))
                      (Copy origin destination) s)
    end.

(** [shutil.move(origin, destination)]: a rename, which replaces a file
    that is already at [destination]. *)
Definition shutil_move (origin destination : str) : M unit :=
  fun s =>
    match files s !! origin with
    | None => Raise (FileNotFoundError origin) s
    | Some c =>
        Ok tt (set_files (<[destination := c]> (delete origin (files s)))
                 (Move origin destination) s)
    end.

(** [os.remove(origin)] *)
Definition os_remove (origin : str) : M unit :=
  fun s =>
    match files s !! origin with
    | None => Raise (FileNotFoundError origin) s
    | Some _ => Ok tt (set_files (delete origin (files s)) (Remove origin) s)
    end.

(** [with open(name, 'w') as f: f.write(content)] *)
Definition open_write (name content : str) : M unit :=
  fun s => Ok tt (set_files (<[name := content]> (files s))
                    (WriteText name content) s).

(** [self.fixes.append(x)], [self.errors.append(x)], [print(x)] *)
Definition fixes_append (x : str) : M unit :=
  fun s => Ok tt (mk_state (files s) (fixes s ++ [x]) (errors s) (stdout s)
                    (fs_calls s)).
Definition errors_append (x : str) : M unit :=
  fun s => Ok tt (mk_state (files s) (fixes s) (errors s ++ [x]) (stdout s)
                    (fs_calls s)).
Definition print (x : str) : M unit :=
  fun s => Ok tt (mk_state (files s) (fixes s) (errors s) (stdout s ++ [x])
                    (fs_calls s)).
Definition get_fixes : M (list str) := fun s => Ok (fixes s) s.
Definition get_errors : M (list str) := fun s => Ok (errors s) s.

(** ** The class [GooglePhotosFixer] *)

Definition METADATA_JSON : str := lit "supplemental-metadata.json".

Definition SUPPORTED_IMAGE_EXT : list str :=
  map lit [".jpg"; ".jpeg"; ".png"; ".gif"; ".webp"; ".heic"; ".mov";
           ".mp4"; ".3gp"; ".avi"; ".mkv"; ".webm"].

Definition reset : M unit :=
  fun s => Ok tt (mk_state (files s) [] [] (stdout s) (fs_calls s)).

Definition filename (fullpath_filename : str) : str :=
  basename fullpath_filename.

Definition filename_without_ext (filename : str) : str :=
  fst (splitext (basename filename)).

Definition copy_file (origin destination : str) : M unit :=
  shutil_copy2 origin destination ;;
  fixes_append (filename origin ++ lit " copied to " ++ filename destination).

Definition move_file (origin destination : str) : M unit :=
  shutil_move origin destination ;;
  fixes_append (filename origin ++ lit " moved to " ++ filename destination).

Definition delete_file (origin : str) : M unit :=
  os_remove origin.

Definition write_file (name content : str) : M unit :=
  open_write name content ;;
  fixes_append (filename name ++ lit " written").

Definition metadata_file_for (image_file : str) : str :=
  image_file ++ lit "." ++ METADATA_JSON.

(** The [except ValueError] branches of [infer_time_from_image_file]. *)
Definition invalid_date (image_file : str) : M (option datetime) :=
  errors_append (lit "Invalid date in filename: " ++ image_file) ;;
  ret None.

(** The rules of [infer_time_from_image_file], last to first; each falls
    through to [next] when its pattern does not match (or has not the
    expected number of groups). *)
Definition rule_photos_from (image_file : str) : M (option datetime) :=
  match re_search pat_photos_from_year image_file with
  | Some [y] =>
      match datetime_new (py_int y) 1 1 0 0 0 0 with
      | Some t => ret (Some t)
      | None => raise ValueError
      end
  | _ => ret None
  end.

Definition rule_six (pat : str -> option (list str)) (image_file filename : str)
    (next : M (option datetime)) : M (option datetime) :=
  match re_search pat filename with
  | Some [y; mo; d; h; mi; sec] =>
      match datetime_new (py_int y) (py_int mo) (py_int d)
                         (py_int h) (py_int mi) (py_int sec) 0 with
      | Some t => ret (Some t)
      | None => invalid_date image_file
      end
  | _ => next
  end.

Definition rule_millis (image_file filename : str)
    (next : M (option datetime)) : M (option datetime) :=
  match re_search pat_millis filename with
  | Some [y; mo; d; h; mi; sec; ms] =>
      match datetime_new (py_int y) (py_int mo) (py_int d)
                         (py_int h) (py_int mi) (py_int sec)
                         (py_int ms * 1000) with
      | Some t => ret (Some t)
      | None => invalid_date image_file
      end
  | _ => next
  end.

Definition infer_time_from_image_file (image_file : str) : M (option datetime) :=
  let filename := filename_without_ext image_file in
  rule_six pat_date_time image_file filename
    (rule_millis image_file filename
       (rule_six pat_underscored image_file filename
          (rule_photos_from image_file))).

Section Fixer.

(** [int(t.timestamp())] for a naive [datetime], which the library reads
    in the local time of the platform; [None] where the call raises
    [ValueError], as it does when the conversion leaves the years 1 to 9999
    (on the first day of the year 1, for one).  [posix_timestamp] below is
    the library's computation. *)
Variable timestamp_int : datetime -> option Z.

Definition time_timestamp (time : datetime) : M Z :=
  match timestamp_int time with
  | Some n => ret n
  | None => raise ValueError
  end.

(** The dictionary [json_content]; [timestamp] is [int(time.timestamp())],
    evaluated at lines 110 and 114. *)
Definition json_content (image_file : str) (time : datetime) (timestamp : Z)
    : json :=
  let times := JObj [(lit "timestamp", JStr (str_of_Z timestamp));
                     (lit "formatted", JStr (str_of_datetime time))] in
  JObj [(lit "title", JStr (filename image_file));
        (lit "description",
         JStr (lit "Metadata inferred from " ++ filename_without_ext image_file));
        (lit "imageViews", JStr (lit "1"));
        (lit "creationTime", times);
        (lit "photoTakenTime", times)].

Definition generate_metadata_for_image_file (image_file : str) : M unit :=
  let metadata_filename := metadata_file_for image_file in
  let* e := path_exists metadata_filename in
  if e then ret tt
  else
    let* time := infer_time_from_image_file image_file in
    match time with
    | Some t =>
        let* timestamp := time_timestamp t in
        write_file metadata_filename
          (json_dumps 0 (json_content image_file t timestamp))
    | None =>
        errors_append (lit "Unable to infer metadata for " ++ image_file)
    end.

(** The unused local [parts] of the source is left out. *)
Definition fix_divergent_metadata_filename (json_file : str) : M str :=
  if negb (endswith json_file METADATA_JSON) then
    let fixed_json_file := re_sub_suppl (lit "." ++ METADATA_JSON) json_file in
    if bool_decide (fixed_json_file <> json_file) then
      move_file json_file fixed_json_file ;;
      ret fixed_json_file
    else ret json_file
  else ret json_file.

(** The two repairs of [fix_metadata_file_for_image]: lines 136 to 143
    (the [-editada] version) and lines 145 to 166 (sequential images). *)
Definition repair_edited_variant (image_file : str) : M unit :=
  if str_in (lit "-editada") image_file then
    let original_file := replace (lit "-editada") [] image_file in
    let original_meta := original_file ++ lit "." ++ METADATA_JSON in
    let* e := path_exists original_meta in
    if e then
      let edited_meta := image_file ++ lit "." ++ METADATA_JSON in
      copy_file original_meta edited_meta
    else ret tt
  else ret tt.

Definition repair_numbered_duplicate (image_file : str) : M str :=
  let filename_no_ext := filename_without_ext image_file in
  match re_search pat_paren_num filename_no_ext with
  | Some num =>
      let filename_without_num := replace num [] (filename image_file) in
      (* rsplit('.', 1)[0] + '.' + rsplit('.', 1)[1] *)
      match split_last dot filename_without_num with
      | None => raise IndexError
      | Some (stem, ext) =>
          let filename_without_num := stem ++ lit "." ++ ext in
          let dir_path := dirname image_file in
          let wrong_json_file :=
            join dir_path (filename_without_num ++ lit ".supplemental-metadata"
                           ++ num ++ lit ".json") in
          let fixed_json_file :=
            join dir_path (filename image_file ++ lit "." ++ METADATA_JSON) in
          let* ew := path_exists wrong_json_file in
          (if ew then
             let* ef := path_exists fixed_json_file in
             if ef then
               errors_append (lit "Metadata file already exist: "
                              ++ fixed_json_file)
             else move_file wrong_json_file fixed_json_file
           else
             errors_append (lit "Metadata file: " ++ wrong_json_file
                            ++ lit " not exist for image: " ++ image_file)) ;;
          ret image_file
      end
  | None => ret image_file
  end.

Definition fix_metadata_file_for_image (image_file : str) : M str :=
  repair_edited_variant image_file ;;
  repair_numbered_duplicate image_file.

(** [len(l)] inside an f-string. *)
Definition str_of_len {A} (l : list A) : str := str_of_Z (Z.of_nat (length l)).

(** [enumerate(l, start)] *)
Fixpoint enumerate {A} (l : list A) (start : nat) : list (nat * A) :=
  match l with
  | [] => []
  | x :: l' => (start, x) :: enumerate l' (S start)
  end.

(** One report of [execute]: nothing for an empty list, else a heading and
    the entries, numbered from 1. *)
Definition print_section (heading : str -> str) (l : list str) : M unit :=
  if (0 <? length l)%nat then
    print (heading (str_of_len l)) ;;
    for_each (enumerate l 1) (fun ix =>
      print (lit "[" ++ str_of_Z (Z.of_nat (fst ix)) ++ lit "/" ++ str_of_len l
             ++ lit "] " ++ snd ix))
  else ret tt.

(** [[x for x in l if not os.path.exists(f(x))]] *)
Fixpoint without_file (f : str -> str) (l : list str) : M (list str) :=
  match l with
  | [] => ret []
  | x :: l' =>
      let* e := path_exists (f x) in
      let* r := without_file f l' in
      ret (if e then r else x :: r)
  end.

Definition in_year_dir (f : str) : bool :=
  bool_decide (is_Some (re_search pat_year_dir (dirname f))).
Definition is_image (f : str) : bool :=
  bool_decide (lower (snd (splitext f)) ∈ SUPPORTED_IMAGE_EXT).
Definition is_json (f : str) : bool :=
  bool_decide (lower (snd (splitext f)) = lit ".json").

(** The lists [execute] builds.  [walk] is what [os.walk(self.takeout_dir)]
    yields: the triples (root, dirs, files). *)
Definition all_files (walk : list (str * list str * list str)) : list str :=
  flat_map (fun t => List.map (join (fst (fst t))) (snd t)) walk.
Definition years_files (walk : list (str * list str * list str)) : list str :=
  List.filter in_year_dir (all_files walk).
Definition image_files (walk : list (str * list str * list str)) : list str :=
  List.filter is_image (years_files walk).
Definition json_files (walk : list (str * list str * list str)) : list str :=
  List.filter is_json (years_files walk).

(** Lines 195 to 210 of [execute]: the three reports. *)
Definition report (image_files : list str) : M unit :=
  let* errs := get_errors in
  print_section (fun n => newline :: lit "Process finalized with " ++ n
                                  ++ lit " errors:") errs ;;
  let* fxs := get_fixes in
  print_section (fun n => newline :: lit "Process finalized with " ++ n
                                  ++ lit " fixes:") fxs ;;
  let* not_found := without_file metadata_file_for image_files in
  print_section (fun n => newline :: lit "Metadata not found for " ++ n
                                  ++ lit " files:") not_found.

(** Lines 189 to 193 of [execute]: the two repair passes. *)
Definition repair (json_files image_files : list str) : M unit :=
  let* json_files := comprehension json_files fix_divergent_metadata_filename in
  for_each image_files (fun img =>
    fix_metadata_file_for_image img ;;
    generate_metadata_for_image_file img).

Definition execute (takeout_dir : str)
    (walk : list (str * list str * list str)) : M unit :=
  reset ;;
  print (lit "Total files found on " ++ takeout_dir ++ lit ": "
         ++ str_of_len (all_files walk)) ;;
  print (lit "Total photos from YYYY dirs found: "
         ++ str_of_len (years_files walk)) ;;
  print (lit "Total supported photos formats found: "
         ++ str_of_len (image_files walk)) ;;
  print (lit "Total metadata files found: " ++ str_of_len (json_files walk)) ;;
  repair (json_files walk) (image_files walk) ;;
  report (image_files walk).

End Fixer.

(** ** [datetime.timestamp()] on a POSIX platform

    Days since 1970-01-01 of a civil date. *)
Definition days_from_civil (y m d : Z) : Z :=
  let y' := if m <=? 2 then y - 1 else y in
  let era := y' / 400 in
  let yoe := y' - era * 400 in
  let mp := (m + 9) mod 12 in
  let doy := (153 * mp + 2) / 5 + d - 1 in
  let doe := yoe * 365 + yoe / 4 - yoe / 100 + doy in
  era * 146097 + doe - 719468.

(** [(t - epoch) // timedelta(0, 1)]: the seconds from 1970-01-01 00:00:00
    to [t], both read in the same zone. *)
Definition civil_seconds (t : datetime) : Z :=
  days_from_civil (year t) (month t) (day t) * 86400
  + hour t * 3600 + minute t * 60 + second t.

(** The seconds [l] that lie in the years 1 to 9999; [datetime(y, ...)]
    raises [ValueError] for the others. *)
Definition in_years (l : Z) : bool :=
  (days_from_civil 1 1 1 * 86400 <=? l)
  && (l <? days_from_civil 10000 1 1 * 86400).

(** [local(u)] of the library's [_mktime]: the local date and time at the
    instant [u], as seconds.  [utcoffset u] is the offset of local time
    from UTC that the platform's [localtime] applies at [u]. *)
Definition local (utcoffset : Z -> Z) (u : Z) : option Z :=
  let l := u + utcoffset u in
  if in_years l then Some l else None.

(** [_mktime] of a naive [datetime] (its [fold] is 0): the instant [u] with
    [local(u) = t]. *)
Definition mktime (utcoffset : Z -> Z) (t : Z) : option Z :=
  let max_fold_seconds := 24 * 3600 in
  lt ← local utcoffset t;
  let a := lt - t in
  let u1 := t - a in
  t1 ← local utcoffset u1;
  let rest (b : Z) : option Z :=
    let u2 := t - b in
    t2 ← local utcoffset u2;
    if t2 =? t then Some u2
    else if t1 =? t then Some u1
    else Some (Z.max u1 u2) in
  if t1 =? t then
    let u2 := u1 - max_fold_seconds in
    lt2 ← local utcoffset u2;
    let b := lt2 - u2 in
    if a =? b then Some u1 else rest b
  else rest (t1 - u1).

(** [int(s + microsecond / 1e6)]: [int] rounds towards zero.  The
    microseconds of the dates this program makes are 0 or whole
    milliseconds, which the rounding of the float sum cannot turn into a
    whole number of seconds. *)
Definition int_of_seconds (s microsecond : Z) : Z :=
  if (s <? 0) && (0 <? microsecond) then s + 1 else s.

(** [int(t.timestamp())]; [None] stands for [ValueError]. *)
Definition posix_timestamp (utcoffset : Z -> Z) (t : datetime) : option Z :=
  s ← mktime utcoffset (civil_seconds t);
  Some (int_of_seconds s (microsecond t)).

(** The zone to run examples in: UTC. *)
Definition utc_timestamp : datetime -> option Z := posix_timestamp (fun _ => 0).

Definition empty_state (f : gmap str str) : state := mk_state f [] [] [] [].

(** ** Notions used to state the properties *)

(** [d[k]] on a dictionary. *)
Definition json_get (k : str) (j : json) : option json :=
  match j with
  | JObj fs => snd <$> List.find (fun kv => bool_decide (fst kv = k)) fs
  | JStr _ => None
  end.

(** The state after [print] has written the lines [out]. *)
Definition printed (out : list str) (s : state) : state :=
  mk_state (files s) (fixes s) (errors s) (stdout s ++ out) (fs_calls s).

(** One report, as the lines it prints: nothing for an empty list, else a
    heading and the entries numbered from 1. *)
Definition section_lines (heading : str -> str) (l : list str) : list str :=
  match l with
  | [] => []
  | _ =>
      heading (str_of_len l)
      :: imap (fun i x => lit "[" ++ str_of_Z (Z.of_nat (S i)) ++ lit "/"
                          ++ str_of_len l ++ lit "] " ++ x) l
  end.

Definition errors_heading (n : str) : str :=
  newline :: lit "Process finalized with " ++ n ++ lit " errors:".
Definition fixes_heading (n : str) : str :=
  newline :: lit "Process finalized with " ++ n ++ lit " fixes:".
Definition not_found_heading (n : str) : str :=
  newline :: lit "Metadata not found for " ++ n ++ lit " files:".

(** The media files with no file at their canonical sidecar path. *)
Definition unresolved (image_files : list str) (fs : gmap str str) : list str :=
  List.filter (fun img => bool_decide (fs !! metadata_file_for img = None))
    image_files.

(** The three reports in the order the code prints them, and in the order
    the specification lists them (fixes, errors, unresolved). *)
Definition reports_code_order (s : state) (image_files : list str) : list str :=
  section_lines errors_heading (errors s)
  ++ section_lines fixes_heading (fixes s)
  ++ section_lines not_found_heading (unresolved image_files (files s)).
Definition reports_spec_order (s : state) (image_files : list str) : list str :=
  section_lines fixes_heading (fixes s)
  ++ section_lines errors_heading (errors s)
  ++ section_lines not_found_heading (unresolved image_files (files s)).

(** A string of decimal digits. *)
Definition all_digits (s : str) : Prop := forallb is_digit s = true.

(** A run of the shape YYYYMMDD_HHMMSS, and one of the shape
    YYYYMMDDHHMMSSmmm. *)
Definition date_time_run (run : str) : Prop :=
  exists a b, run = a ++ lit "_" ++ b
              /\ length a = 8%nat /\ length b = 6%nat
              /\ all_digits a /\ all_digits b.
Definition millis_run (run : str) : Prop :=
  length run = 17%nat /\ all_digits run.

(** [s] contains the run [run] after the characters [pre]. *)
Definition occurs_at (pre run s : str) : Prop :=
  exists post, s = pre ++ run ++ post.

(** What a logged call does to the files, and a sequence of calls. *)
Definition apply_call (c : fs_call) (fs : gmap str str) : gmap str str :=
  match c with
  | Copy o d => match fs !! o with Some x => <[d := x]> fs | None => fs end
  | Move o d =>
      match fs !! o with Some x => <[d := x]> (delete o fs) | None => fs end
  | Remove o => delete o fs
  | WriteText n x => <[n := x]> fs
  end.

Definition replay (calls : list fs_call) (fs : gmap str str) : gmap str str :=
  foldl (fun fs c => apply_call c fs) fs calls.

(** The entry of [fixes] that goes with a call. *)
Definition describe (c : fs_call) : str :=
  match c with
  | Copy o d => basename o ++ lit " copied to " ++ basename d
  | Move o d => basename o ++ lit " moved to " ++ basename d
  | Remove o => []
  | WriteText n _ => basename n ++ lit " written"
  end.

(** A canonical sidecar name, as the code tests it. *)
Definition canonical (p : str) : Prop := endswith p METADATA_JSON = true.

(** The calls a run makes: copies, moves and writes inside year
    directories, the moves from a name that is not canonical to one that
    is.  No file is removed. *)
Definition call_ok (c : fs_call) : Prop :=
  match c with
  | Copy o d => in_year_dir o = true /\ in_year_dir d = true
  | Move o d => in_year_dir o = true /\ in_year_dir d = true
                /\ ~ canonical o /\ canonical d
  | Remove _ => False
  | WriteText n _ => in_year_dir n = true
  end.

(** An entry of [errors] of a run: a text that ends with the path of a
    file in a year directory. *)
Definition error_ok (e : str) : Prop :=
  exists text p, e = text ++ p /\ in_year_dir p = true.

(** [s'] is reached from [s] by calls of the kind above: the files are
    those of [s] after the calls, each call has its entry in [fixes], and
    the new errors are about files in year directories. *)
Definition reaches (s s' : state) : Prop :=
  exists calls errs,
    fs_calls s' = fs_calls s ++ calls
    /\ Forall call_ok calls
    /\ files s' = replay calls (files s)
    /\ fixes s' = fixes s ++ List.map describe calls
    /\ errors s' = errors s ++ errs
    /\ Forall error_ok errs.

(** The call [c] creates, replaces, renames or removes the file at [p]. *)
Definition mutates (c : fs_call) (p : str) : Prop :=
  match c with
  | Copy _ d => d = p
  | Move o d => o = p \/ d = p
  | Remove o => o = p
  | WriteText n _ => n = p
  end.

(** A computation that, however it ends, ends in a state reached by such
    calls. *)
Definition keeps {A} (m : M A) : Prop := forall s, reaches s (final (m s)).

(** A run of the shape _YYYYMMDDHHMMSS_, and a path segment of the shape
    [Photos from YYYY/]. *)
Definition underscored_run (run : str) : Prop :=
  exists a, run = lit "_" ++ a ++ lit "_"
            /\ length a = 14%nat /\ all_digits a.
Definition photos_year_run (run : str) : Prop :=
  exists y, run = lit "Photos from " ++ y ++ lit "/"
            /\ length y = 4%nat /\ all_digits y.

(** The state after [self.errors.append(e)]. *)
Definition with_error (e : str) (s : state) : state :=
  mk_state (files s) (fixes s) (errors s ++ [e]) (stdout s) (fs_calls s).

(** Lines 213 to 221: the script.  [argv] is [sys.argv]. *)
Definition main (timestamp_int : datetime -> option Z) (argv : list str)
    (walk : list (str * list str * list str)) : M unit :=
  match argv with
  | _ :: takeout_dir :: _ => execute timestamp_int takeout_dir walk
  | _ => raise ValueError
  end.

(** No character of [s] is one of [chars]. *)
Definition free_of (chars s : str) : bool :=
  forallb (fun c => negb (bool_decide (c ∈ chars))) s.

(** A computation that prints nothing, however it ends. *)
Definition silent {A} (m : M A) : Prop :=
  forall s, stdout (final (m s)) = stdout s.

(** The four lines [execute] prints before it changes anything. *)
Definition totals (takeout_dir : str)
    (walk : list (str * list str * list str)) : list str :=
  [lit "Total files found on " ++ takeout_dir ++ lit ": "
   ++ str_of_len (all_files walk);
   lit "Total photos from YYYY dirs found: " ++ str_of_len (years_files walk);
   lit "Total supported photos formats found: "
   ++ str_of_len (image_files walk);
   lit "Total metadata files found: " ++ str_of_len (json_files walk)].

(** A computation that, however it ends, leaves what is at the path [p] as
    it was. *)
Definition unchanged_at (p : str) {A} (m : M A) : Prop :=
  forall s, files (final (m s)) !! p = files s !! p.

(** The counterpart of an edited file as the specification has it: the
    file of the same directory whose name is the name without the marker. *)
Definition counterpart (image_file : str) : str :=
  join (dirname image_file)
       (replace (lit "-editada") [] (basename image_file)).


(** * Properties

    ** The model on examples *)

Example basename_ex : basename (lit "a/b/IMG_01(2).jpg") = lit "IMG_01(2).jpg".
Proof. reflexivity. Qed.
Example dirname_ex : dirname (lit "a/b//IMG.jpg") = lit "a/b".
Proof. vm_compute. reflexivity. Qed.
Example dirname_root : dirname (lit "//x") = lit "//".
Proof. vm_compute. reflexivity. Qed.
Example splitext_ex : splitext (lit "a.b/.hidden") = (lit "a.b/.hidden", []).
Proof. vm_compute. reflexivity. Qed.
Example splitext_ex2 : splitext (lit "a.b/x.tar.GZ") = (lit "a.b/x.tar", lit ".GZ").
Proof. vm_compute. reflexivity. Qed.
Example join_ex : join (lit "a") (lit "b") = lit "a/b" /\ join [] (lit "b") = lit "b"
  /\ join (lit "a/") (lit "b") = lit "a/b".
Proof. vm_compute. auto. Qed.
Example replace_ex : replace (lit "(1)") [] (lit "a(1)b(1).jpg") = lit "ab.jpg".
Proof. vm_compute. reflexivity. Qed.
Example pad_ex : zero_pad 6 261000 = lit "261000" /\ zero_pad 2 5 = lit "05".
Proof. vm_compute. auto. Qed.
Example lower_ex : lower (lit ".JPG") = lit ".jpg".
Proof. vm_compute. reflexivity. Qed.
Example search_ex1 :
  re_search pat_date_time (lit "IMG_20210529_155539(1)")
  = Some (map lit ["2021"; "05"; "29"; "15"; "55"; "39"]).
Proof. vm_compute. reflexivity. Qed.
Example search_ex2 :
  re_search pat_millis (lit "CameraZOOM-20131224200623261")
  = Some (map lit ["2013"; "12"; "24"; "20"; "06"; "23"; "261"]).
Proof. vm_compute. reflexivity. Qed.
Example search_ex3 : re_search pat_paren_num (lit "IMG_01(2)") = Some (lit "(2)").
Proof. vm_compute. reflexivity. Qed.
Example search_ex4 :
  re_search pat_year_dir (lit "/t/Photos from 2019") = Some [lit "2019"]
  /\ re_search pat_year_dir (lit "/t/Photos from 2019/sub") = None.
Proof. vm_compute. auto. Qed.
Example sub_ex :
  re_sub_suppl (lit ".supplemental-metadata.json") (lit "a/IMG.jpg.suppl.json")
  = lit "a/IMG.jpg.supplemental-metadata.json".
Proof. vm_compute. reflexivity. Qed.
Example str_of_datetime_ex :
  str_of_datetime (mk_datetime 2013 12 24 20 6 23 261000)
  = lit "2013-12-24 20:06:23.261000".
Proof. vm_compute. reflexivity. Qed.

(** ** Reasoning in the monad *)

Ltac munfold :=
  unfold bind, ret, raise, path_exists, fixes_append, errors_append, print,
    get_fixes, get_errors, open_write, shutil_copy2, shutil_move, os_remove,
    set_files in *.

Lemma bind_ok {A B} (m : M A) (k : A -> M B) s a s' :
  m s = Ok a s' -> bind m k s = k a s'.
Proof. intros H. unfold bind. by rewrite H. Qed.

Lemma bind_raise {A B} (m : M A) (k : A -> M B) s e s' :
  m s = Raise e s' -> bind m k s = Raise e s'.
Proof. intros H. unfold bind. by rewrite H. Qed.

Lemma path_exists_some p s c :
  files s !! p = Some c -> path_exists p s = Ok true s.
Proof.
  intros H. unfold path_exists. rewrite H.
  rewrite bool_decide_eq_true_2; eauto.
Qed.

Lemma path_exists_none p s :
  files s !! p = None -> path_exists p s = Ok false s.
Proof.
  intros H. unfold path_exists. rewrite H.
  rewrite bool_decide_eq_false_2; [done|]. by intros [? ?].
Qed.

(** ** Timestamp inference leaves the state alone when it succeeds *)

Lemma rule_six_some pat image_file fn next s t s1 :
  (forall t s1, next s = Ok (Some t) s1 -> s1 = s) ->
  rule_six pat image_file fn next s = Ok (Some t) s1 -> s1 = s.
Proof.
  intros Hnext. unfold rule_six, invalid_date.
  repeat case_match; munfold; try (intros; simplify_eq; done); eauto.
Qed.

Lemma rule_millis_some image_file fn next s t s1 :
  (forall t s1, next s = Ok (Some t) s1 -> s1 = s) ->
  rule_millis image_file fn next s = Ok (Some t) s1 -> s1 = s.
Proof.
  intros Hnext. unfold rule_millis, invalid_date.
  repeat case_match; munfold; try (intros; simplify_eq; done); eauto.
Qed.

Lemma rule_photos_from_some image_file s t s1 :
  rule_photos_from image_file s = Ok (Some t) s1 -> s1 = s.
Proof.
  unfold rule_photos_from.
  repeat case_match; munfold; intros; simplify_eq; done.
Qed.

Lemma infer_time_some image_file s t s1 :
  infer_time_from_image_file image_file s = Ok (Some t) s1 -> s1 = s.
Proof.
  unfold infer_time_from_image_file.
  apply rule_six_some. intros ? ?. apply rule_millis_some.
  intros ? ?. apply rule_six_some. intros ? ?. apply rule_photos_from_some.
Qed.

(** ** Synthesis *)

(** C6. When a file already exists at the canonical sidecar path of a media
    file, [generate_metadata_for_image_file] returns at once with the state
    it was given: the content of every file (the existing sidecar among
    them) is the same, no file-system call is made, and [fixes] and
    [errors] are the same. *)
Theorem synthesis_skips_existing_sidecar
    (timestamp_int : datetime -> option Z) (image_file : str) (s : state) (c : str) :
  files s !! metadata_file_for image_file = Some c ->
  generate_metadata_for_image_file timestamp_int image_file s = Ok tt s.
Proof.
  intros H. unfold generate_metadata_for_image_file.
  by rewrite (bind_ok _ _ _ _ _ (path_exists_some _ _ _ H)).
Qed.

Lemma synthesis_skips_existing_sidecar_witness :
  let s := empty_state {[ lit "Photos from 2019/a.jpg.supplemental-metadata.json"
                          := lit "{}" ]} in
  files s !! metadata_file_for (lit "Photos from 2019/a.jpg") = Some (lit "{}")
  /\ generate_metadata_for_image_file utc_timestamp
       (lit "Photos from 2019/a.jpg") s = Ok tt s.
Proof.
  assert (H : files (empty_state {[ lit "Photos from 2019/a.jpg.supplemental-metadata.json"
                          := lit "{}" ]})
              !! metadata_file_for (lit "Photos from 2019/a.jpg")
              = Some (lit "{}")) by (vm_compute; reflexivity).
  split; [exact H|].
  exact (synthesis_skips_existing_sidecar utc_timestamp _ _ _ H).
Defined.

(** The library's computation in a zone with a constant offset from UTC:
    the call raises exactly when the date read as UTC, shifted by the
    offset or taken a day earlier, leaves the years 1 to 9999; else it
    gives the seconds from 1970-01-01 00:00:00 UTC to the date read in the
    zone, rounded towards zero. *)
Lemma posix_timestamp_fixed_offset offset t :
  posix_timestamp (fun _ => offset) t
  = if in_years (civil_seconds t + offset) && in_years (civil_seconds t)
       && in_years (civil_seconds t - 24 * 3600)
    then Some (int_of_seconds (civil_seconds t - offset) (microsecond t))
    else None.
Proof.
  unfold posix_timestamp, mktime, local.
  destruct (in_years (civil_seconds t + offset)); [|done].
  cbn [mbind option_bind andb].
  replace (civil_seconds t - (civil_seconds t + offset - civil_seconds t) + offset)
    with (civil_seconds t) by lia.
  destruct (in_years (civil_seconds t)); [|done].
  cbn [mbind option_bind andb]. rewrite Z.eqb_refl.
  replace (civil_seconds t - (civil_seconds t + offset - civil_seconds t)
           - 24 * 3600 + offset)
    with (civil_seconds t - 24 * 3600) by lia.
  destruct (in_years (civil_seconds t - 24 * 3600)); [|done].
  cbn [mbind option_bind].
  assert ((civil_seconds t + offset - civil_seconds t
           =? civil_seconds t - 24 * 3600
              - (civil_seconds t - (civil_seconds t + offset - civil_seconds t)
                 - 24 * 3600)) = true) as -> by lia.
  cbn [mbind option_bind]. do 2 f_equal. lia.
Qed.

(** C7.  When no file exists at the canonical sidecar path, a timestamp [t]
    is inferred and [int(t.timestamp())] returns [n], the record that is
    synthesized has [title] the media file's name (with its extension),
    [imageViews] the string "1", and the same value under [creationTime]
    and [photoTakenTime]: the decimal of [n] and [str(t)].  Its JSON text
    is written at [<media path>.supplemental-metadata.json], nothing else
    is written, and one fix is recorded.  Where [t.timestamp()] raises,
    no record is made: [ValueError] leaves synthesis, the state as it was.
    On a POSIX platform in a zone with a constant offset from UTC, [n] is
    the number of seconds from 1970-01-01 00:00:00 UTC to [t] read in that
    zone, rounded towards zero, and the call raises exactly when [t] read
    as UTC, shifted by the offset or taken a day earlier, leaves the years
    1 to 9999. *)
Theorem synthesized_sidecar_record
    (timestamp_int : datetime -> option Z) (image_file : str) (s s1 : state)
    (t : datetime) :
  files s !! metadata_file_for image_file = None ->
  infer_time_from_image_file image_file s = Ok (Some t) s1 ->
  let canonical := image_file ++ lit ".supplemental-metadata.json" in
  match timestamp_int t with
  | Some n =>
      let record := json_content image_file t n in
      let stamp := JObj [(lit "timestamp", JStr (str_of_Z n));
                         (lit "formatted", JStr (str_of_datetime t))] in
      json_get (lit "title") record = Some (JStr (basename image_file))
      /\ json_get (lit "imageViews") record = Some (JStr (lit "1"))
      /\ json_get (lit "creationTime") record = Some stamp
      /\ json_get (lit "photoTakenTime") record = Some stamp
      /\ exists s',
           generate_metadata_for_image_file timestamp_int image_file s
           = Ok tt s'
           /\ files s' = <[canonical := json_dumps 0 record]> (files s)
           /\ fs_calls s'
              = fs_calls s ++ [WriteText canonical (json_dumps 0 record)]
           /\ fixes s' = fixes s ++ [basename canonical ++ lit " written"]
           /\ errors s' = errors s
  | None =>
      generate_metadata_for_image_file timestamp_int image_file s
      = Raise ValueError s
  end
  /\ forall offset,
       posix_timestamp (fun _ => offset) t
       = if in_years (civil_seconds t + offset) && in_years (civil_seconds t)
            && in_years (civil_seconds t - 24 * 3600)
         then Some (int_of_seconds (civil_seconds t - offset) (microsecond t))
         else None.
Proof.
  intros Hnone Hinf canonical.
  pose proof (infer_time_some _ _ _ _ Hinf) as ->.
  split; [|intros offset; apply posix_timestamp_fixed_offset].
  assert (Hgen : generate_metadata_for_image_file timestamp_int image_file s
                 = (let* timestamp := time_timestamp timestamp_int t in
                    write_file (metadata_file_for image_file)
                      (json_dumps 0 (json_content image_file t timestamp))) s).
  { unfold generate_metadata_for_image_file.
    rewrite (bind_ok _ _ _ _ _ (path_exists_none _ _ Hnone)).
    by rewrite (bind_ok _ _ _ _ _ Hinf). }
  rewrite Hgen. unfold bind, time_timestamp.
  destruct (timestamp_int t) as [n|]; [|reflexivity].
  repeat split; try reflexivity.
  eexists. split; [reflexivity|]. repeat split.
Qed.

Lemma synthesized_sidecar_record_witness :
  let f := lit "t/Photos from 2019/CameraZOOM-20131224200623261.jpg" in
  let s := empty_state ∅ in
  let t := mk_datetime 2013 12 24 20 6 23 261000 in
  files s !! metadata_file_for f = None
  /\ infer_time_from_image_file f s = Ok (Some t) s
  /\ utc_timestamp t = Some 1387915583
  /\ exists s',
       generate_metadata_for_image_file utc_timestamp f s = Ok tt s'
       /\ files s' = <[f ++ lit ".supplemental-metadata.json"
                       := json_dumps 0 (json_content f t 1387915583)]> (files s).
Proof.
  intros f s t.
  assert (H1 : files s !! metadata_file_for f = None) by (vm_compute; reflexivity).
  assert (H2 : infer_time_from_image_file f s = Ok (Some t) s)
    by (vm_compute; reflexivity).
  assert (H3 : utc_timestamp t = Some 1387915583) by (vm_compute; reflexivity).
  split; [exact H1|]. split; [exact H2|]. split; [exact H3|].
  destruct (synthesized_sidecar_record utc_timestamp f s s t H1 H2) as [H _].
  rewrite H3 in H.
  destruct H as (_ & _ & _ & _ & s' & Hg & Hf & _).
  exists s'. split; [exact Hg | exact Hf].
Defined.

(** ** The reports *)

Lemma printed_nil s : printed [] s = s.
Proof. destruct s. unfold printed. simpl. by rewrite app_nil_r. Qed.

Lemma printed_printed a b s : printed b (printed a s) = printed (a ++ b) s.
Proof. unfold printed. simpl. by rewrite app_assoc. Qed.

Lemma for_each_print {A} (fmt : A -> str) (l : list A) s :
  for_each l (fun x => print (fmt x)) s = Ok tt (printed (List.map fmt l) s).
Proof.
  revert s. induction l as [|x l IH]; intros s; simpl.
  - by rewrite printed_nil.
  - unfold bind at 1. unfold print at 1. rewrite IH.
    f_equal. unfold printed. simpl. by rewrite <- app_assoc.
Qed.

Lemma map_enumerate {A B} (f : nat * A -> B) (l : list A) k :
  List.map f (enumerate l k) = imap (fun i x => f ((k + i)%nat, x)) l.
Proof.
  revert k f. induction l as [|x l IH]; intros k f; simpl; [done|].
  rewrite Nat.add_0_r. f_equal. rewrite IH.
  apply imap_ext. intros i y _. simpl. do 2 f_equal. lia.
Qed.

Lemma print_section_lines heading l s :
  print_section heading l s = Ok tt (printed (section_lines heading l) s).
Proof.
  unfold print_section, section_lines.
  destruct l as [|x l]; [simpl; by rewrite printed_nil|].
  change (0 <? length (x :: l))%nat with true. cbv beta iota.
  unfold bind at 1. unfold print at 1.
  rewrite (for_each_print
    (fun ix => lit "[" ++ str_of_Z (Z.of_nat (fst ix)) ++ lit "/"
               ++ str_of_len (x :: l) ++ lit "] " ++ snd ix)).
  rewrite map_enumerate. f_equal.
  unfold printed. simpl. by rewrite <- app_assoc.
Qed.

Lemma without_file_unresolved l s :
  without_file metadata_file_for l s = Ok (unresolved l (files s)) s.
Proof.
  induction l as [|x l IH]; simpl; [done|].
  unfold bind at 1, path_exists at 1. unfold bind at 1. rewrite IH.
  unfold ret. f_equal.
  destruct (files s !! metadata_file_for x) eqn:E.
  - rewrite bool_decide_eq_true_2 by eauto.
    rewrite bool_decide_eq_false_2 by done. done.
  - rewrite bool_decide_eq_false_2 by (by intros [? ?]).
    rewrite bool_decide_eq_true_2 by done. done.
Qed.

Lemma report_prints imgs s :
  report imgs s = Ok tt (printed (reports_code_order s imgs) s).
Proof.
  unfold report, reports_code_order.
  unfold bind at 1, get_errors at 1.
  unfold bind at 1. rewrite print_section_lines.
  unfold bind at 1, get_fixes at 1.
  unfold bind at 1. rewrite print_section_lines.
  unfold bind at 1. rewrite without_file_unresolved.
  rewrite print_section_lines. rewrite !printed_printed.
  reflexivity.
Qed.

Lemma execute_report timestamp_int takeout_dir walk s :
  match execute timestamp_int takeout_dir walk s with
  | Ok _ s' =>
      exists s1, s' = printed (reports_code_order s1 (image_files walk)) s1
  | Raise _ _ => True
  end.
Proof.
  unfold execute.
  unfold bind at 1, reset at 1.
  do 4 (unfold bind at 1, print at 1).
  unfold bind at 1.
  match goal with |- context [repair ?ts ?j ?i ?st] =>
    destruct (repair ts j i st) as [[] s1|e s1] end; [|done].
  rewrite report_prints. eauto.
Qed.

(** C9, as the code has it.  The three reports come in the order errors,
    fixes, files without a sidecar at the canonical path.  [report] never
    raises and changes nothing but the output; each report is empty for an
    empty list and else a heading followed by the entries numbered from 1;
    and whenever [execute] returns, its output ends with these reports,
    made from the errors, fixes and files it ends with. *)
Theorem reports_errors_fixes_unresolved
    (timestamp_int : datetime -> option Z) (takeout_dir : str)
    (walk : list (str * list str * list str)) (imgs : list str) (s : state)
    (heading : str -> str) (l : list str) (i : nat) (x : str) :
  report imgs s
  = Ok tt (printed (section_lines errors_heading (errors s)
                    ++ section_lines fixes_heading (fixes s)
                    ++ section_lines not_found_heading
                         (unresolved imgs (files s))) s)
  /\ section_lines heading [] = []
  /\ section_lines heading (x :: l) !! 0%nat
     = Some (heading (str_of_len (x :: l)))
  /\ section_lines heading l !! S i
     = (fun y => lit "[" ++ str_of_Z (Z.of_nat (S i)) ++ lit "/"
                 ++ str_of_len l ++ lit "] " ++ y) <$> l !! i
  /\ match execute timestamp_int takeout_dir walk s with
     | Ok _ s' =>
         exists out,
           stdout s' = out ++ reports_code_order s' (image_files walk)
     | Raise _ _ => True
     end.
Proof.
  split; [apply report_prints|].
  split; [done|]. split; [done|]. split.
  - destruct l as [|y l]; [done|].
    unfold section_lines. rewrite lookup_cons_ne_0 by done. simpl Nat.pred.
    by rewrite list_lookup_imap.
  - pose proof (execute_report timestamp_int takeout_dir walk s) as H.
    destruct (execute timestamp_int takeout_dir walk s) as [[] s'|]; [|done].
    destruct H as [s1 ->]. exists (stdout s1). reflexivity.
Qed.

(** C9 as stated fails: in this run one error and one fix are recorded, and
    the report of the errors is printed before the report of the fixes. *)
Lemma reports_not_fixes_first :
  let img := lit "t/Photos from 2019/IMG(1).jpg" in
  let s' := final (execute utc_timestamp (lit "t")
                     [(lit "t/Photos from 2019", [], [lit "IMG(1).jpg"])]
                     (empty_state {[ img := lit "x" ]})) in
  errors s'
  = [lit "Metadata file: t/Photos from 2019/IMG.jpg.supplemental-metadata(1).json not exist for image: t/Photos from 2019/IMG(1).jpg"]
  /\ fixes s' = [lit "IMG(1).jpg.supplemental-metadata.json written"]
  /\ drop 4 (stdout s')
     = [errors_heading (lit "1"); lit "[1/1] " ++ hd [] (errors s');
        fixes_heading (lit "1"); lit "[1/1] " ++ hd [] (fixes s')]
  /\ drop 4 (stdout s') <> reports_spec_order s' [img].
Proof.
  vm_compute. repeat split. discriminate.
Qed.

(** ** Numbered duplicates *)

(** C3 on the code.  For the media file [IMG_01(2).jpg] with a sidecar at
    [IMG_01.supplemental-metadata(2).json], the repair looks for the file
    [IMG_01.jpg.supplemental-metadata(2).json] (the extension is put back
    into the name it builds), finds none, records an error and moves
    nothing: the sidecar stays where it was and no file exists at
    [IMG_01(2).jpg.supplemental-metadata.json]. *)
Theorem numbered_duplicate_keeps_extension :
  let img := lit "Photos from 2019/IMG_01(2).jpg" in
  let placed := lit "Photos from 2019/IMG_01.supplemental-metadata(2).json" in
  let canonical := lit "Photos from 2019/IMG_01(2).jpg.supplemental-metadata.json" in
  let s := empty_state {[ img := lit "image"; placed := lit "sidecar" ]} in
  let r := fix_metadata_file_for_image img s in
  returned r = Some img
  /\ files (final r) !! placed = Some (lit "sidecar")
  /\ files (final r) !! canonical = None
  /\ fs_calls (final r) = []
  /\ fixes (final r) = []
  /\ errors (final r)
     = [lit "Metadata file: Photos from 2019/IMG_01.jpg.supplemental-metadata(2).json not exist for image: Photos from 2019/IMG_01(2).jpg"].
Proof. vm_compute. repeat split. Qed.

(** What the code does repair: the sidecar whose name has the extension. *)
Example numbered_duplicate_with_extension :
  let img := lit "Photos from 2019/IMG_01(2).jpg" in
  let placed := lit "Photos from 2019/IMG_01.jpg.supplemental-metadata(2).json" in
  let canonical := lit "Photos from 2019/IMG_01(2).jpg.supplemental-metadata.json" in
  let s := empty_state {[ img := lit "image"; placed := lit "sidecar" ]} in
  let r := fix_metadata_file_for_image img s in
  returned r = Some img
  /\ files (final r) !! placed = None
  /\ files (final r) !! canonical = Some (lit "sidecar")
  /\ fs_calls (final r) = [Move placed canonical]
  /\ errors (final r) = [].
Proof. vm_compute. repeat split. Qed.

(** With a file already at the canonical name, an error is recorded and
    both files are left as they are. *)
Example numbered_duplicate_collision :
  let img := lit "Photos from 2019/IMG_01(2).jpg" in
  let placed := lit "Photos from 2019/IMG_01.jpg.supplemental-metadata(2).json" in
  let canonical := lit "Photos from 2019/IMG_01(2).jpg.supplemental-metadata.json" in
  let s := empty_state {[ img := lit "image"; placed := lit "sidecar";
                          canonical := lit "other" ]} in
  let r := fix_metadata_file_for_image img s in
  returned r = Some img
  /\ files (final r) !! placed = Some (lit "sidecar")
  /\ files (final r) !! canonical = Some (lit "other")
  /\ fs_calls (final r) = []
  /\ errors (final r)
     = [lit "Metadata file already exist: Photos from 2019/IMG_01(2).jpg.supplemental-metadata.json"].
Proof. vm_compute. repeat split. Qed.

(** ** Facts about strings *)

Lemma literal_spec p s r : literal p s = Some r <-> s = p ++ r.
Proof.
  revert s. induction p as [|c p IH]; intros s; simpl.
  - split; congruence.
  - destruct s as [|x s]; [split; [done | intros H; discriminate H]|].
    destruct (decide (x = c)) as [-> |Hne].
    + rewrite IH. split; [by intros -> | by intros [= ->]].
    + split; [done | intros [= ? ?]; done].
Qed.

Lemma at_end_cases s : at_end s = true -> s = [] \/ s = [newline].
Proof.
  unfold at_end. intros H. apply orb_prop in H as [H|H];
    apply bool_decide_eq_true_1 in H; auto.
Qed.

Lemma endswith_true s p : endswith s p = true <-> exists k, s = k ++ p.
Proof. unfold endswith. rewrite bool_decide_eq_true. reflexivity. Qed.

Lemma endswith_app s p : endswith (s ++ p) p = true.
Proof. apply endswith_true. eauto. Qed.

(** Two suffixes of one string that have the same length are equal. *)
Lemma suffix_same_length (a b x y : str) :
  a ++ x = b ++ y -> length x = length y -> x = y.
Proof. intros H Hl. by apply app_inj_2 in H as [_ ?]. Qed.

(** *** [re.sub] of the truncated suffix *)

Lemma re_sub_suppl_cases repl s :
  (exists stem rest,
      s = stem ++ lit ".suppl.json" ++ rest /\ at_end rest = true
      /\ re_sub_suppl repl s = stem ++ repl ++ rest)
  \/ re_sub_suppl repl s = s.
Proof.
  induction s as [|c s IH].
  - right. reflexivity.
  - cbn [re_sub_suppl].
    destruct (literal (lit ".suppl.json") (c :: s)) as [rest|] eqn:E.
    + destruct (at_end rest) eqn:Ea.
      * left. exists [], rest. apply literal_spec in E. by rewrite E.
      * destruct IH as [(stem & rest' & -> & ? & ->) | ->]; [left|by right].
        by exists (c :: stem), rest'.
    + destruct IH as [(stem & rest' & -> & ? & ->) | ->]; [left|by right].
      by exists (c :: stem), rest'.
Qed.

Lemma re_sub_suppl_suffix repl stem :
  re_sub_suppl repl (stem ++ lit ".suppl.json") = stem ++ repl.
Proof.
  induction stem as [|c stem IH].
  - transitivity (repl ++ []); [reflexivity | apply app_nil_r].
  - change ((c :: stem) ++ lit ".suppl.json") with (c :: stem ++ lit ".suppl.json").
    cbn [re_sub_suppl].
    destruct (literal _ (c :: stem ++ _)) as [rest|] eqn:E;
      [|by rewrite IH].
    destruct (at_end rest) eqn:Ea; [|by rewrite IH].
    exfalso. apply literal_spec in E.
    apply at_end_cases in Ea as [Ea|Ea]; subst rest.
    + apply (f_equal length) in E. rewrite app_nil_r in E.
      cbn in E. rewrite length_app in E. cbn in E. lia.
    + assert (H : last (c :: stem ++ lit ".suppl.json")
                  = last (lit ".suppl.json" ++ [newline])) by (by rewrite E).
      rewrite last_snoc in H.
      change (c :: stem ++ lit ".suppl.json")
        with ((c :: stem) ++ lit ".suppl.jso" ++ ["n"%char]) in H.
      rewrite app_assoc, last_snoc in H. discriminate H.
Qed.

(** *** [split_last] and the functions of [os.path] *)

Lemma split_last_Some c s a b :
  split_last c s = Some (a, b) -> s = a ++ c :: b /\ c ∉ b.
Proof.
  revert a. induction s as [|x s IH]; intros a; simpl; [done|].
  destruct (split_last c s) as [[a' b']|] eqn:E.
  - intros [= <- <-]. destruct (IH a' eq_refl) as [-> ?]. done.
  - destruct (decide (x = c)) as [->|]; [|done].
    intros [= <- <-]. split; [done|].
    clear IH. induction s as [|y s IH]; [apply not_elem_of_nil|].
    simpl in E. destruct (split_last c s) as [[? ?]|]; [done|].
    destruct (decide (y = c)); [done|].
    apply not_elem_of_cons. split; [congruence | by apply IH].
Qed.

Lemma split_last_None c s : split_last c s = None <-> c ∉ s.
Proof.
  induction s as [|x s IH]; simpl.
  - split; [intros _; apply not_elem_of_nil | done].
  - destruct (split_last c s) as [[a b]|] eqn:E.
    + split; [done|]. intros H%not_elem_of_cons.
      destruct H as [_ H]. apply IH in H. done.
    + destruct (decide (x = c)) as [->|Hne].
      * split; [done|]. intros H. exfalso. apply H. left.
      * split; [|done]. intros _. apply not_elem_of_cons.
        split; [congruence | by apply IH].
Qed.

Lemma split_last_intro c a b :
  c ∉ b -> split_last c (a ++ c :: b) = Some (a, b).
Proof.
  intros Hb. induction a as [|x a IH]; simpl.
  - apply split_last_None in Hb. rewrite Hb.
    by rewrite decide_True.
  - by rewrite IH.
Qed.

Lemma splitext_snd_suffix p : snd (splitext p) `suffix_of` p.
Proof.
  unfold splitext.
  destruct (split_last slash p) as [[a b]|] eqn:Ea.
  - apply split_last_Some in Ea as [-> _].
    destruct (split_last dot b) as [[r e]|] eqn:Eb; [|apply suffix_nil].
    apply split_last_Some in Eb as [-> _].
    destruct (forallb _ r); simpl; [apply suffix_nil|].
    exists (a ++ slash :: r). by rewrite <- app_assoc.
  - destruct (split_last dot p) as [[r e]|] eqn:Eb; [|apply suffix_nil].
    apply split_last_Some in Eb as [-> _].
    destruct (forallb _ r); simpl; [apply suffix_nil|].
    by exists r.
Qed.

(** A sidecar name (extension [.json] in any case) does not end with a
    newline. *)
Lemma is_json_last name :
  is_json name = true -> exists k x, name = k ++ [x] /\ x <> newline.
Proof.
  unfold is_json. rewrite bool_decide_eq_true. intros H.
  destruct (splitext_snd_suffix name) as [k Hk].
  destruct (snd (splitext name)) as [|c1 [|c2 [|c3 [|c4 [|c5 [|c6 e]]]]]];
    try discriminate H.
  exists (k ++ [c1; c2; c3; c4]), c5. split.
  - by rewrite <- app_assoc.
  - intros ->. discriminate H.
Qed.

(** ** Normalization of sidecar names *)

Lemma move_file_ok origin destination s c :
  files s !! origin = Some c ->
  move_file origin destination s
  = Ok tt (mk_state (<[destination := c]> (delete origin (files s)))
             (fixes s ++ [filename origin ++ lit " moved to "
                          ++ filename destination])
             (errors s) (stdout s)
             (fs_calls s ++ [Move origin destination])).
Proof.
  intros H. unfold move_file, bind, shutil_move. rewrite H. reflexivity.
Qed.

Lemma move_file_raise origin destination s :
  files s !! origin = None ->
  move_file origin destination s = Raise (FileNotFoundError origin) s.
Proof.
  intros H. unfold move_file, bind, shutil_move. rewrite H. reflexivity.
Qed.

Lemma truncated_not_canonical stem :
  endswith (stem ++ lit ".suppl.json") METADATA_JSON = false.
Proof.
  apply not_true_is_false. intros [k H]%endswith_true.
  change METADATA_JSON with (lit "supplemental-me" ++ lit "tadata.json") in H.
  rewrite app_assoc in H. apply suffix_same_length in H; [|done].
  discriminate H.
Qed.

Lemma canonical_endswith stem :
  endswith (stem ++ lit ".supplemental-metadata.json") METADATA_JSON = true.
Proof.
  apply endswith_true. exists (stem ++ lit "."). by rewrite <- app_assoc.
Qed.

Lemma fix_divergent_canonical name s :
  endswith name METADATA_JSON = true ->
  fix_divergent_metadata_filename name s = Ok name s.
Proof. intros H. unfold fix_divergent_metadata_filename. by rewrite H. Qed.

(** Idempotence, for every name and state. *)
Lemma fix_divergent_idempotent name s r s' :
  fix_divergent_metadata_filename name s = Ok r s' ->
  fix_divergent_metadata_filename r s' = Ok r s'.
Proof.
  unfold fix_divergent_metadata_filename at 1.
  destruct (endswith name METADATA_JSON) eqn:Ec; cbn [negb].
  { intros [= <- <-]. by apply fix_divergent_canonical. }
  pose proof (re_sub_suppl_cases (lit "." ++ METADATA_JSON) name) as Hcases.
  set (fixed := re_sub_suppl (lit "." ++ METADATA_JSON) name) in *.
  case_bool_decide as Hd.
  2:{ intros [= <- <-]. unfold fix_divergent_metadata_filename.
      rewrite Ec. cbn [negb]. fold fixed.
      by rewrite bool_decide_eq_false_2 by (intros H; apply H, Hd). }
  destruct (files s !! name) as [c|] eqn:Ef.
  2:{ rewrite (bind_raise _ _ _ _ _ (move_file_raise _ _ _ Ef)). done. }
  rewrite (bind_ok _ _ _ _ _ (move_file_ok _ _ _ _ Ef)).
  unfold ret. intros [= <- <-].
  destruct Hcases as [(stem & rest & Hname & Hrest & Hsub)|Hsub]; [|exfalso; exact (Hd Hsub)].
  clearbody fixed. subst fixed. unfold fix_divergent_metadata_filename.
  destruct (endswith (stem ++ _ ++ rest) METADATA_JSON) eqn:Ec';
    cbn [negb]; [reflexivity|].
  rewrite bool_decide_eq_false_2; [reflexivity|]. intros Hne. apply Hne. clear Hne.
  apply at_end_cases in Hrest as [-> | ->].
  { rewrite app_nil_r in Ec'.
    change (lit "." ++ METADATA_JSON) with (lit ".supplemental-metadata.json") in Ec'.
    by rewrite canonical_endswith in Ec'. }
  match goal with |- re_sub_suppl ?r ?x = _ =>
    destruct (re_sub_suppl_cases r x)
      as [(stem' & rest' & Heq & Hrest' & _)|Hs]; [|done] end.
  exfalso. apply at_end_cases in Hrest' as [-> | ->].
  - rewrite app_nil_r in Heq.
    assert (H : last (stem ++ (lit "." ++ METADATA_JSON) ++ [newline])
                = last (stem' ++ lit ".suppl.jso" ++ ["n"%char]))
      by (by rewrite Heq).
    rewrite !app_assoc, !last_snoc in H. discriminate H.
  - rewrite !app_assoc in Heq. apply app_inj_2 in Heq as [Heq _]; [|done].
    change METADATA_JSON
      with (lit "supplemental-me" ++ lit "tadata.json") in Heq.
    rewrite app_assoc in Heq. apply suffix_same_length in Heq; [|done].
    discriminate Heq.
Qed.

(** C5.  A name [stem.suppl.json] of an existing file is renamed to
    [stem.supplemental-metadata.json] (one move, the content kept), and
    normalizing the result again changes nothing.  Normalization is
    idempotent on every name.  A sidecar name (extension [.json]) that ends
    neither with [.supplemental-metadata.json] nor with [.suppl.json] is
    returned as it is, the state unchanged. *)
Theorem normalization_of_sidecar_names (stem name : str) (s : state) (c : str) :
  (files s !! (stem ++ lit ".suppl.json") = Some c ->
   exists s',
     fix_divergent_metadata_filename (stem ++ lit ".suppl.json") s
     = Ok (stem ++ lit ".supplemental-metadata.json") s'
     /\ files s' = <[stem ++ lit ".supplemental-metadata.json" := c]>
                     (delete (stem ++ lit ".suppl.json") (files s))
     /\ fs_calls s' = fs_calls s ++ [Move (stem ++ lit ".suppl.json")
                                       (stem ++ lit ".supplemental-metadata.json")]
     /\ fix_divergent_metadata_filename
          (stem ++ lit ".supplemental-metadata.json") s'
        = Ok (stem ++ lit ".supplemental-metadata.json") s')
  /\ (forall r s',
        fix_divergent_metadata_filename name s = Ok r s' ->
        fix_divergent_metadata_filename r s' = Ok r s')
  /\ (is_json name = true ->
      endswith name (lit ".supplemental-metadata.json") = false ->
      endswith name (lit ".suppl.json") = false ->
      fix_divergent_metadata_filename name s = Ok name s).
Proof.
  split; [|split].
  - intros Hf. eexists. split; [|split; [|split]].
    + unfold fix_divergent_metadata_filename.
      rewrite truncated_not_canonical. cbn [negb].
      rewrite re_sub_suppl_suffix.
      rewrite bool_decide_eq_true_2.
      2:{ intros H%app_inv_head. discriminate H. }
      rewrite (bind_ok _ _ _ _ _ (move_file_ok _ _ _ _ Hf)).
      reflexivity.
    + reflexivity.
    + reflexivity.
    + apply fix_divergent_canonical, canonical_endswith.
  - apply fix_divergent_idempotent.
  - intros Hj Hc Ht. unfold fix_divergent_metadata_filename.
    destruct (endswith name METADATA_JSON); cbn [negb]; [reflexivity|].
    rewrite bool_decide_eq_false_2; [reflexivity|]. intros Hne. apply Hne. clear Hne.
    destruct (re_sub_suppl_cases (lit "." ++ METADATA_JSON) name)
      as [(stem' & rest & -> & Hrest & _)|Hsub]; [|done].
    exfalso. apply at_end_cases in Hrest as [-> | ->].
    + rewrite app_nil_r, endswith_app in Ht. done.
    + destruct (is_json_last _ Hj) as (k & x & Heq & Hx).
      rewrite !app_assoc in Heq. apply app_inj_2 in Heq as [_ [= <-]]; done.
Qed.

Lemma normalization_of_sidecar_names_witness :
  let stem := lit "Photos from 2019/IMG.jpg" in
  let s := empty_state {[ stem ++ lit ".suppl.json" := lit "{}" ]} in
  let name := lit "Photos from 2019/notes.JSON" in
  files s !! (stem ++ lit ".suppl.json") = Some (lit "{}")
  /\ is_json name = true
  /\ endswith name (lit ".supplemental-metadata.json") = false
  /\ endswith name (lit ".suppl.json") = false
  /\ (exists s',
        fix_divergent_metadata_filename (stem ++ lit ".suppl.json") s
        = Ok (stem ++ lit ".supplemental-metadata.json") s'
        /\ fix_divergent_metadata_filename
             (stem ++ lit ".supplemental-metadata.json") s'
           = Ok (stem ++ lit ".supplemental-metadata.json") s')
  /\ fix_divergent_metadata_filename name s = Ok name s.
Proof.
  intros stem s name.
  assert (H1 : files s !! (stem ++ lit ".suppl.json") = Some (lit "{}"))
    by (vm_compute; reflexivity).
  assert (H2 : is_json name = true) by (vm_compute; reflexivity).
  assert (H3 : endswith name (lit ".supplemental-metadata.json") = false)
    by (vm_compute; reflexivity).
  assert (H4 : endswith name (lit ".suppl.json") = false)
    by (vm_compute; reflexivity).
  destruct (normalization_of_sidecar_names stem name s (lit "{}"))
    as (Ha & _ & Hc).
  destruct (Ha H1) as (s' & Hs1 & _ & _ & Hs2).
  split; [exact H1|]. split; [exact H2|]. split; [exact H3|].
  split; [exact H4|]. split; [|by apply Hc].
  exists s'. by split.
Defined.

(** ** The patterns of timestamp inference *)

Lemma digits_app n d r :
  length d = n -> all_digits d -> digits n (d ++ r) = Some (d, r).
Proof.
  revert d. induction n as [|n IH]; intros d Hl Hd.
  - destruct d; [done | discriminate Hl].
  - destruct d as [|c d]; [discriminate Hl|].
    unfold all_digits in Hd. simpl in Hd. apply andb_prop in Hd as [Hc Hd].
    simpl. rewrite Hc. rewrite IH; [done | by injection Hl | done].
Qed.

Lemma digits_inv n s d r :
  digits n s = Some (d, r) -> s = d ++ r /\ length d = n /\ all_digits d.
Proof.
  revert s d. induction n as [|n IH]; intros s d; simpl.
  - by intros [= <- <-].
  - destruct s as [|c s]; [done|]. destruct (is_digit c) eqn:Ec; [|done].
    destruct (digits n s) as [[d' r']|] eqn:E; [|done]. simpl.
    intros [= <- <-]. destruct (IH _ _ E) as (-> & <- & Hd).
    repeat split. unfold all_digits. simpl. by rewrite Ec.
Qed.

Lemma all_digits_app a b : all_digits (a ++ b) <-> all_digits a /\ all_digits b.
Proof.
  unfold all_digits. rewrite forallb_app. split.
  - by intros [? ?]%andb_prop.
  - intros [-> ->]. done.
Qed.

Lemma literal_app p r : literal p (p ++ r) = Some r.
Proof. by apply literal_spec. Qed.

(** [re.search] finds the match at a position when the pattern matches at
    no position before it. *)
Lemma re_search_at {A} (m : str -> option A) pre rest g :
  m rest = Some g ->
  (forall pre1 c pre2, pre = pre1 ++ c :: pre2 -> m (c :: pre2 ++ rest) = None) ->
  re_search m (pre ++ rest) = Some g.
Proof.
  intros Hm. induction pre as [|c pre IH]; intros Hbefore.
  - destruct rest; simpl; by rewrite Hm.
  - simpl. rewrite (Hbefore [] c pre eq_refl).
    apply IH. intros pre1 c' pre2 ->. by apply (Hbefore (c :: pre1)).
Qed.

Lemma re_search_none {A} (m : str -> option A) s :
  re_search m s = None <-> forall pre rest, s = pre ++ rest -> m rest = None.
Proof.
  induction s as [|c s IH]; simpl.
  - destruct (m []) eqn:E.
    + split; [done|]. intros H. by rewrite (H [] [] eq_refl) in E.
    + split; [|done]. intros _ pre rest H.
      symmetry in H. apply app_eq_nil in H as [_ ->]. done.
  - destruct (m (c :: s)) eqn:E.
    + split; [done|]. intros H. by rewrite (H [] _ eq_refl) in E.
    + rewrite IH. split.
      * intros H [|x pre] rest Heq; simpl in Heq.
        -- by subst rest.
        -- injection Heq as -> ->. by apply (H pre).
      * intros H pre rest ->. by apply (H (c :: pre)).
Qed.

Lemma re_search_some {A} (m : str -> option A) s g :
  re_search m s = Some g ->
  exists pre rest, s = pre ++ rest /\ m rest = Some g.
Proof.
  induction s as [|c s IH]; simpl.
  - destruct (m []) eqn:E; [|done]. intros [= <-]. by exists [], [].
  - destruct (m (c :: s)) eqn:E.
    + intros [= <-]. by exists [], (c :: s).
    + intros (pre & rest & -> & ?)%IH. by exists (c :: pre), rest.
Qed.

(** The pattern of rule 1 matches at the start of [s] exactly when [s]
    starts with a run of the shape YYYYMMDD_HHMMSS. *)
Lemma pat_date_time_run y mo d h mi sec post :
  length y = 4%nat -> length mo = 2%nat -> length d = 2%nat ->
  length h = 2%nat -> length mi = 2%nat -> length sec = 2%nat ->
  all_digits (y ++ mo ++ d ++ h ++ mi ++ sec) ->
  pat_date_time (y ++ mo ++ d ++ lit "_" ++ h ++ mi ++ sec ++ post)
  = Some [y; mo; d; h; mi; sec].
Proof.
  intros ? ? ? ? ? ? Hd.
  apply all_digits_app in Hd as [? Hd]. apply all_digits_app in Hd as [? Hd].
  apply all_digits_app in Hd as [? Hd]. apply all_digits_app in Hd as [? Hd].
  apply all_digits_app in Hd as [? Hd].
  unfold pat_date_time, ymdhms_tail.
  repeat (first [rewrite digits_app by done | rewrite literal_app];
          cbn [mbind option_bind]).
  done.
Qed.

Lemma pat_date_time_inv s g :
  pat_date_time s = Some g ->
  exists run post, s = run ++ post /\ date_time_run run.
Proof.
  unfold pat_date_time, ymdhms_tail.
  destruct (digits 4 s) as [[y s1]|] eqn:E1; [|done]. cbn [mbind option_bind].
  destruct (digits 2 s1) as [[mo s2]|] eqn:E2; [|done]. cbn [mbind option_bind].
  destruct (digits 2 s2) as [[d s3]|] eqn:E3; [|done]. cbn [mbind option_bind].
  destruct (literal (lit "_") s3) as [s4|] eqn:E4; [|done]. cbn [mbind option_bind].
  destruct (digits 2 s4) as [[h s5]|] eqn:E5; [|done]. cbn [mbind option_bind].
  destruct (digits 2 s5) as [[mi s6]|] eqn:E6; [|done]. cbn [mbind option_bind].
  destruct (digits 2 s6) as [[sec s7]|] eqn:E7; [|done]. cbn [mbind option_bind].
  intros _.
  apply digits_inv in E1 as (-> & ? & ?), E2 as (-> & ? & ?),
    E3 as (-> & ? & ?), E5 as (-> & ? & ?), E6 as (-> & ? & ?),
    E7 as (-> & ? & ?).
  apply literal_spec in E4 as ->.
  exists ((y ++ mo ++ d) ++ lit "_" ++ (h ++ mi ++ sec)), s7. split.
  - by rewrite <- !app_assoc.
  - exists (y ++ mo ++ d), (h ++ mi ++ sec). split; [done|].
    rewrite !length_app, !all_digits_app. repeat split; try done; lia.
Qed.

Lemma all_digits_take n s : all_digits s -> all_digits (take n s).
Proof.
  intros H. rewrite <- (take_drop n s) in H. by apply all_digits_app in H as [? _].
Qed.

Lemma all_digits_drop n s : all_digits s -> all_digits (drop n s).
Proof.
  intros H. rewrite <- (take_drop n s) in H. by apply all_digits_app in H as [_ ?].
Qed.

Lemma pat_date_time_of_run run post :
  date_time_run run -> pat_date_time (run ++ post) <> None.
Proof.
  intros (a & b & -> & Ha & Hb & Hda & Hdb).
  rewrite <- (take_drop 4 a), <- (take_drop 2 (drop 4 a)), drop_drop.
  rewrite <- (take_drop 2 b), <- (take_drop 2 (drop 2 b)), drop_drop.
  rewrite <- !app_assoc.
  rewrite pat_date_time_run; [done|..];
    rewrite ?length_take, ?length_drop, ?all_digits_app; try lia.
  repeat split; auto using all_digits_take, all_digits_drop.
Qed.

(** The same for the pattern of rule 2 and runs of 17 digits. *)
Lemma pat_millis_run y mo d h mi sec ms post :
  length y = 4%nat -> length mo = 2%nat -> length d = 2%nat ->
  length h = 2%nat -> length mi = 2%nat -> length sec = 2%nat ->
  length ms = 3%nat ->
  all_digits (y ++ mo ++ d ++ h ++ mi ++ sec ++ ms) ->
  pat_millis (y ++ mo ++ d ++ h ++ mi ++ sec ++ ms ++ post)
  = Some [y; mo; d; h; mi; sec; ms].
Proof.
  intros ? ? ? ? ? ? ? Hd.
  do 6 (apply all_digits_app in Hd as [? Hd]).
  unfold pat_millis, ymdhms_tail.
  repeat (rewrite digits_app by done; cbn [mbind option_bind]).
  done.
Qed.

Lemma pat_millis_inv s g :
  pat_millis s = Some g -> exists run post, s = run ++ post /\ millis_run run.
Proof.
  unfold pat_millis, ymdhms_tail.
  destruct (digits 4 s) as [[y s1]|] eqn:E1; [|done]. cbn [mbind option_bind].
  destruct (digits 2 s1) as [[mo s2]|] eqn:E2; [|done]. cbn [mbind option_bind].
  destruct (digits 2 s2) as [[d s3]|] eqn:E3; [|done]. cbn [mbind option_bind].
  destruct (digits 2 s3) as [[h s5]|] eqn:E5; [|done]. cbn [mbind option_bind].
  destruct (digits 2 s5) as [[mi s6]|] eqn:E6; [|done]. cbn [mbind option_bind].
  destruct (digits 2 s6) as [[sec s7]|] eqn:E7; [|done]. cbn [mbind option_bind].
  destruct (digits 3 s7) as [[ms s8]|] eqn:E8; [|done]. cbn [mbind option_bind].
  intros _.
  apply digits_inv in E1 as (-> & ? & ?), E2 as (-> & ? & ?),
    E3 as (-> & ? & ?), E5 as (-> & ? & ?), E6 as (-> & ? & ?),
    E7 as (-> & ? & ?), E8 as (-> & ? & ?).
  exists (y ++ mo ++ d ++ h ++ mi ++ sec ++ ms), s8. split.
  - by rewrite <- !app_assoc.
  - split; [rewrite !length_app; lia|]. by rewrite !all_digits_app.
Qed.

(** What [re.search] returns in terms of runs: the pattern does not match
    where no run starts, and it finds the leftmost run. *)
Lemma search_date_time_none s :
  re_search pat_date_time s = None <->
  forall pre run, occurs_at pre run s -> ~ date_time_run run.
Proof.
  rewrite re_search_none. split.
  - intros H pre run [post ->] Hrun.
    by apply (pat_date_time_of_run run post Hrun), (H pre).
  - intros H pre rest ->.
    destruct (pat_date_time rest) as [g|] eqn:E; [|done].
    apply pat_date_time_inv in E as (run & post & -> & Hrun).
    exfalso. apply (H pre run); [by exists post | done].
Qed.

Lemma search_leftmost {A} (m : str -> option A) (R : str -> Prop) pre rest g :
  (forall s g', m s = Some g' -> exists run post, s = run ++ post /\ R run) ->
  m rest = Some g ->
  (forall pre' run', occurs_at pre' run' (pre ++ rest) -> R run' ->
                     (length pre <= length pre')%nat) ->
  re_search m (pre ++ rest) = Some g.
Proof.
  intros Hinv Hm Hleft. apply re_search_at; [done|].
  intros pre1 c pre2 ->.
  destruct (m (c :: pre2 ++ rest)) as [g'|] eqn:E; [|done].
  apply Hinv in E as (run & post & Heq & Hrun).
  assert (Hocc : occurs_at pre1 run ((pre1 ++ c :: pre2) ++ rest)).
  { exists post. rewrite <- Heq. by rewrite <- app_assoc. }
  specialize (Hleft _ _ Hocc Hrun). rewrite length_app in Hleft.
  simpl in Hleft. lia.
Qed.

(** ** Timestamp inference *)

(** The state after [self.errors.append(msg)]. *)
Lemma invalid_date_run image_file s :
  invalid_date image_file s
  = Ok None (mk_state (files s) (fixes s)
               (errors s ++ [lit "Invalid date in filename: " ++ image_file])
               (stdout s) (fs_calls s)).
Proof. reflexivity. Qed.

(** C1, as the code has it.  When the name of a media file, extension
    stripped, contains a run of the shape YYYYMMDD_HHMMSS and no such run
    starts further left, inference is decided by that run: if its groups
    are a valid date and time, exactly that date-time is returned and the
    state is unchanged; if not, one error is recorded, no timestamp is
    returned, and no later rule is tried. *)
Theorem inference_from_leftmost_date_time_run
    (image_file pre y mo d h mi sec post : str) (s : state) :
  filename_without_ext image_file
  = pre ++ (y ++ mo ++ d ++ lit "_" ++ h ++ mi ++ sec) ++ post ->
  length y = 4%nat -> length mo = 2%nat -> length d = 2%nat ->
  length h = 2%nat -> length mi = 2%nat -> length sec = 2%nat ->
  all_digits (y ++ mo ++ d ++ h ++ mi ++ sec) ->
  (forall pre' run',
      occurs_at pre' run' (filename_without_ext image_file) ->
      date_time_run run' -> (length pre <= length pre')%nat) ->
  infer_time_from_image_file image_file s
  = if valid_datetime (py_int y) (py_int mo) (py_int d)
                      (py_int h) (py_int mi) (py_int sec) 0
    then Ok (Some (mk_datetime (py_int y) (py_int mo) (py_int d)
                               (py_int h) (py_int mi) (py_int sec) 0)) s
    else Ok None
           (mk_state (files s) (fixes s)
              (errors s ++ [lit "Invalid date in filename: " ++ image_file])
              (stdout s) (fs_calls s)).
Proof.
  intros Hbase ? ? ? ? ? ? Hd Hleft.
  unfold infer_time_from_image_file, rule_six at 1.
  rewrite Hbase in Hleft |- *.
  rewrite (search_leftmost pat_date_time date_time_run pre _ [y; mo; d; h; mi; sec]);
    [|apply pat_date_time_inv| |done].
  - unfold datetime_new.
    destruct (valid_datetime _ _ _ _ _ _ _); [reflexivity|].
    apply invalid_date_run.
  - rewrite <- !app_assoc. by apply pat_date_time_run.
Qed.

Lemma inference_from_leftmost_date_time_run_witness :
  let f := lit "Photos from 2019/IMG_20210529_155539(1).jpg" in
  let s := empty_state ∅ in
  filename_without_ext f
  = lit "IMG_" ++ (lit "2021" ++ lit "05" ++ lit "29" ++ lit "_"
                   ++ lit "15" ++ lit "55" ++ lit "39") ++ lit "(1)"
  /\ all_digits (lit "2021" ++ lit "05" ++ lit "29"
                 ++ lit "15" ++ lit "55" ++ lit "39")
  /\ infer_time_from_image_file f s
     = Ok (Some (mk_datetime 2021 5 29 15 55 39 0)) s.
Proof.
  intros f s.
  assert (Hb : filename_without_ext f
    = lit "IMG_" ++ (lit "2021" ++ lit "05" ++ lit "29" ++ lit "_"
                     ++ lit "15" ++ lit "55" ++ lit "39") ++ lit "(1)")
    by (vm_compute; reflexivity).
  assert (Hd : all_digits (lit "2021" ++ lit "05" ++ lit "29"
                           ++ lit "15" ++ lit "55" ++ lit "39"))
    by (vm_compute; reflexivity).
  split; [exact Hb|]. split; [exact Hd|].
  refine (inference_from_leftmost_date_time_run f (lit "IMG_") (lit "2021")
            (lit "05") (lit "29") (lit "15") (lit "55") (lit "39") (lit "(1)")
            s Hb eq_refl eq_refl eq_refl eq_refl eq_refl eq_refl Hd _).
  intros pre' run' [post' Heq] (a & b & -> & Ha & _ & Hda & _).
  destruct (decide (length (lit "IMG_") <= length pre')%nat) as [|Hlt]; [done|].
  exfalso. rewrite Hb in Heq.
  destruct pre' as [|c1 [|c2 [|c3 [|c4 pre']]]]; [..|simpl in Hlt; lia];
    destruct a as [|a1 [|a2 [|a3 [|a4 a]]]]; try discriminate Ha;
    simplify_eq; discriminate Hda.
Defined.

(** C1 as stated fails: this name contains the run [20210529_155539], a
    valid date and time, but a run of the same shape that is not one starts
    before it, so inference records an error and returns no timestamp. *)
Lemma inference_not_from_any_run :
  let f := lit "Photos from 2019/20211340_250000_20210529_155539.jpg" in
  let r := infer_time_from_image_file f (empty_state ∅) in
  occurs_at (lit "20211340_250000_") (lit "20210529_155539")
    (filename_without_ext f)
  /\ date_time_run (lit "20210529_155539")
  /\ valid_datetime 2021 5 29 15 55 39 0 = true
  /\ returned r = Some None
  /\ errors (final r)
     = [lit "Invalid date in filename: Photos from 2019/20211340_250000_20210529_155539.jpg"].
Proof.
  intros f r. split; [by exists []|]. split.
  - exists (lit "20210529"), (lit "155539"). repeat split.
  - vm_compute. repeat split.
Qed.

(** A run over a single media file that needs no repair, has no sidecar
    and has a date inferred: the sidecar is written, unless
    [time.timestamp()] raises for that date. *)
Lemma single_file_run timestamp_int takeout_dir walk img t s :
  json_files walk = [] -> image_files walk = [img] ->
  (forall s0, fix_metadata_file_for_image img s0 = Ok img s0) ->
  (forall s0, infer_time_from_image_file img s0 = Ok (Some t) s0) ->
  files s !! metadata_file_for img = None ->
  match timestamp_int t with
  | Some n =>
      exists s',
        execute timestamp_int takeout_dir walk s = Ok tt s'
        /\ files s' = <[metadata_file_for img
                        := json_dumps 0 (json_content img t n)]> (files s)
  | None =>
      exists s',
        execute timestamp_int takeout_dir walk s = Raise ValueError s'
        /\ files s' = files s
  end.
Proof.
  intros Hj Hi Hfix Hinf Hnone.
  assert (Hrep : forall s0, files s0 = files s ->
            repair timestamp_int (json_files walk) (image_files walk) s0
            = match timestamp_int t with
              | Some n =>
                  write_file (metadata_file_for img)
                    (json_dumps 0 (json_content img t n)) s0
              | None => Raise ValueError s0
              end).
  { intros s0 H0. rewrite Hj, Hi. unfold repair. cbn [comprehension for_each].
    rewrite <- H0 in Hnone.
    unfold bind at 1, ret at 1. unfold bind at 1. unfold bind at 1.
    rewrite Hfix. unfold generate_metadata_for_image_file.
    rewrite (bind_ok _ _ _ _ _ (path_exists_none _ _ Hnone)).
    rewrite (bind_ok _ _ _ _ _ (Hinf s0)).
    unfold bind at 1, time_timestamp.
    by destruct (timestamp_int t). }
  destruct (timestamp_int t) as [n|];
    unfold execute; unfold bind at 1, reset at 1;
    do 4 (unfold bind at 1, print at 1);
    (match goal with |- context [bind _ _ ?st] => set (s0 := st) end);
    specialize (Hrep s0 eq_refl); unfold bind at 1;
    change (files s) with (files s0); clearbody s0; rewrite Hrep.
  - unfold write_file. unfold bind at 1. unfold open_write, fixes_append.
    rewrite report_prints. eexists. split; reflexivity.
  - eexists. split; reflexivity.
Qed.

(** C2, as the code has it.  When the name of a media file, extension
    stripped, contains no run of the shape YYYYMMDD_HHMMSS, contains a run
    of 17 digits with no such run starting further left, and the first 14
    digits of that run are a valid date and time, inference returns that
    date-time with the last 3 digits as milliseconds (a thousand
    microseconds each).  In the run over [Photos from 2019] holding only
    [CameraZOOM-20131224200623261.jpg], a sidecar is written whose
    [photoTakenTime] is 2013-12-24 20:06:23.261, with the seconds that
    [int(time.timestamp())] returns for it, and no file is left without a
    sidecar; were that call to raise, the run would stop with [ValueError]
    and without the sidecar.  On a POSIX platform in a zone with a constant
    offset from UTC of at most a day the call returns: 1387915583 less the
    offset. *)
Theorem inference_from_leftmost_millis_run
    (timestamp_int : datetime -> option Z)
    (image_file pre y mo d h mi sec ms post : str) (s : state) :
  filename_without_ext image_file
  = pre ++ (y ++ mo ++ d ++ h ++ mi ++ sec ++ ms) ++ post ->
  length y = 4%nat -> length mo = 2%nat -> length d = 2%nat ->
  length h = 2%nat -> length mi = 2%nat -> length sec = 2%nat ->
  length ms = 3%nat ->
  all_digits (y ++ mo ++ d ++ h ++ mi ++ sec ++ ms) ->
  (forall pre' run',
      occurs_at pre' run' (filename_without_ext image_file) ->
      ~ date_time_run run') ->
  (forall pre' run',
      occurs_at pre' run' (filename_without_ext image_file) ->
      millis_run run' -> (length pre <= length pre')%nat) ->
  valid_datetime (py_int y) (py_int mo) (py_int d)
                 (py_int h) (py_int mi) (py_int sec) (py_int ms * 1000) = true ->
  infer_time_from_image_file image_file s
  = Ok (Some (mk_datetime (py_int y) (py_int mo) (py_int d)
                          (py_int h) (py_int mi) (py_int sec)
                          (py_int ms * 1000))) s
  /\ let f := lit "t/Photos from 2019/CameraZOOM-20131224200623261.jpg" in
     let walk := [(lit "t", [lit "Photos from 2019"], []);
                  (lit "t/Photos from 2019", [],
                   [lit "CameraZOOM-20131224200623261.jpg"])] in
     let t := mk_datetime 2013 12 24 20 6 23 261000 in
     let r := execute timestamp_int (lit "t") walk
                (empty_state {[ f := lit "image" ]}) in
     match timestamp_int t with
     | Some n =>
         returned r = Some tt
         /\ files (final r) !! (f ++ lit ".supplemental-metadata.json")
            = Some (json_dumps 0 (json_content f t n))
         /\ json_get (lit "photoTakenTime") (json_content f t n)
            = Some (JObj [(lit "timestamp", JStr (str_of_Z n));
                          (lit "formatted",
                           JStr (lit "2013-12-24 20:06:23.261000"))])
         /\ unresolved (image_files walk) (files (final r)) = []
     | None =>
         exists s', r = Raise ValueError s'
                    /\ files s' !! (f ++ lit ".supplemental-metadata.json") = None
     end
     /\ forall offset,
          - (24 * 3600) <= offset <= 24 * 3600 ->
          posix_timestamp (fun _ => offset) t = Some (1387915583 - offset).
Proof.
  intros Hbase ? ? ? ? ? ? ? Hd Hno Hleft Hvalid. split; [|split].
  - unfold infer_time_from_image_file, rule_six at 1.
    apply search_date_time_none in Hno. rewrite Hno.
    unfold rule_millis.
    rewrite Hbase in Hleft |- *.
    rewrite (search_leftmost pat_millis millis_run pre _
               [y; mo; d; h; mi; sec; ms]);
      [|apply pat_millis_inv| |done].
    + unfold datetime_new. by rewrite Hvalid.
    + rewrite <- !app_assoc. by apply pat_millis_run.
  - destruct (timestamp_int (mk_datetime 2013 12 24 20 6 23 261000))
      as [n|] eqn:E.
    + pose proof (single_file_run timestamp_int (lit "t")
        [(lit "t", [lit "Photos from 2019"], []);
         (lit "t/Photos from 2019", [],
          [lit "CameraZOOM-20131224200623261.jpg"])]
        (lit "t/Photos from 2019/CameraZOOM-20131224200623261.jpg")
        (mk_datetime 2013 12 24 20 6 23 261000)
        (empty_state {[ lit "t/Photos from 2019/CameraZOOM-20131224200623261.jpg"
                        := lit "image" ]})
        eq_refl eq_refl (fun _ => eq_refl) (fun _ => eq_refl) eq_refl) as Hrun.
      rewrite E in Hrun. destruct Hrun as (s' & -> & Hs').
      cbn [returned final]. rewrite Hs'. split; [done|].
      split; [apply lookup_insert_eq|]. split; [reflexivity|].
      unfold unresolved.
      change (image_files _)
        with [lit "t/Photos from 2019/CameraZOOM-20131224200623261.jpg"].
      cbn [List.filter]. by rewrite lookup_insert_eq.
    + pose proof (single_file_run timestamp_int (lit "t")
        [(lit "t", [lit "Photos from 2019"], []);
         (lit "t/Photos from 2019", [],
          [lit "CameraZOOM-20131224200623261.jpg"])]
        (lit "t/Photos from 2019/CameraZOOM-20131224200623261.jpg")
        (mk_datetime 2013 12 24 20 6 23 261000)
        (empty_state {[ lit "t/Photos from 2019/CameraZOOM-20131224200623261.jpg"
                        := lit "image" ]})
        eq_refl eq_refl (fun _ => eq_refl) (fun _ => eq_refl) eq_refl) as Hrun.
      rewrite E in Hrun. destruct Hrun as (s' & -> & Hs').
      exists s'. split; [done|]. by rewrite Hs'.
  - intros offset Hoff. rewrite posix_timestamp_fixed_offset.
    change (civil_seconds (mk_datetime 2013 12 24 20 6 23 261000))
      with 1387915583.
    unfold in_years.
    change (days_from_civil 1 1 1 * 86400) with (-62135596800).
    change (days_from_civil 10000 1 1 * 86400) with 253402300800.
    repeat match goal with
           | |- context [?a <=? ?b] =>
               assert ((a <=? b) = true) as -> by lia
           | |- context [?a <? ?b] =>
               assert ((a <? b) = true) as -> by lia
           end.
    cbn [andb]. unfold int_of_seconds.
    assert ((1387915583 - offset <? 0) = false) as -> by lia. reflexivity.
Qed.

Lemma inference_from_leftmost_millis_run_witness :
  let f := lit "Photos from 2019/20131224200623261.jpg" in
  let s := empty_state ∅ in
  filename_without_ext f
  = [] ++ (lit "2013" ++ lit "12" ++ lit "24" ++ lit "20" ++ lit "06"
           ++ lit "23" ++ lit "261") ++ []
  /\ re_search pat_date_time (filename_without_ext f) = None
  /\ valid_datetime 2013 12 24 20 6 23 261000 = true
  /\ infer_time_from_image_file f s
     = Ok (Some (mk_datetime 2013 12 24 20 6 23 261000)) s.
Proof.
  intros f s.
  assert (Hb : filename_without_ext f
    = [] ++ (lit "2013" ++ lit "12" ++ lit "24" ++ lit "20" ++ lit "06"
             ++ lit "23" ++ lit "261") ++ []) by (vm_compute; reflexivity).
  assert (Hn : re_search pat_date_time (filename_without_ext f) = None)
    by (vm_compute; reflexivity).
  assert (Hv : valid_datetime 2013 12 24 20 6 23 261000 = true)
    by (vm_compute; reflexivity).
  split; [exact Hb|]. split; [exact Hn|]. split; [exact Hv|].
  refine (proj1 (inference_from_leftmost_millis_run utc_timestamp f []
            (lit "2013") (lit "12") (lit "24") (lit "20") (lit "06")
            (lit "23") (lit "261") [] s Hb eq_refl eq_refl eq_refl eq_refl
            eq_refl eq_refl eq_refl eq_refl _ _ Hv)).
  - by apply search_date_time_none.
  - intros pre' run' _ _. simpl. lia.
Defined.

(** C2 as stated fails: this name contains a run of 17 digits and no
    earlier rule matches it, but the digits are not a date (month 13), so
    inference records an error and returns no timestamp. *)
Lemma inference_not_from_every_millis_run :
  let f := lit "Photos from 2019/CameraZOOM-20131324200623261.jpg" in
  let r := infer_time_from_image_file f (empty_state ∅) in
  occurs_at (lit "CameraZOOM-") (lit "20131324200623261")
    (filename_without_ext f)
  /\ millis_run (lit "20131324200623261")
  /\ re_search pat_date_time (filename_without_ext f) = None
  /\ returned r = Some None
  /\ errors (final r)
     = [lit "Invalid date in filename: Photos from 2019/CameraZOOM-20131324200623261.jpg"].
Proof.
  intros f r. split; [by exists []|]. split; [by split|].
  vm_compute. repeat split.
Qed.

(** ** Facts about [replace], [join] and the pattern of numbered names *)

Lemma startswith_true s p : startswith s p = true <-> exists k, s = p ++ k.
Proof. unfold startswith. rewrite bool_decide_eq_true. reflexivity. Qed.

Lemma replace_go_length old k s :
  (length (replace_go old [] k s) <= length s)%nat.
Proof.
  revert k. induction s as [|c s IH]; intros k; simpl; [lia|].
  destruct k as [|k]; [|specialize (IH k); lia].
  destruct (startswith (c :: s) old); simpl.
  - specialize (IH (length old - 1)%nat). lia.
  - specialize (IH 0%nat). lia.
Qed.

(** Removing the occurrences of a text that occurs makes a string shorter. *)
Lemma replace_removes old s :
  old <> [] -> str_in old s = true -> replace old [] s <> s.
Proof.
  intros Hold Hin Heq.
  assert (Hlt : (length (replace old [] s) < length s)%nat); [|rewrite Heq in Hlt; lia].
  clear Heq. unfold replace. destruct old as [|o old]; [done|]. clear Hold.
  induction s as [|c s IH].
  - cbn [str_in] in Hin. apply orb_prop in Hin as [Hin|Hin]; [|done].
    apply startswith_true in Hin as [k Hk]. discriminate Hk.
  - cbn [str_in] in Hin. cbn [replace_go].
    destruct (startswith (c :: s) (o :: old)); simpl.
    + pose proof (replace_go_length (o :: old) (length old - 0) s). lia.
    + cbn [orb] in Hin. apply IH in Hin. simpl in *. lia.
Qed.

(** The characters of [s.replace(old, "")] are characters of [s]. *)
Lemma elem_of_replace_go x old k s :
  x ∈ replace_go old [] k s -> x ∈ s.
Proof.
  revert k. induction s as [|c s IH]; intros k; simpl; [done|].
  destruct k as [|k]; [|intros H%IH; by right].
  destruct (startswith (c :: s) old); simpl.
  - intros H%IH. by right.
  - intros [->|H%IH]%elem_of_cons; [left | by right].
Qed.

Lemma elem_of_replace x old s : x ∈ replace old [] s -> x ∈ s.
Proof.
  unfold replace. destruct old.
  - simpl. induction s as [|c s IH]; simpl; [done|].
    intros [->|H]%elem_of_cons; [left | right; by apply IH].
  - apply elem_of_replace_go.
Qed.

(** A character that is not in [old] survives [s.replace(old, new)]. *)
Lemma replace_go_keeps x old new k s :
  old <> [] -> x ∉ old -> x ∈ s -> (forall y, y ∈ take k s -> y <> x) ->
  x ∈ replace_go old new k s.
Proof.
  intros Hne Hold. revert k. induction s as [|c s IH]; intros k Hin Hk; [done|].
  simpl. destruct k as [|k].
  - destruct (startswith (c :: s) old) eqn:Es.
    + apply elem_of_app. right.
      apply startswith_true in Es as [rest Hs].
      destruct old as [|o old]; [done|]. simpl in Hs.
      injection Hs as -> ->. apply IH.
      * apply elem_of_cons in Hin as [->|Hin]; [exfalso; apply Hold; left|done].
      * intros y Hy ->. simpl in Hy. rewrite Nat.sub_0_r, take_app_length in Hy.
        apply Hold. by right.
    + apply elem_of_cons in Hin as [->|Hin]; [left|right].
      apply IH; [done|]. intros y Hy. simpl in Hy. by apply not_elem_of_nil in Hy.
  - apply IH.
    + apply elem_of_cons in Hin as [->|Hin]; [|done].
      exfalso. apply (Hk c); [simpl; left | done].
    + intros y Hy. apply Hk. simpl. by right.
Qed.

Lemma replace_keeps x old new s :
  old <> [] -> x ∉ old -> x ∈ s -> x ∈ replace old new s.
Proof.
  intros Hne Hold Hin. unfold replace. destruct old as [|o old]; [done|].
  apply replace_go_keeps; [done..|].
  intros y Hy. simpl in Hy. destruct s; by apply not_elem_of_nil in Hy.
Qed.

(** [os.path.join(a, b)] ends with [b]. *)
Lemma join_suffix a b : b `suffix_of` join a b.
Proof.
  unfold join. destruct (startswith b [slash]); [done|].
  destruct (_ || _); [by apply suffix_app_r|].
  change (a ++ slash :: b) with (a ++ [slash] ++ b).
  rewrite app_assoc. by apply suffix_app_r.
Qed.

Lemma span_digits_spec s d r :
  span_digits s = (d, r) -> s = d ++ r /\ all_digits d.
Proof.
  revert d r. induction s as [|c s IH]; intros d r; simpl.
  - by intros [= <- <-].
  - destruct (is_digit c) eqn:Ec; [|by intros [= <- <-]].
    destruct (span_digits s) as [d' r'] eqn:E. intros [= <- <-].
    destruct (IH _ _ eq_refl) as [-> Hd]. split; [done|].
    unfold all_digits. simpl. by rewrite Ec.
Qed.

(** What the pattern of numbered names captures: a number in parentheses. *)
Lemma pat_paren_num_inv s num :
  re_search pat_paren_num s = Some num ->
  exists n, num = lit "(" ++ n ++ lit ")" /\ all_digits n.
Proof.
  intros (pre & rest & -> & H)%re_search_some. revert H.
  unfold pat_paren_num.
  destruct (literal (lit "(") rest) as [s1|]; [|done]. cbn [mbind option_bind].
  destruct (span_digits s1) as [n s2] eqn:E.
  apply span_digits_spec in E as [-> Hd].
  case_bool_decide; [done|].
  destruct (literal (lit ")") s2) as [s3|]; [|done]. cbn [mbind option_bind].
  destruct (at_end s3); [|done]. intros [= <-]. by exists n.
Qed.

Lemma all_digits_not_elem x n : is_digit x = false -> all_digits n -> x ∉ n.
Proof.
  intros Hx Hn Hin. unfold all_digits in Hn.
  rewrite forallb_forall in Hn. apply list_elem_of_In in Hin.
  apply Hn in Hin. congruence.
Qed.

Lemma paren_num_not_elem x n :
  is_digit x = false -> x <> "("%char -> x <> ")"%char -> all_digits n ->
  x ∉ lit "(" ++ n ++ lit ")".
Proof.
  intros Hx H1 H2 Hn.
  rewrite !not_elem_of_app. repeat split.
  - intros [->|H]%elem_of_cons; [done | by apply not_elem_of_nil in H].
  - by apply all_digits_not_elem.
  - intros [->|H]%elem_of_cons; [done | by apply not_elem_of_nil in H].
Qed.

Lemma suffix_unique (a b s : str) :
  a `suffix_of` s -> b `suffix_of` s -> length a = length b -> a = b.
Proof. intros [k ->] [k' H] Hl. by apply suffix_same_length in H. Qed.

(** The name looked for by the repair of numbered names ends with
    [).json], so it is no canonical sidecar name. *)
Lemma wrong_name_not_canonical dir_path x n :
  endswith (join dir_path (x ++ lit ".supplemental-metadata"
                           ++ (lit "(" ++ n ++ lit ")") ++ lit ".json"))
           METADATA_JSON = false.
Proof.
  apply not_true_is_false. intros H. apply bool_decide_eq_true in H.
  assert (H1 : lit "a.json" `suffix_of`
                 join dir_path (x ++ lit ".supplemental-metadata"
                                ++ (lit "(" ++ n ++ lit ")") ++ lit ".json")).
  { etrans; [|exact H]. by exists (lit "supplemental-metadat"). }
  assert (H2 : lit ").json" `suffix_of`
                 join dir_path (x ++ lit ".supplemental-metadata"
                                ++ (lit "(" ++ n ++ lit ")") ++ lit ".json")).
  { etrans; [|apply join_suffix].
    exists (x ++ lit ".supplemental-metadata" ++ lit "(" ++ n).
    by rewrite <- !app_assoc. }
  pose proof (suffix_unique _ _ _ H1 H2 eq_refl) as Heq. discriminate Heq.
Qed.

Lemma fixed_name_canonical dir_path x :
  endswith (join dir_path (x ++ lit "." ++ METADATA_JSON)) METADATA_JSON = true.
Proof.
  apply bool_decide_eq_true. etrans; [|apply join_suffix].
  exists (x ++ lit "."). by rewrite <- app_assoc.
Qed.

Lemma copy_file_ok origin destination s c :
  files s !! origin = Some c -> origin <> destination ->
  copy_file origin destination s
  = Ok tt (mk_state (<[destination := c]> (files s))
             (fixes s ++ [filename origin ++ lit " copied to "
                          ++ filename destination])
             (errors s) (stdout s)
             (fs_calls s ++ [Copy origin destination])).
Proof.
  intros H Hne. unfold copy_file, bind, shutil_copy2. rewrite H.
  by rewrite bool_decide_eq_false_2.
Qed.

(** A media file (supported extension) has a dot in its name. *)
Lemma is_image_dot f : is_image f = true -> dot ∈ basename f.
Proof.
  unfold is_image, splitext, basename. rewrite bool_decide_eq_true.
  destruct (split_last slash f) as [[a b]|];
    (match goal with |- context [split_last dot ?b] =>
       destruct (split_last dot b) as [[r e]|] eqn:E end;
     [apply split_last_Some in E as [-> _];
      intros _; apply elem_of_app; right; left
     |intros H; simpl in H; exfalso; revert H; vm_compute;
      by repeat (intros [H|H]%elem_of_cons; [discriminate H|revert H]);
         intros H%elem_of_nil]).
Qed.

(** ** The edited variant *)

(** The repair of numbered names, on a name with a dot, returns; it keeps
    every file with a canonical sidecar name, and only adds calls. *)
Lemma numbered_duplicate_keeps_canonical img s :
  dot ∈ basename img ->
  exists s',
    repair_numbered_duplicate img s = Ok img s'
    /\ (forall p c, files s !! p = Some c -> endswith p METADATA_JSON = true ->
                    files s' !! p = Some c)
    /\ exists rest, fs_calls s' = fs_calls s ++ rest.
Proof.
  intros Hdot. unfold repair_numbered_duplicate.
  destruct (re_search pat_paren_num _) as [num|] eqn:En.
  2:{ exists s. repeat split; [done|]. exists []. by rewrite app_nil_r. }
  destruct (pat_paren_num_inv _ _ En) as (n & -> & Hn).
  destruct (split_last dot (replace _ [] (filename img))) as [[stem ext]|] eqn:Es.
  2:{ exfalso. apply split_last_None in Es. apply Es.
      apply replace_keeps; [done| |done].
      by apply paren_num_not_elem. }
  set (wrong := join _ (_ ++ lit ".supplemental-metadata" ++ _ ++ lit ".json")).
  set (fixed := join _ (filename img ++ _)).
  assert (Hsome : forall x : str, bool_decide (is_Some (Some x)) = true)
    by (intros; apply bool_decide_eq_true_2; eauto).
  assert (Hnone : bool_decide (is_Some (@None str)) = false)
    by (apply bool_decide_eq_false_2; by intros [? ?]).
  unfold bind, path_exists, errors_append, ret.
  destruct (files s !! wrong) as [cw|] eqn:Ew; rewrite ?Hsome, ?Hnone.
  2:{ eexists. split; [reflexivity|]. split; [done|]. exists []. by rewrite app_nil_r. }
  destruct (files s !! fixed) as [cf|] eqn:Ef; rewrite ?Hsome, ?Hnone.
  { eexists. split; [reflexivity|]. split; [done|]. exists []. by rewrite app_nil_r. }
  rewrite (move_file_ok _ _ _ _ Ew).
  eexists. split; [reflexivity|].
  split; [|by eexists]. cbn [files].
  intros p c Hp Hc.
  rewrite lookup_insert_ne by congruence.
  rewrite lookup_delete_ne; [done|]. intros <-.
  unfold wrong in Hc. by rewrite wrong_name_not_canonical in Hc.
Qed.

Lemma not_elem_of_lit_check (x : ascii) (l : str) :
  forallb (fun c => negb (bool_decide (c = x))) l = true -> x ∉ l.
Proof.
  intros H Hin. rewrite forallb_forall in H. apply list_elem_of_In in Hin.
  apply H in Hin. by rewrite bool_decide_eq_true_2 in Hin.
Qed.

(** [replace] works on the two sides of a character that is not in [old]
    one after the other. *)
Lemma replace_go_boundary old new c a b k :
  c ∉ old -> (k <= length a)%nat ->
  replace_go old new k (a ++ c :: b)
  = replace_go old new k a ++ replace_go old new 0 (c :: b).
Proof.
  intros Hc. revert k. induction a as [|x a IH]; intros k Hk.
  - by replace k with 0%nat by (simpl in Hk; lia).
  - cbn [app replace_go]. destruct k as [|k]; [|apply IH; simpl in Hk; lia].
    assert (Hs : startswith (x :: a ++ c :: b) old = startswith (x :: a) old).
    { unfold startswith. apply bool_decide_ext. split.
      - intros [r Hr].
        destruct (decide (length old <= length (x :: a))%nat) as [Hle|Hgt].
        + exists (drop (length old) (x :: a)).
          assert (Ht : take (length old) ((x :: a) ++ c :: b) = old)
            by (change ((x :: a) ++ c :: b) with (x :: a ++ c :: b);
                rewrite Hr; by rewrite take_app_length).
          rewrite take_app_le in Ht by done.
          rewrite <- Ht at 1. by rewrite take_drop.
        + exfalso. apply Hc.
          assert (Hl : ((x :: a) ++ c :: b) !! length (x :: a) = Some c)
            by (by rewrite list_lookup_middle).
          change ((x :: a) ++ c :: b) with (x :: a ++ c :: b) in Hl.
          rewrite Hr, lookup_app_l in Hl by lia.
          by apply list_elem_of_lookup_2 in Hl.
      - intros [r Hr]. exists (r ++ c :: b).
        change (x :: a ++ c :: b) with ((x :: a) ++ c :: b).
        by rewrite Hr, <- app_assoc. }
    rewrite Hs. destruct (startswith (x :: a) old) eqn:E.
    + rewrite <- app_assoc. f_equal. apply IH.
      apply startswith_true in E as [r Hr].
      apply (f_equal length) in Hr. rewrite length_app in Hr. simpl in Hr. lia.
    + simpl. f_equal. apply IH. lia.
Qed.

Lemma replace_go_absent old new s :
  str_in old s = false -> replace_go old new 0 s = s.
Proof.
  induction s as [|c s IH]; [done|]. cbn [str_in replace_go].
  intros [-> H]%orb_false_elim. by rewrite IH.
Qed.

(** The marker is removed from the whole path; when no directory of the
    path contains it, that is the file of the same directory whose name is
    the name without the marker. *)
Lemma replace_in_name dir name :
  str_in (lit "-editada") dir = false ->
  replace (lit "-editada") [] (dir ++ lit "/" ++ name)
  = dir ++ lit "/" ++ replace (lit "-editada") [] name.
Proof.
  intros Hdir. unfold replace. change (lit "-editada") with ("-"%char :: lit "editada").
  change (dir ++ lit "/" ++ name) with (dir ++ slash :: name).
  rewrite replace_go_boundary; [|by apply not_elem_of_lit_check|lia].
  rewrite replace_go_absent by done. reflexivity.
Qed.

(** C4, as the code has it.  Lines 137 to 139 remove the marker [-editada]
    from the whole path, directories included.  For a media file whose path
    contains the marker, when the path with every marker removed has a
    sidecar at its canonical name, the repair returns, its first
    file-system call is a copy of that sidecar to the canonical sidecar
    name of the edited file, and afterwards both sidecars exist with the
    content the original had.  When no directory of the path contains the
    marker, the path with the marker removed is the file of the same
    directory whose name is the name without the marker. *)
Theorem edited_variant_copies_sidecar (image_file : str) (s : state) (c : str) :
  str_in (lit "-editada") image_file = true ->
  is_image image_file = true ->
  files s !! metadata_file_for (replace (lit "-editada") [] image_file) = Some c ->
  (exists s' rest,
     fix_metadata_file_for_image image_file s = Ok image_file s'
     /\ fs_calls s'
        = fs_calls s
          ++ Copy (metadata_file_for (replace (lit "-editada") [] image_file))
                  (metadata_file_for image_file) :: rest
     /\ files s' !! metadata_file_for image_file = Some c
     /\ files s' !! metadata_file_for (replace (lit "-editada") [] image_file)
        = Some c)
  /\ forall dir name,
       image_file = dir ++ lit "/" ++ name ->
       str_in (lit "-editada") dir = false ->
       replace (lit "-editada") [] image_file
       = dir ++ lit "/" ++ replace (lit "-editada") [] name.
Proof.
  intros Hin Himg Horig.
  split; [|intros dir name ->; apply replace_in_name].
  assert (Hne : metadata_file_for (replace (lit "-editada") [] image_file)
                <> metadata_file_for image_file).
  { unfold metadata_file_for. intros H%app_inv_tail.
    by apply replace_removes in H. }
  pose proof (copy_file_ok _ _ _ _ Horig Hne) as Hcopy.
  assert (Hfirst : repair_edited_variant image_file s
                   = copy_file (metadata_file_for (replace (lit "-editada") [] image_file))
                       (metadata_file_for image_file) s).
  { unfold repair_edited_variant. rewrite Hin.
    fold (metadata_file_for image_file).
    fold (metadata_file_for (replace (lit "-editada") [] image_file)).
    by rewrite (bind_ok _ _ _ _ _ (path_exists_some _ _ _ Horig)). }
  rewrite Hcopy in Hfirst.
  unfold fix_metadata_file_for_image. rewrite (bind_ok _ _ _ _ _ Hfirst).
  match goal with |- context [repair_numbered_duplicate _ ?s1] =>
    destruct (numbered_duplicate_keeps_canonical image_file s1
                (is_image_dot _ Himg)) as (s' & Hrun & Hkeep & rest & Hcalls) end.
  exists s', rest. split; [exact Hrun|]. cbn [files fs_calls] in *.
  split; [by rewrite Hcalls, <- app_assoc|]. split.
  - apply Hkeep; [apply lookup_insert_eq | apply endswith_true].
    exists (image_file ++ lit "."). unfold metadata_file_for.
    by rewrite <- app_assoc.
  - apply Hkeep; [by rewrite lookup_insert_ne | apply endswith_true].
    exists (replace (lit "-editada") [] image_file ++ lit ".").
    unfold metadata_file_for. by rewrite <- app_assoc.
Qed.

Lemma edited_variant_copies_sidecar_witness :
  let img := lit "Photos from 2019/IMG_02-editada.jpg" in
  let orig := lit "Photos from 2019/IMG_02.jpg.supplemental-metadata.json" in
  let s := empty_state {[ img := lit "image"; orig := lit "sidecar" ]} in
  str_in (lit "-editada") img = true
  /\ is_image img = true
  /\ files s !! metadata_file_for (replace (lit "-editada") [] img)
     = Some (lit "sidecar")
  /\ exists s',
       fix_metadata_file_for_image img s = Ok img s'
       /\ files s' !! lit "Photos from 2019/IMG_02-editada.jpg.supplemental-metadata.json"
          = Some (lit "sidecar")
       /\ files s' !! orig = Some (lit "sidecar").
Proof.
  intros img orig s.
  assert (H1 : str_in (lit "-editada") img = true) by (vm_compute; reflexivity).
  assert (H2 : is_image img = true) by (vm_compute; reflexivity).
  assert (H3 : files s !! metadata_file_for (replace (lit "-editada") [] img)
               = Some (lit "sidecar")) by (vm_compute; reflexivity).
  split; [exact H1|]. split; [exact H2|]. split; [exact H3|].
  destruct (edited_variant_copies_sidecar img s (lit "sidecar") H1 H2 H3)
    as [(s' & rest & Hrun & _ & He & Ho) _].
  exists s'. split; [exact Hrun|]. split; [exact He | exact Ho].
Defined.

(** C4 as stated fails: here the edited file [IMG_02-editada.jpg] lies
    under a directory named [fotos-editadas]; its counterpart [IMG_02.jpg]
    in the same directory has its canonical sidecar, but the repair looks
    under [fotoss/], finds nothing there and copies nothing. *)
Lemma edited_variant_not_by_file_name :
  let img := lit "fotos-editadas/Photos from 2019/IMG_02-editada.jpg" in
  let orig := lit "fotos-editadas/Photos from 2019/IMG_02.jpg" in
  let s := empty_state {[ img := lit "image"; orig := lit "image";
                          metadata_file_for orig := lit "sidecar" ]} in
  let r := fix_metadata_file_for_image img s in
  str_in (lit "-editada") (basename img) = true
  /\ is_image img = true /\ in_year_dir img = true
  /\ counterpart img = orig
  /\ files s !! metadata_file_for (counterpart img) = Some (lit "sidecar")
  /\ replace (lit "-editada") [] img
     = lit "fotoss/Photos from 2019/IMG_02.jpg"
  /\ returned r = Some img
  /\ files (final r) !! metadata_file_for img = None
  /\ fs_calls (final r) = [].
Proof. vm_compute. repeat split. Qed.

(** ** Directories of the paths a run touches *)

Lemma split_last_app c p x :
  c ∉ x ->
  split_last c (p ++ x)
  = match split_last c p with Some (a, b) => Some (a, b ++ x) | None => None end.
Proof.
  intros Hx. destruct (split_last c p) as [[a b]|] eqn:E.
  - apply split_last_Some in E as [-> Hb].
    rewrite <- app_assoc. simpl. apply split_last_intro.
    by apply not_elem_of_app.
  - apply split_last_None in E. apply split_last_None.
    by apply not_elem_of_app.
Qed.

(** Appending a text without a slash changes the name, not the directory. *)
Lemma dirname_app p x : slash ∉ x -> dirname (p ++ x) = dirname p.
Proof.
  intros Hx. unfold dirname. rewrite split_last_app by done.
  by destruct (split_last slash p) as [[a b]|].
Qed.

Lemma basename_no_slash p : slash ∉ basename p.
Proof.
  unfold basename. destruct (split_last slash p) as [[a b]|] eqn:E.
  - by apply split_last_Some in E as [_ ?].
  - by apply split_last_None.
Qed.

Lemma in_year_dir_app p x : slash ∉ x -> in_year_dir (p ++ x) = in_year_dir p.
Proof. intros Hx. unfold in_year_dir. by rewrite dirname_app. Qed.

Lemma rstrip_snoc_ne c s x : x <> c -> rstrip c (s ++ [x]) = s ++ [x].
Proof.
  intros Hx. induction s as [|y s IH]; simpl.
  - by rewrite decide_False.
  - rewrite IH. by destruct s.
Qed.

Lemma rstrip_snoc c s x : x <> c -> rstrip c ((s ++ [x]) ++ [c]) = s ++ [x].
Proof.
  intros Hx. induction s as [|y s IH]; simpl.
  - rewrite decide_True by done. by rewrite decide_False.
  - simpl in IH. rewrite IH. by destruct s.
Qed.

(** Joining a name to a directory that does not end with a slash gives a
    path in that directory. *)
Lemma dirname_join d x n :
  x <> slash -> slash ∉ n -> dirname (join (d ++ [x]) n) = d ++ [x].
Proof.
  intros Hx Hn. unfold join.
  assert (startswith n [slash] = false) as ->.
  { apply not_true_is_false. intros [k ->]%startswith_true. apply Hn. left. }
  assert (bool_decide (d ++ [x] = []) = false) as ->.
  { apply bool_decide_eq_false_2. by destruct d. }
  assert (endswith (d ++ [x]) [slash] = false) as ->.
  { apply not_true_is_false. intros [k H]%endswith_true.
    apply app_inj_2 in H as [_ [= ->]]; done. }
  cbn [orb]. unfold dirname. rewrite split_last_intro by done.
  assert (forallb (fun c => bool_decide (c = slash)) ((d ++ [x]) ++ [slash]) = false) as ->.
  { rewrite !forallb_app. simpl. rewrite (bool_decide_eq_false_2 (x = slash)) by done.
    by rewrite andb_false_r. }
  by apply rstrip_snoc.
Qed.

Lemma pat_year_dir_inv rest g :
  pat_year_dir rest = Some g ->
  exists y tail, rest = lit "Photos from " ++ y ++ tail
                 /\ y <> [] /\ all_digits y /\ at_end tail = true.
Proof.
  unfold pat_year_dir.
  destruct (literal (lit "Photos from ") rest) as [s1|] eqn:E1; [|done].
  cbn [mbind option_bind]. apply literal_spec in E1 as ->.
  destruct (span_digits s1) as [y tail] eqn:E.
  apply span_digits_spec in E as [-> Hy].
  case_bool_decide; [done|]. destruct (at_end tail) eqn:Et; [|done].
  intros _. by exists y, tail.
Qed.

(** A year directory has a name that does not end with a slash. *)
Lemma year_dir_last d :
  is_Some (re_search pat_year_dir d) -> exists d' x, d = d' ++ [x] /\ x <> slash.
Proof.
  intros [g (pre & rest & -> & H)%re_search_some].
  apply pat_year_dir_inv in H as (y & tail & -> & Hy & Hd & Ht).
  apply at_end_cases in Ht as [-> | ->].
  - destruct (exists_last Hy) as (y' & x & ->).
    exists (pre ++ lit "Photos from " ++ y'), x. split.
    + by rewrite app_nil_r, <- !app_assoc.
    + intros ->. apply all_digits_app in Hd as [_ Hd]. discriminate Hd.
  - exists (pre ++ lit "Photos from " ++ y), newline. split.
    + by rewrite <- !app_assoc.
    + done.
Qed.

Lemma in_year_dir_join img n :
  in_year_dir img = true -> slash ∉ n ->
  in_year_dir (join (dirname img) n) = true.
Proof.
  unfold in_year_dir. rewrite !bool_decide_eq_true. intros Hy Hn.
  destruct (year_dir_last _ Hy) as (d' & x & Hd & Hx).
  rewrite Hd at 1. rewrite dirname_join by done. by rewrite <- Hd.
Qed.


Lemma rstrip_app_c c s : rstrip c (s ++ [c]) = rstrip c s.
Proof.
  induction s as [|y s IH]; simpl.
  - by rewrite decide_True.
  - by rewrite IH.
Qed.

Lemma rstrip_replicate c s k : rstrip c (s ++ replicate k c) = rstrip c s.
Proof.
  induction k as [|k IH]; simpl.
  - by rewrite app_nil_r.
  - change (c :: replicate k c) with (replicate (S k) c).
    rewrite replicate_S_end, app_assoc, rstrip_app_c. apply IH.
Qed.

Lemma rstrip_decompose c s : exists k, s = rstrip c s ++ replicate k c.
Proof.
  induction s as [|y s [k IH]]; simpl.
  - by exists 0%nat.
  - destruct (rstrip c s) as [|z r] eqn:E.
    + destruct (decide (y = c)) as [->|].
      * exists (S k). simpl in *. by rewrite <- IH.
      * exists k. simpl in *. by rewrite <- IH.
    + exists k. simpl in *. by rewrite <- IH.
Qed.

(** A path in a year directory: the directory, slashes, and the name. *)
Lemma year_file_decompose img :
  in_year_dir img = true ->
  exists k b, img = dirname img ++ replicate (S k) slash ++ b /\ slash ∉ b.
Proof.
  unfold in_year_dir. rewrite bool_decide_eq_true. intros Hy.
  destruct (year_dir_last _ Hy) as (d' & x & Hd & Hx).
  revert Hd. unfold dirname.
  destruct (split_last slash img) as [[a b]|] eqn:E; [|by destruct d'].
  apply split_last_Some in E as [-> Hb].
  destruct (forallb _ (a ++ [slash])) eqn:Ea.
  { intros Hd. exfalso. rewrite forallb_forall in Ea.
    assert (Hin : In x (a ++ [slash]))
      by (rewrite Hd; apply in_or_app; right; by left).
    apply Ea, bool_decide_eq_true in Hin. done. }
  intros Hd. destruct (rstrip_decompose slash (a ++ [slash])) as [k Hk].
  rewrite Hd in Hk. destruct k as [|k].
  { simpl in Hk. rewrite app_nil_r in Hk.
    apply app_inj_2 in Hk as [_ [= <-]]; done. }
  exists k, b. split; [|done].
  rewrite Hd. change (a ++ slash :: b) with (a ++ [slash] ++ b).
  by rewrite (app_assoc a), Hk, <- app_assoc.
Qed.

Lemma dirname_compose d x k b :
  x <> slash -> slash ∉ b ->
  dirname ((d ++ [x]) ++ replicate (S k) slash ++ b) = d ++ [x].
Proof.
  intros Hx Hb. rewrite replicate_S_end, <- (app_assoc _ [slash]), app_assoc.
  unfold dirname. change ([slash] ++ b) with (slash :: b).
  rewrite split_last_intro by done.
  assert (forallb (fun c => bool_decide (c = slash))
            (((d ++ [x]) ++ replicate k slash) ++ [slash]) = false) as ->.
  { rewrite !forallb_app. simpl.
    rewrite (bool_decide_eq_false_2 (x = slash)) by done.
    by rewrite andb_false_r. }
  rewrite rstrip_app_c, rstrip_replicate. by apply rstrip_snoc_ne.
Qed.

Lemma re_search_is_Some {A} (m : str -> option A) pre rest g :
  m rest = Some g -> is_Some (re_search m (pre ++ rest)).
Proof.
  intros Hm. induction pre as [|c pre IH]; simpl.
  - destruct rest; simpl; rewrite Hm; eauto.
  - destruct (m (c :: pre ++ rest)); eauto.
Qed.


(** [replace] copies a text in which the first character of [old] does not
    occur. *)
Lemma replace_go_copy o old new u rest :
  o ∉ u ->
  replace_go (o :: old) new 0 (u ++ rest) = u ++ replace_go (o :: old) new 0 rest.
Proof.
  intros Hu. induction u as [|x u IH]; [done|].
  apply not_elem_of_cons in Hu as [Hx Hu].
  cbn [app replace_go].
  assert (startswith (x :: u ++ rest) (o :: old) = false) as ->.
  { apply not_true_is_false. intros [r [= -> _]]%startswith_true. done. }
  by rewrite IH.
Qed.

(** Removing the marker [-editada] from the path of a file in a year
    directory gives a path in a year directory: the marker cannot overlap
    the end [Photos from <digits>] of the directory nor a slash. *)
Lemma in_year_dir_without_marker img :
  in_year_dir img = true ->
  in_year_dir (replace (lit "-editada") [] img) = true.
Proof.
  intros Hy. destruct (year_file_decompose _ Hy) as (k & b & Himg & Hb).
  pose proof Hy as Hy'. unfold in_year_dir in Hy'.
  apply bool_decide_eq_true in Hy' as [g Hg].
  apply re_search_some in Hg as (pre & rest & Hd & Hm).
  destruct (pat_year_dir_inv _ _ Hm) as (y & tail & Hrest & _ & Hdig & Htail).
  assert (Hminus : "-"%char ∉ rest ++ replicate (S k) slash).
  { rewrite Hrest, !not_elem_of_app. repeat split.
    - by apply not_elem_of_lit_check.
    - by apply all_digits_not_elem.
    - apply at_end_cases in Htail as [-> | ->];
        [apply not_elem_of_nil | by apply not_elem_of_lit_check].
    - intros [H _]%elem_of_replicate. discriminate H. }
  change (replace (lit "-editada") [] img)
    with (replace_go ("-"%char :: lit "editada") [] 0 img).
  rewrite Himg, Hd.
  assert (Hshape : (pre ++ rest) ++ replicate (S k) slash ++ b
                   = pre ++ "P"%char :: (tl rest ++ replicate (S k) slash ++ b)).
  { rewrite Hrest. cbn. rewrite <- ?app_assoc. cbn. rewrite <- ?app_assoc. reflexivity. }
  rewrite Hshape.
  rewrite replace_go_boundary; [|by apply not_elem_of_lit_check|lia].
  assert (Hback : "P"%char :: (tl rest ++ replicate (S k) slash ++ b)
                  = (rest ++ replicate (S k) slash) ++ b).
  { rewrite Hrest. cbn. rewrite <- ?app_assoc. cbn. rewrite <- ?app_assoc. reflexivity. }
  rewrite Hback, replace_go_copy by done.
  set (pre' := replace_go _ [] 0 pre). set (b' := replace_go _ [] 0 b).
  assert (Hb' : slash ∉ b') by (intros H%elem_of_replace_go; done).
  destruct (year_dir_last rest) as (r0 & x & Hr0 & Hx).
  { rewrite <- (app_nil_l rest). by eapply re_search_is_Some. }
  unfold in_year_dir. apply bool_decide_eq_true.
  rewrite <- app_assoc, (app_assoc pre'), Hr0, (app_assoc pre' r0).
  rewrite dirname_compose by done.
  rewrite <- app_assoc, <- Hr0. by eapply re_search_is_Some.
Qed.

(** *** The pattern of year directories *)





(** ** The calls of a run *)

Lemma replay_app a b fs : replay (a ++ b) fs = replay b (replay a fs).
Proof. unfold replay. apply foldl_app. Qed.

Lemma reaches_refl s : reaches s s.
Proof.
  exists [], []. simpl. rewrite !app_nil_r. repeat split; constructor.
Qed.

Lemma reaches_trans s1 s2 s3 : reaches s1 s2 -> reaches s2 s3 -> reaches s1 s3.
Proof.
  intros (c1 & e1 & Hc1 & Ho1 & Hf1 & Hx1 & He1 & Hk1)
         (c2 & e2 & Hc2 & Ho2 & Hf2 & Hx2 & He2 & Hk2).
  exists (c1 ++ c2), (e1 ++ e2).
  rewrite Hc2, Hc1, Hf2, Hf1, Hx2, Hx1, He2, He1.
  rewrite replay_app, map_app, <- !app_assoc.
  repeat split; by apply Forall_app.
Qed.

Lemma reaches_quiet s s' :
  files s' = files s -> fs_calls s' = fs_calls s ->
  fixes s' = fixes s -> errors s' = errors s -> reaches s s'.
Proof.
  intros Hf Hc Hx He. exists [], []. simpl. rewrite !app_nil_r.
  repeat split; try done; constructor.
Qed.

Lemma keeps_ret {A} (a : A) : keeps (ret a).
Proof. intros s. apply reaches_refl. Qed.

Lemma keeps_raise {A} e : keeps (@raise A e).
Proof. intros s. apply reaches_refl. Qed.

Lemma keeps_bind {A B} (m : M A) (k : A -> M B) :
  keeps m -> (forall a, keeps (k a)) -> keeps (bind m k).
Proof.
  intros Hm Hk s. unfold bind. specialize (Hm s).
  destruct (m s) as [a s'|e s']; simpl in *; [|done].
  eapply reaches_trans; [exact Hm | apply Hk].
Qed.

Lemma keeps_for_each {A} (l : list A) (body : A -> M unit) :
  Forall (fun x => keeps (body x)) l -> keeps (for_each l body).
Proof.
  induction 1 as [|x l Hx Hl IH]; simpl; [apply keeps_ret|].
  by apply keeps_bind.
Qed.

Lemma keeps_comprehension {A B} (l : list A) (f : A -> M B) :
  Forall (fun x => keeps (f x)) l -> keeps (comprehension l f).
Proof.
  induction 1 as [|x l Hx Hl IH]; simpl; [apply keeps_ret|].
  apply keeps_bind; [done|]. intros y.
  apply keeps_bind; [done|]. intros ys. apply keeps_ret.
Qed.

Lemma keeps_path_exists p : keeps (path_exists p).
Proof. intros s. apply reaches_refl. Qed.

Lemma keeps_print x : keeps (print x).
Proof. intros s. by apply reaches_quiet. Qed.

Lemma keeps_errors_append e : error_ok e -> keeps (errors_append e).
Proof.
  intros He s. exists [], [e]. simpl. rewrite !app_nil_r.
  repeat split; by repeat constructor.
Qed.

Lemma reaches_call c s s' :
  call_ok c ->
  files s' = apply_call c (files s) ->
  fs_calls s' = fs_calls s ++ [c] ->
  fixes s' = fixes s ++ [describe c] ->
  errors s' = errors s ->
  reaches s s'.
Proof.
  intros Hok Hf Hc Hx He. exists [c], []. simpl. rewrite app_nil_r.
  repeat split; try done; by repeat constructor.
Qed.

Lemma keeps_copy_file origin destination :
  in_year_dir origin = true -> in_year_dir destination = true ->
  keeps (copy_file origin destination).
Proof.
  intros Ho Hd s. unfold copy_file, bind, shutil_copy2.
  destruct (files s !! origin) as [c|] eqn:E; [|apply reaches_refl].
  case_bool_decide; [apply reaches_refl|].
  apply (reaches_call (Copy origin destination)); simpl; try done.
  by rewrite E.
Qed.

Lemma keeps_move_file origin destination :
  call_ok (Move origin destination) -> keeps (move_file origin destination).
Proof.
  intros Hd s. unfold move_file, bind, shutil_move.
  destruct (files s !! origin) as [c|] eqn:E; [|apply reaches_refl].
  apply (reaches_call (Move origin destination)); simpl; try done.
  by rewrite E.
Qed.

Lemma keeps_write_file name content :
  in_year_dir name = true -> keeps (write_file name content).
Proof.
  intros Hd s. unfold write_file, bind, open_write.
  by apply (reaches_call (WriteText name content)).
Qed.

(** *** Timestamp inference and synthesis *)

Lemma error_ok_path text p : in_year_dir p = true -> error_ok (text ++ p).
Proof. intros H. by exists text, p. Qed.

Lemma keeps_invalid_date f : in_year_dir f = true -> keeps (invalid_date f).
Proof.
  intros Hf. unfold invalid_date. apply keeps_bind; [|intros; apply keeps_ret].
  by apply keeps_errors_append, error_ok_path.
Qed.

Lemma keeps_rule_six pat f fn next :
  in_year_dir f = true -> keeps next -> keeps (rule_six pat f fn next).
Proof.
  intros Hf Hn. unfold rule_six.
  repeat case_match; try done; try apply keeps_ret.
  by apply keeps_invalid_date.
Qed.

Lemma keeps_rule_millis f fn next :
  in_year_dir f = true -> keeps next -> keeps (rule_millis f fn next).
Proof.
  intros Hf Hn. unfold rule_millis.
  repeat case_match; try done; try apply keeps_ret.
  by apply keeps_invalid_date.
Qed.

Lemma keeps_rule_photos_from f : keeps (rule_photos_from f).
Proof.
  unfold rule_photos_from.
  repeat case_match; try apply keeps_ret; apply keeps_raise.
Qed.

Lemma keeps_infer_time f :
  in_year_dir f = true -> keeps (infer_time_from_image_file f).
Proof.
  intros Hf. unfold infer_time_from_image_file.
  apply keeps_rule_six; [done|]. apply keeps_rule_millis; [done|].
  apply keeps_rule_six; [done|]. apply keeps_rule_photos_from.
Qed.

Lemma metadata_file_in_year_dir f :
  in_year_dir (metadata_file_for f) = in_year_dir f.
Proof.
  unfold metadata_file_for. rewrite app_assoc.
  rewrite in_year_dir_app; [|vm_compute; by repeat
    (intros [H|H]%elem_of_cons; [discriminate H|revert H]); intros H%elem_of_nil].
  apply in_year_dir_app.
  intros [H|H]%elem_of_cons; [discriminate H | by apply elem_of_nil in H].
Qed.

Lemma keeps_time_timestamp timestamp_int t :
  keeps (time_timestamp timestamp_int t).
Proof.
  unfold time_timestamp.
  destruct (timestamp_int t); [apply keeps_ret | apply keeps_raise].
Qed.

Lemma keeps_generate timestamp_int f :
  in_year_dir f = true ->
  keeps (generate_metadata_for_image_file timestamp_int f).
Proof.
  intros Hf. unfold generate_metadata_for_image_file.
  apply keeps_bind; [apply keeps_path_exists|]. intros [|]; [apply keeps_ret|].
  apply keeps_bind; [by apply keeps_infer_time|]. intros [t|].
  - apply keeps_bind; [apply keeps_time_timestamp|]. intros n.
    apply keeps_write_file. by rewrite metadata_file_in_year_dir.
  - by apply keeps_errors_append, error_ok_path.
Qed.

(** *** The repairs *)

Lemma keeps_fix_divergent jf :
  in_year_dir jf = true -> is_json jf = true ->
  keeps (fix_divergent_metadata_filename jf).
Proof.
  intros Hy Hj. unfold fix_divergent_metadata_filename.
  destruct (endswith jf METADATA_JSON) eqn:Ec; cbn [negb]; [apply keeps_ret|].
  pose proof (re_sub_suppl_cases (lit "." ++ METADATA_JSON) jf) as Hcases.
  set (fixed := re_sub_suppl (lit "." ++ METADATA_JSON) jf) in *.
  case_bool_decide as Hd; [|apply keeps_ret].
  apply keeps_bind; [|intros; apply keeps_ret].
  apply keeps_move_file.
  destruct Hcases as [(stem & rest & Hjf & Hrest & Hfixed)|Hsame]; [|done].
  assert (rest = []) as ->.
  { apply at_end_cases in Hrest as [-> | ->]; [done|].
    destruct (is_json_last _ Hj) as (k & x & Heq & Hx). rewrite Hjf in Heq.
    rewrite !app_assoc in Heq. apply app_inj_2 in Heq as [_ [= <-]]; done. }
  rewrite app_nil_r in Hjf, Hfixed. clearbody fixed. subst fixed jf.
  assert (Hstem : in_year_dir stem = true).
  { rewrite <- Hy. symmetry. apply in_year_dir_app.
    by apply not_elem_of_lit_check. }
  repeat split.
  - done.
  - rewrite in_year_dir_app; [done|]. by apply not_elem_of_lit_check.
  - unfold canonical. by rewrite Ec.
  - apply canonical_endswith.
Qed.

Lemma keeps_repair_edited_variant img :
  in_year_dir img = true -> keeps (repair_edited_variant img).
Proof.
  intros Hy. unfold repair_edited_variant.
  destruct (str_in _ img); [|apply keeps_ret].
  apply keeps_bind; [apply keeps_path_exists|]. intros [|]; [|apply keeps_ret].
  fold (metadata_file_for img).
  fold (metadata_file_for (replace (lit "-editada") [] img)).
  apply keeps_copy_file; rewrite metadata_file_in_year_dir; [|done].
  by apply in_year_dir_without_marker.
Qed.

Lemma keeps_repair_numbered_duplicate img :
  in_year_dir img = true -> keeps (repair_numbered_duplicate img).
Proof.
  intros Hy. unfold repair_numbered_duplicate.
  destruct (re_search pat_paren_num _) as [num|] eqn:En; [|apply keeps_ret].
  destruct (pat_paren_num_inv _ _ En) as (n & -> & Hn).
  destruct (split_last dot (replace _ [] (filename img))) as [[stem ext]|] eqn:Es;
    [|apply keeps_raise].
  apply split_last_Some in Es as [Es _].
  assert (Hnum : slash ∉ lit "(" ++ n ++ lit ")")
    by (by apply paren_num_not_elem).
  assert (Hwrong : slash ∉ (stem ++ lit "." ++ ext) ++ lit ".supplemental-metadata"
                           ++ (lit "(" ++ n ++ lit ")") ++ lit ".json").
  { change (stem ++ lit "." ++ ext) with (stem ++ dot :: ext). rewrite <- Es.
    rewrite !not_elem_of_app. repeat split.
    - intros H%elem_of_replace. by apply basename_no_slash in H.
    - by apply not_elem_of_lit_check.
    - by apply not_elem_of_lit_check.
    - by apply all_digits_not_elem.
    - by apply not_elem_of_lit_check.
    - by apply not_elem_of_lit_check. }
  assert (Hfixed : slash ∉ filename img ++ lit "." ++ METADATA_JSON).
  { rewrite !not_elem_of_app. repeat split.
    - apply basename_no_slash.
    - by apply not_elem_of_lit_check.
    - by apply not_elem_of_lit_check. }
  pose proof (in_year_dir_join _ _ Hy Hwrong) as Hyw.
  pose proof (in_year_dir_join _ _ Hy Hfixed) as Hyf.
  apply keeps_bind; [apply keeps_path_exists|]. intros ew.
  apply keeps_bind; [|intros; apply keeps_ret].
  destruct ew.
  - apply keeps_bind; [apply keeps_path_exists|]. intros [|].
    + by apply keeps_errors_append, error_ok_path.
    + apply keeps_move_file. repeat split; [done..| |].
      * unfold canonical. by rewrite wrong_name_not_canonical.
      * apply fixed_name_canonical.
  - apply keeps_errors_append.
    rewrite (app_assoc _ _ img), (app_assoc _ _ img).
    by apply error_ok_path.
Qed.

Lemma keeps_fix_metadata_file_for_image img :
  in_year_dir img = true -> keeps (fix_metadata_file_for_image img).
Proof.
  intros Hy. unfold fix_metadata_file_for_image.
  apply keeps_bind; [by apply keeps_repair_edited_variant|].
  intros _. by apply keeps_repair_numbered_duplicate.
Qed.

(** *** The run *)

Lemma image_files_in_year_dir walk :
  Forall (fun f => in_year_dir f = true) (image_files walk).
Proof.
  apply List.Forall_forall. intros f Hf. unfold image_files, years_files in Hf.
  apply filter_In in Hf as [Hf _]. by apply filter_In in Hf as [_ ?].
Qed.

Lemma json_files_in_year_dir walk :
  Forall (fun f => in_year_dir f = true /\ is_json f = true) (json_files walk).
Proof.
  apply List.Forall_forall. intros f Hf. unfold json_files, years_files in Hf.
  apply filter_In in Hf as [Hf ?]. by apply filter_In in Hf as [_ ?].
Qed.

Lemma keeps_repair timestamp_int jsons images :
  Forall (fun f => in_year_dir f = true /\ is_json f = true) jsons ->
  Forall (fun f => in_year_dir f = true) images ->
  keeps (repair timestamp_int jsons images).
Proof.
  intros Hj Hi. unfold repair. apply keeps_bind.
  - apply keeps_comprehension. eapply Forall_impl; [exact Hj|].
    intros f [? ?]. by apply keeps_fix_divergent.
  - intros _. apply keeps_for_each. eapply Forall_impl; [exact Hi|].
    intros f Hf. apply keeps_bind; [by apply keeps_fix_metadata_file_for_image|].
    intros _. by apply keeps_generate.
Qed.

Lemma keeps_report imgs : keeps (report imgs).
Proof. intros s. rewrite report_prints. by apply reaches_quiet. Qed.

(** The state in which [execute] starts its work: [reset] has emptied
    [fixes] and [errors]. *)
Lemma execute_reaches timestamp_int takeout_dir walk s :
  reaches (mk_state (files s) [] [] (stdout s) (fs_calls s))
          (final (execute timestamp_int takeout_dir walk s)).
Proof.
  unfold execute. unfold bind at 1, reset at 1.
  set (s0 := mk_state (files s) [] [] (stdout s) (fs_calls s)).
  clearbody s0. clear s. revert s0.
  match goal with |- forall s0, reaches s0 (final (?m s0)) => change (keeps m) end.
  repeat (apply keeps_bind; [apply keeps_print|]; intros _).
  apply keeps_bind; [|intros _; apply keeps_report].
  apply keeps_repair; [apply json_files_in_year_dir | apply image_files_in_year_dir].
Qed.

(** ** What the calls of a run can do to the files *)

Lemma replay_cons c calls fs : replay (c :: calls) fs = replay calls (apply_call c fs).
Proof. reflexivity. Qed.




Lemma apply_call_canonical c fs q :
  call_ok c -> canonical q -> is_Some (fs !! q) -> is_Some (apply_call c fs !! q).
Proof.
  intros Hc Hq Hs. destruct c as [o d|o d|o|n x]; simpl in *.
  - destruct (fs !! o); [|done]. rewrite lookup_insert_is_Some. 
    destruct (decide (d = q)); auto.
  - destruct Hc as (_ & _ & Ho & _). destruct (fs !! o) eqn:E; [|done].
    rewrite lookup_insert_is_Some. destruct (decide (d = q)); [auto|right].
    split; [done|]. rewrite lookup_delete_ne; [done|]. by intros ->.
  - done.
  - rewrite lookup_insert_is_Some. destruct (decide (n = q)); auto.
Qed.

Lemma replay_canonical calls fs q :
  Forall call_ok calls -> canonical q -> is_Some (fs !! q) ->
  is_Some (replay calls fs !! q).
Proof.
  intros Hc Hq. revert fs. induction Hc as [|c calls Hok _ IH]; intros fs Hs; [done|].
  rewrite replay_cons. apply IH. by apply apply_call_canonical.
Qed.

(** A file either stays at its path or was moved to a path that exists in
    the end. *)
Lemma replay_persist calls fs p :
  Forall call_ok calls -> is_Some (fs !! p) ->
  is_Some (replay calls fs !! p)
  \/ exists q, Move p q ∈ calls /\ is_Some (replay calls fs !! q).
Proof.
  intros Hc. revert fs. induction Hc as [|c calls Hok Hrest IH]; intros fs Hs;
    [by left|].
  rewrite replay_cons.
  assert (Hcase : is_Some (apply_call c fs !! p)
                  \/ exists q, c = Move p q /\ canonical q
                               /\ is_Some (apply_call c fs !! q)).
  { destruct c as [o d|o d|o|n x]; simpl in *.
    - left. destruct (fs !! o); [|done]. rewrite lookup_insert_is_Some.
      destruct (decide (d = p)); auto.
    - destruct Hok as (_ & _ & _ & Hd). destruct (fs !! o) eqn:E; [|by left].
      destruct (decide (o = p)) as [->|Hne].
      + right. exists d. split; [done|]. split; [done|].
        rewrite lookup_insert_eq. eauto.
      + left. rewrite lookup_insert_is_Some. destruct (decide (d = p)); [auto|right].
        split; [done|]. by rewrite lookup_delete_ne.
    - done.
    - left. rewrite lookup_insert_is_Some. destruct (decide (n = p)); auto. }
  destruct Hcase as [Hp|(q & -> & Hq & Hsq)].
  - destruct (IH _ Hp) as [?|(q & Hin & ?)]; [by left|right].
    exists q. split; [by right | done].
  - right. exists q. split; [left|]. by apply replay_canonical.
Qed.

Lemma call_ok_not_remove calls o : Forall call_ok calls -> Remove o ∉ calls.
Proof.
  intros Hc Hin. rewrite Forall_forall in Hc. by apply Hc in Hin.
Qed.

Lemma apply_call_elsewhere c fs p :
  ~ mutates c p -> apply_call c fs !! p = fs !! p.
Proof.
  intros Hm. destruct c as [o d|o d|o|n x]; simpl in *.
  - destruct (fs !! o); [|done]. by apply lookup_insert_ne.
  - destruct (fs !! o); [|done].
    rewrite lookup_insert_ne by tauto. apply lookup_delete_ne. tauto.
  - by apply lookup_delete_ne.
  - by apply lookup_insert_ne.
Qed.

(** What no call is aimed at stays as it is. *)
Lemma replay_elsewhere calls fs p :
  (forall c, c ∈ calls -> ~ mutates c p) -> replay calls fs !! p = fs !! p.
Proof.
  revert fs. induction calls as [|c calls IH]; intros fs Hm; [done|].
  rewrite replay_cons, IH by (intros c' Hc'; apply Hm; by right).
  apply apply_call_elsewhere, Hm. left.
Qed.

(** C10, as the code has it.  However a run ends, the calls it has made to
    the file system are copies, moves and writes, no removal; the files are
    those it started with after these calls; every path that held a file
    before the run holds one after it, or was the source of a move whose
    destination holds one; and a file that is neither source nor
    destination of a call is there with its content.  A copy, move or write
    onto a file replaces it: that file is lost though nothing was
    removed. *)
Theorem run_deletes_no_file
    (timestamp_int : datetime -> option Z) (takeout_dir : str)
    (walk : list (str * list str * list str)) (s : state) :
  let s' := final (execute timestamp_int takeout_dir walk s) in
  exists calls,
    fs_calls s' = fs_calls s ++ calls
    /\ (forall o, Remove o ∉ calls)
    /\ files s' = replay calls (files s)
    /\ (forall p, is_Some (files s !! p) ->
          is_Some (files s' !! p)
          \/ exists q, Move p q ∈ calls /\ is_Some (files s' !! q))
    /\ (forall p, (forall c, c ∈ calls -> ~ mutates c p) ->
          files s' !! p = files s !! p).
Proof.
  intros s'.
  destruct (execute_reaches timestamp_int takeout_dir walk s)
    as (calls & errs & Hcalls & Hok & Hfiles & _).
  fold s' in Hcalls, Hfiles. simpl in Hcalls, Hfiles.
  exists calls. split; [done|]. split; [intros o; by apply call_ok_not_remove|].
  split; [done|]. split.
  - intros p Hp. rewrite Hfiles. by apply replay_persist.
  - intros p Hp. rewrite Hfiles. by apply replay_elsewhere.
Qed.

(** C10 as stated fails: two sidecars before the run, one after it.  The
    normalization of [a.jpg.suppl.json] renames it onto the canonical
    sidecar that was there; no file is removed by name, but the file that
    held [canonical] exists at no path after the run. *)
Lemma run_replaces_a_file :
  let old := lit "t/Photos from 2019/a.jpg.suppl.json" in
  let new := lit "t/Photos from 2019/a.jpg.supplemental-metadata.json" in
  let walk := [(lit "t/Photos from 2019", [],
                [lit "a.jpg.suppl.json";
                 lit "a.jpg.supplemental-metadata.json"])] in
  let s := empty_state {[ old := lit "truncated"; new := lit "canonical" ]} in
  let r := execute utc_timestamp (lit "t") walk s in
  files s !! new = Some (lit "canonical")
  /\ returned r = Some tt
  /\ fs_calls (final r) = [Move old new]
  /\ files (final r) !! old = None
  /\ files (final r) !! new = Some (lit "truncated")
  /\ forall p, files (final r) !! p <> Some (lit "canonical").
Proof.
  intros old new walk s r.
  split; [vm_compute; reflexivity|]. split; [vm_compute; reflexivity|].
  split; [vm_compute; reflexivity|]. split; [vm_compute; reflexivity|].
  split; [vm_compute; reflexivity|].
  assert (Hcalls : fs_calls (final r) = fs_calls s ++ [Move old new])
    by (vm_compute; reflexivity).
  destruct (execute_reaches utc_timestamp (lit "t") walk s)
    as (calls & errs & Hc & _ & Hfiles & _).
  fold r in Hc, Hfiles. cbn [fs_calls files] in Hc, Hfiles.
  rewrite Hcalls in Hc. apply app_inv_head in Hc as <-.
  assert (Hold : files s !! old = Some (lit "truncated"))
    by (vm_compute; reflexivity).
  intros p. rewrite Hfiles. unfold replay. cbn [foldl apply_call].
  rewrite Hold.
  destruct (decide (new = p)) as [<- | Hne].
  - rewrite lookup_insert_eq. discriminate.
  - rewrite lookup_insert_ne by done.
    destruct (decide (old = p)) as [<- | Hne'].
    + rewrite lookup_delete_eq. discriminate.
    + rewrite lookup_delete_ne by done.
      unfold s. cbn [files empty_state].
      rewrite lookup_insert_ne by done.
      rewrite lookup_singleton_ne by done. discriminate.
Qed.

(** A move replaces a file that is already at the destination: here the
    normalization of [a.jpg.suppl.json] replaces the content of the
    canonical sidecar that was there. *)
Example normalization_replaces_existing_sidecar :
  let old := lit "Photos from 2019/a.jpg.suppl.json" in
  let new := lit "Photos from 2019/a.jpg.supplemental-metadata.json" in
  let s := empty_state {[ old := lit "truncated"; new := lit "canonical" ]} in
  let r := fix_divergent_metadata_filename old s in
  returned r = Some new
  /\ files (final r) !! old = None
  /\ files (final r) !! new = Some (lit "truncated").
Proof. vm_compute. repeat split. Qed.

(** [delete_file] is the only method that removes a file. *)
Example delete_file_removes :
  let s := empty_state {[ lit "a.jpg" := lit "image" ]} in
  let r := delete_file (lit "a.jpg") s in
  returned r = Some tt /\ files (final r) !! lit "a.jpg" = None
  /\ fs_calls (final r) = [Remove (lit "a.jpg")].
Proof. vm_compute. repeat split. Qed.

(** ** Files outside the year directories *)





(** * Further properties of the code

    ** The four patterns of timestamp inference in terms of runs *)

Lemma search_none_runs {A} (m : str -> option A) (R : str -> Prop) s :
  (forall run post, R run -> m (run ++ post) <> None) ->
  (forall s g, m s = Some g -> exists run post, s = run ++ post /\ R run) ->
  re_search m s = None <-> forall pre run, occurs_at pre run s -> ~ R run.
Proof.
  intros Hrun Hinv. rewrite re_search_none. split.
  - intros H pre run [post ->] HR. by apply (Hrun run post HR), (H pre).
  - intros H pre rest ->.
    destruct (m rest) as [g|] eqn:E; [|done].
    apply Hinv in E as (run & post & -> & HR).
    exfalso. apply (H pre run); [by exists post | done].
Qed.

Lemma pat_millis_of_run run post : millis_run run -> pat_millis (run ++ post) <> None.
Proof.
  intros [Hl Hd].
  rewrite <- (take_drop 4 run), <- (take_drop 2 (drop 4 run)), drop_drop.
  rewrite <- (take_drop 2 (drop (4 + 2) run)), drop_drop.
  rewrite <- (take_drop 2 (drop (4 + 2 + 2) run)), drop_drop.
  rewrite <- (take_drop 2 (drop (4 + 2 + 2 + 2) run)), drop_drop.
  rewrite <- (take_drop 2 (drop (4 + 2 + 2 + 2 + 2) run)), drop_drop.
  rewrite <- !app_assoc.
  rewrite pat_millis_run; [done|..];
    rewrite ?length_take, ?length_drop, ?all_digits_app; try lia.
  repeat split; auto using all_digits_take, all_digits_drop.
Qed.

Lemma search_millis_none s :
  re_search pat_millis s = None <->
  forall pre run, occurs_at pre run s -> ~ millis_run run.
Proof.
  apply search_none_runs; [apply pat_millis_of_run | apply pat_millis_inv].
Qed.

Lemma pat_underscored_run y mo d h mi sec post :
  length y = 4%nat -> length mo = 2%nat -> length d = 2%nat ->
  length h = 2%nat -> length mi = 2%nat -> length sec = 2%nat ->
  all_digits (y ++ mo ++ d ++ h ++ mi ++ sec) ->
  pat_underscored (lit "_" ++ y ++ mo ++ d ++ h ++ mi ++ sec ++ lit "_" ++ post)
  = Some [y; mo; d; h; mi; sec].
Proof.
  intros ? ? ? ? ? ? Hd.
  do 5 (apply all_digits_app in Hd as [? Hd]).
  unfold pat_underscored, ymdhms_tail.
  repeat (first [rewrite digits_app by done | rewrite literal_app];
          cbn [mbind option_bind]).
  done.
Qed.

Lemma pat_underscored_inv s g :
  pat_underscored s = Some g ->
  exists run post, s = run ++ post /\ underscored_run run.
Proof.
  unfold pat_underscored, ymdhms_tail.
  destruct (literal (lit "_") s) as [s0|] eqn:E0; [|done]. cbn [mbind option_bind].
  destruct (digits 4 s0) as [[y s1]|] eqn:E1; [|done]. cbn [mbind option_bind].
  destruct (digits 2 s1) as [[mo s2]|] eqn:E2; [|done]. cbn [mbind option_bind].
  destruct (digits 2 s2) as [[d s3]|] eqn:E3; [|done]. cbn [mbind option_bind].
  destruct (digits 2 s3) as [[h s5]|] eqn:E5; [|done]. cbn [mbind option_bind].
  destruct (digits 2 s5) as [[mi s6]|] eqn:E6; [|done]. cbn [mbind option_bind].
  destruct (digits 2 s6) as [[sec s7]|] eqn:E7; [|done]. cbn [mbind option_bind].
  destruct (literal (lit "_") s7) as [s8|] eqn:E8; [|done]. cbn [mbind option_bind].
  intros _.
  apply literal_spec in E0 as ->, E8 as ->.
  apply digits_inv in E1 as (-> & ? & ?), E2 as (-> & ? & ?),
    E3 as (-> & ? & ?), E5 as (-> & ? & ?), E6 as (-> & ? & ?),
    E7 as (-> & ? & ?).
  exists (lit "_" ++ (y ++ mo ++ d ++ h ++ mi ++ sec) ++ lit "_"), s8. split.
  - by rewrite <- !app_assoc.
  - exists (y ++ mo ++ d ++ h ++ mi ++ sec). split; [done|].
    split; [rewrite !length_app; lia|]. by rewrite !all_digits_app.
Qed.

Lemma pat_underscored_of_run run post :
  underscored_run run -> pat_underscored (run ++ post) <> None.
Proof.
  intros (a & -> & Hl & Hd).
  rewrite <- (take_drop 4 a), <- (take_drop 2 (drop 4 a)), drop_drop.
  rewrite <- (take_drop 2 (drop (4 + 2) a)), drop_drop.
  rewrite <- (take_drop 2 (drop (4 + 2 + 2) a)), drop_drop.
  rewrite <- (take_drop 2 (drop (4 + 2 + 2 + 2) a)), drop_drop.
  rewrite <- !app_assoc.
  rewrite pat_underscored_run; [done|..];
    rewrite ?length_take, ?length_drop, ?all_digits_app; try lia.
  repeat split; auto using all_digits_take, all_digits_drop.
Qed.

Lemma search_underscored_none s :
  re_search pat_underscored s = None <->
  forall pre run, occurs_at pre run s -> ~ underscored_run run.
Proof.
  apply search_none_runs; [apply pat_underscored_of_run | apply pat_underscored_inv].
Qed.

Lemma pat_photos_from_year_run y post :
  length y = 4%nat -> all_digits y ->
  pat_photos_from_year (lit "Photos from " ++ y ++ lit "/" ++ post) = Some [y].
Proof.
  intros Hl Hd. unfold pat_photos_from_year.
  repeat (first [rewrite digits_app by done | rewrite literal_app];
          cbn [mbind option_bind]).
  done.
Qed.

Lemma pat_photos_from_year_inv s g :
  pat_photos_from_year s = Some g ->
  exists run post, s = run ++ post /\ photos_year_run run.
Proof.
  unfold pat_photos_from_year.
  destruct (literal (lit "Photos from ") s) as [s0|] eqn:E0; [|done].
  cbn [mbind option_bind].
  destruct (digits 4 s0) as [[y s1]|] eqn:E1; [|done]. cbn [mbind option_bind].
  destruct (literal (lit "/") s1) as [s2|] eqn:E2; [|done]. cbn [mbind option_bind].
  intros _. apply literal_spec in E0 as ->, E2 as ->.
  apply digits_inv in E1 as (-> & ? & ?).
  exists (lit "Photos from " ++ y ++ lit "/"), s2. split.
  - by rewrite <- !app_assoc.
  - by exists y.
Qed.

Lemma search_photos_year_none s :
  re_search pat_photos_from_year s = None <->
  forall pre run, occurs_at pre run s -> ~ photos_year_run run.
Proof.
  apply search_none_runs; [|apply pat_photos_from_year_inv].
  intros run post (y & -> & Hl & Hd). rewrite <- !app_assoc.
  by rewrite pat_photos_from_year_run.
Qed.

(** ** Rules 3 and 4 of timestamp inference, and no rule at all *)

Lemma is_digit_val c : is_digit c = true -> 0 <= digit_val c <= 9.
Proof.
  destruct c as [[] [] [] [] [] [] [] []]; try discriminate; intros _;
    vm_compute; split; discriminate.
Qed.

Lemma py_int_go_bound s acc :
  all_digits s -> 0 <= acc ->
  acc * 10 ^ Z.of_nat (length s)
  <= fold_left (fun a c => 10 * a + digit_val c) s acc
  < (acc + 1) * 10 ^ Z.of_nat (length s).
Proof.
  revert acc. induction s as [|c s IH]; intros acc Hd Hacc.
  - simpl. lia.
  - unfold all_digits in Hd. simpl in Hd. apply andb_prop in Hd as [Hc Hd].
    apply is_digit_val in Hc.
    cbn [fold_left length]. rewrite Nat2Z.inj_succ, Z.pow_succ_r by lia.
    specialize (IH (10 * acc + digit_val c) Hd ltac:(lia)).
    assert (0 < 10 ^ Z.of_nat (length s)) by (apply Z.pow_pos_nonneg; lia).
    nia.
Qed.

Lemma py_int_bound s :
  all_digits s -> 0 <= py_int s < 10 ^ Z.of_nat (length s).
Proof.
  intros Hd. pose proof (py_int_go_bound s 0 Hd ltac:(lia)) as H.
  unfold py_int. lia.
Qed.

(** X1.  Rule 3.  When the name of a media file, extension stripped, contains
    no run of the shapes of rules 1 and 2, and contains a run
    _YYYYMMDDHHMMSS_ with none starting further left, inference is decided
    by that run: a valid date and time is returned, the state unchanged;
    for an invalid one an error is recorded and nothing is returned. *)
Theorem inference_from_leftmost_underscored_run
    (image_file pre y mo d h mi sec post : str) (s : state) :
  filename_without_ext image_file
  = pre ++ (lit "_" ++ y ++ mo ++ d ++ h ++ mi ++ sec ++ lit "_") ++ post ->
  length y = 4%nat -> length mo = 2%nat -> length d = 2%nat ->
  length h = 2%nat -> length mi = 2%nat -> length sec = 2%nat ->
  all_digits (y ++ mo ++ d ++ h ++ mi ++ sec) ->
  (forall pre' run',
      occurs_at pre' run' (filename_without_ext image_file) ->
      ~ date_time_run run' /\ ~ millis_run run') ->
  (forall pre' run',
      occurs_at pre' run' (filename_without_ext image_file) ->
      underscored_run run' -> (length pre <= length pre')%nat) ->
  infer_time_from_image_file image_file s
  = if valid_datetime (py_int y) (py_int mo) (py_int d)
                      (py_int h) (py_int mi) (py_int sec) 0
    then Ok (Some (mk_datetime (py_int y) (py_int mo) (py_int d)
                               (py_int h) (py_int mi) (py_int sec) 0)) s
    else Ok None (with_error (lit "Invalid date in filename: " ++ image_file) s).
Proof.
  intros Hbase ? ? ? ? ? ? Hd Hno Hleft.
  assert (Hs1 : re_search pat_date_time (filename_without_ext image_file) = None).
  { apply search_date_time_none. intros p r Ho. by apply Hno in Ho as [? _]. }
  assert (Hs2 : re_search pat_millis (filename_without_ext image_file) = None).
  { apply search_millis_none. intros p r Ho. by apply Hno in Ho as [_ ?]. }
  unfold infer_time_from_image_file, rule_six at 1. rewrite Hs1.
  unfold rule_millis. rewrite Hs2. unfold rule_six.
  rewrite Hbase in Hleft |- *.
  rewrite (search_leftmost pat_underscored underscored_run pre _
             [y; mo; d; h; mi; sec]); [|apply pat_underscored_inv| |done].
  - unfold datetime_new.
    destruct (valid_datetime _ _ _ _ _ _ _); [reflexivity|].
    apply invalid_date_run.
  - rewrite <- !app_assoc. by apply pat_underscored_run.
Qed.

Lemma inference_from_leftmost_underscored_run_witness :
  let f := lit "Photos from 2025/DJI_20250308180700_0070_D.JPG" in
  let s := empty_state ∅ in
  filename_without_ext f
  = lit "DJI" ++ (lit "_" ++ lit "2025" ++ lit "03" ++ lit "08" ++ lit "18"
                  ++ lit "07" ++ lit "00" ++ lit "_") ++ lit "0070_D"
  /\ re_search pat_date_time (filename_without_ext f) = None
  /\ re_search pat_millis (filename_without_ext f) = None
  /\ infer_time_from_image_file f s
     = Ok (Some (mk_datetime 2025 3 8 18 7 0 0)) s.
Proof.
  intros f s.
  assert (Hb : filename_without_ext f
    = lit "DJI" ++ (lit "_" ++ lit "2025" ++ lit "03" ++ lit "08" ++ lit "18"
                    ++ lit "07" ++ lit "00" ++ lit "_") ++ lit "0070_D")
    by (vm_compute; reflexivity).
  assert (Hs1 : re_search pat_date_time (filename_without_ext f) = None)
    by (vm_compute; reflexivity).
  assert (Hs2 : re_search pat_millis (filename_without_ext f) = None)
    by (vm_compute; reflexivity).
  split; [exact Hb|]. split; [exact Hs1|]. split; [exact Hs2|].
  refine (inference_from_leftmost_underscored_run f (lit "DJI") (lit "2025")
            (lit "03") (lit "08") (lit "18") (lit "07") (lit "00") (lit "0070_D")
            s Hb eq_refl eq_refl eq_refl eq_refl eq_refl eq_refl eq_refl _ _).
  - intros pre' run' Ho. split.
    + by apply (proj1 (search_date_time_none _) Hs1 pre').
    + by apply (proj1 (search_millis_none _) Hs2 pre').
  - intros pre' run' [post' Heq] (a & -> & _).
    destruct (decide (length (lit "DJI") <= length pre')%nat) as [|Hlt]; [done|].
    exfalso. rewrite Hb in Heq.
    destruct pre' as [|c1 [|c2 [|c3 pre']]]; [..|simpl in Hlt; lia];
      discriminate Heq.
Defined.

(** X2.  Rule 4.  When the name of a media file contains no run of the shapes
    of rules 1 to 3 and its path contains [Photos from YYYY/], the leftmost
    such segment decides: the result is the first of January of that year
    at 00:00:00, state unchanged; for the year 0000 [datetime] raises
    [ValueError], which nothing catches. *)
Theorem inference_directory_fallback
    (image_file pre y post : str) (s : state) :
  image_file = pre ++ (lit "Photos from " ++ y ++ lit "/") ++ post ->
  length y = 4%nat -> all_digits y ->
  (forall pre' run',
      occurs_at pre' run' (filename_without_ext image_file) ->
      ~ date_time_run run' /\ ~ millis_run run' /\ ~ underscored_run run') ->
  (forall pre' run',
      occurs_at pre' run' image_file ->
      photos_year_run run' -> (length pre <= length pre')%nat) ->
  infer_time_from_image_file image_file s
  = if 1 <=? py_int y
    then Ok (Some (mk_datetime (py_int y) 1 1 0 0 0 0)) s
    else Raise ValueError s.
Proof.
  intros Hpath Hl Hd Hno Hleft.
  assert (Hs1 : re_search pat_date_time (filename_without_ext image_file) = None).
  { apply search_date_time_none. intros p r Ho. by apply Hno in Ho as (? & _). }
  assert (Hs2 : re_search pat_millis (filename_without_ext image_file) = None).
  { apply search_millis_none. intros p r Ho. by apply Hno in Ho as (_ & ? & _). }
  assert (Hs3 : re_search pat_underscored (filename_without_ext image_file) = None).
  { apply search_underscored_none. intros p r Ho. by apply Hno in Ho as (_ & _ & ?). }
  unfold infer_time_from_image_file, rule_six at 1. rewrite Hs1.
  unfold rule_millis. rewrite Hs2. unfold rule_six. rewrite Hs3.
  unfold rule_photos_from.
  assert (Hs : re_search pat_photos_from_year image_file = Some [y]).
  { rewrite Hpath in Hleft |- *.
    apply (search_leftmost pat_photos_from_year photos_year_run);
      [apply pat_photos_from_year_inv| |done].
    rewrite <- !app_assoc. by apply pat_photos_from_year_run. }
  rewrite Hs. unfold datetime_new, valid_datetime.
  pose proof (py_int_bound y Hd) as Hb. rewrite Hl in Hb.
  change (10 ^ Z.of_nat 4) with 10000 in Hb.
  assert ((py_int y <=? 9999) = true) as -> by lia.
  destruct (1 <=? py_int y); reflexivity.
Qed.

Lemma inference_directory_fallback_witness :
  let f := lit "Photos from 2019/holiday.jpg" in
  let s := empty_state ∅ in
  f = [] ++ (lit "Photos from " ++ lit "2019" ++ lit "/") ++ lit "holiday.jpg"
  /\ all_digits (lit "2019")
  /\ infer_time_from_image_file f s
     = Ok (Some (mk_datetime 2019 1 1 0 0 0 0)) s.
Proof.
  intros f s.
  assert (Hp : f = [] ++ (lit "Photos from " ++ lit "2019" ++ lit "/")
                   ++ lit "holiday.jpg") by reflexivity.
  assert (Hd : all_digits (lit "2019")) by reflexivity.
  split; [exact Hp|]. split; [exact Hd|].
  refine (inference_directory_fallback f [] (lit "2019") (lit "holiday.jpg") s
            Hp eq_refl Hd _ _).
  - intros pre' run' Ho. repeat split.
    + by apply (proj1 (search_date_time_none (filename_without_ext f)) eq_refl pre').
    + by apply (proj1 (search_millis_none (filename_without_ext f)) eq_refl pre').
    + by apply (proj1 (search_underscored_none (filename_without_ext f)) eq_refl pre').
  - intros pre' run' _ _. simpl. lia.
Defined.

(** X3.  No rule.  When the name contains no run of the shapes of rules 1 to 3
    and the path no segment [Photos from YYYY/], inference returns nothing
    and leaves the state as it is: no error is recorded at this point. *)
Theorem inference_without_pattern (image_file : str) (s : state) :
  (forall pre' run',
      occurs_at pre' run' (filename_without_ext image_file) ->
      ~ date_time_run run' /\ ~ millis_run run' /\ ~ underscored_run run') ->
  (forall pre' run', occurs_at pre' run' image_file -> ~ photos_year_run run') ->
  infer_time_from_image_file image_file s = Ok None s.
Proof.
  intros Hno Hdir.
  assert (Hs1 : re_search pat_date_time (filename_without_ext image_file) = None).
  { apply search_date_time_none. intros p r Ho. by apply Hno in Ho as (? & _). }
  assert (Hs2 : re_search pat_millis (filename_without_ext image_file) = None).
  { apply search_millis_none. intros p r Ho. by apply Hno in Ho as (_ & ? & _). }
  assert (Hs3 : re_search pat_underscored (filename_without_ext image_file) = None).
  { apply search_underscored_none. intros p r Ho. by apply Hno in Ho as (_ & _ & ?). }
  apply search_photos_year_none in Hdir.
  unfold infer_time_from_image_file, rule_six at 1. rewrite Hs1.
  unfold rule_millis. rewrite Hs2. unfold rule_six. rewrite Hs3.
  unfold rule_photos_from. by rewrite Hdir.
Qed.

Lemma inference_without_pattern_witness :
  let f := lit "Photos from 19/holiday.jpg" in
  infer_time_from_image_file f (empty_state ∅) = Ok None (empty_state ∅).
Proof.
  intros f. apply inference_without_pattern.
  - intros pre' run' Ho. repeat split.
    + by apply (proj1 (search_date_time_none (filename_without_ext f)) eq_refl pre').
    + by apply (proj1 (search_millis_none (filename_without_ext f)) eq_refl pre').
    + by apply (proj1 (search_underscored_none (filename_without_ext f)) eq_refl pre').
  - by apply (proj1 (search_photos_year_none f) eq_refl).
Defined.

(** ** What synthesis can do *)

Lemma rule_six_outcomes pat f fn next s :
  (next s = Ok None s \/ next s = Raise ValueError s
   \/ (exists t, next s = Ok (Some t) s)
   \/ next s = Ok None (with_error (lit "Invalid date in filename: " ++ f) s)) ->
  rule_six pat f fn next s = Ok None s
  \/ rule_six pat f fn next s = Raise ValueError s
  \/ (exists t, rule_six pat f fn next s = Ok (Some t) s)
  \/ rule_six pat f fn next s
     = Ok None (with_error (lit "Invalid date in filename: " ++ f) s).
Proof.
  intros Hn. unfold rule_six.
  repeat case_match; try exact Hn.
  - right. right. left. by eexists.
  - right. right. right. apply invalid_date_run.
Qed.

Lemma rule_millis_outcomes f fn next s :
  (next s = Ok None s \/ next s = Raise ValueError s
   \/ (exists t, next s = Ok (Some t) s)
   \/ next s = Ok None (with_error (lit "Invalid date in filename: " ++ f) s)) ->
  rule_millis f fn next s = Ok None s
  \/ rule_millis f fn next s = Raise ValueError s
  \/ (exists t, rule_millis f fn next s = Ok (Some t) s)
  \/ rule_millis f fn next s
     = Ok None (with_error (lit "Invalid date in filename: " ++ f) s).
Proof.
  intros Hn. unfold rule_millis.
  repeat case_match; try exact Hn.
  - right. right. left. by eexists.
  - right. right. right. apply invalid_date_run.
Qed.

(** Inference ends in one of four ways. *)
Lemma infer_time_outcomes f s :
  infer_time_from_image_file f s = Ok None s
  \/ infer_time_from_image_file f s = Raise ValueError s
  \/ (exists t, infer_time_from_image_file f s = Ok (Some t) s)
  \/ infer_time_from_image_file f s
     = Ok None (with_error (lit "Invalid date in filename: " ++ f) s).
Proof.
  unfold infer_time_from_image_file.
  apply rule_six_outcomes, rule_millis_outcomes, rule_six_outcomes.
  unfold rule_photos_from. repeat case_match; auto.
  right. right. left. by eexists.
Qed.

(** X4.  Synthesis.  [generate_metadata_for_image_file] ends in one of these
    ways and no other: a file was at the canonical sidecar path and nothing
    changed; or none was and one is written there, with one fix and no
    error; or no file is touched and the errors gain [Unable to infer
    metadata for ...], preceded by [Invalid date in filename: ...] when a
    pattern matched digits that are no date; or [ValueError] is raised
    (year 0000 of rule 4, or [time.timestamp()] on the inferred date) with
    nothing changed.  So when it returns, the
    canonical sidecar exists or an error names the file. *)
Theorem synthesis_outcomes
    (timestamp_int : datetime -> option Z) (image_file : str) (s : state) :
  let canonical := metadata_file_for image_file in
  let unable := lit "Unable to infer metadata for " ++ image_file in
  let invalid := lit "Invalid date in filename: " ++ image_file in
  match generate_metadata_for_image_file timestamp_int image_file s with
  | Ok _ s' =>
      (is_Some (files s !! canonical) /\ s' = s)
      \/ (files s !! canonical = None
          /\ exists t n,
               timestamp_int t = Some n
               /\ files s' = <[canonical := json_dumps 0
                                 (json_content image_file t n)]> (files s)
               /\ fixes s' = fixes s ++ [basename canonical ++ lit " written"]
               /\ errors s' = errors s)
      \/ (files s !! canonical = None
          /\ files s' = files s /\ fs_calls s' = fs_calls s
          /\ fixes s' = fixes s
          /\ (errors s' = errors s ++ [unable]
              \/ errors s' = errors s ++ [invalid; unable]))
  | Raise e s' => e = ValueError /\ s' = s /\ files s !! canonical = None
  end.
Proof.
  intros canonical unable invalid. unfold generate_metadata_for_image_file.
  fold canonical.
  destruct (files s !! canonical) as [c|] eqn:E.
  { rewrite (bind_ok _ _ _ _ _ (path_exists_some _ _ _ E)). left. eauto. }
  rewrite (bind_ok _ _ _ _ _ (path_exists_none _ _ E)).
  destruct (infer_time_outcomes image_file s) as [H|[H|[[t H]|H]]].
  - rewrite (bind_ok _ _ _ _ _ H). right. right. cbn. repeat split; auto.
  - rewrite (bind_raise _ _ _ _ _ H). done.
  - rewrite (bind_ok _ _ _ _ _ H). unfold bind, time_timestamp.
    destruct (timestamp_int t) as [n|] eqn:En; [|done].
    right. left. split; [done|]. exists t, n.
    cbn. repeat split. done.
  - rewrite (bind_ok _ _ _ _ _ H). right. right. cbn. repeat split; try done.
    right. by rewrite <- app_assoc.
Qed.

(** ** The repair of edited variants alone *)

(** X5.  The first step of [fix_metadata_file_for_image] never raises and never
    records an error.  When the path contains [-editada] and the path
    without the marker has a canonical sidecar, that sidecar's content is
    put at the canonical sidecar path of the edited file, replacing what
    was there; in every other case nothing changes. *)
Theorem edited_variant_step (image_file : str) (s : state) :
  let original := metadata_file_for (replace (lit "-editada") [] image_file) in
  let edited := metadata_file_for image_file in
  repair_edited_variant image_file s
  = Ok tt
      match (if str_in (lit "-editada") image_file then files s !! original
             else None) with
      | Some c =>
          mk_state (<[edited := c]> (files s))
            (fixes s ++ [basename original ++ lit " copied to " ++ basename edited])
            (errors s) (stdout s) (fs_calls s ++ [Copy original edited])
      | None => s
      end.
Proof.
  intros original edited. unfold repair_edited_variant.
  fold edited. fold original.
  destruct (str_in (lit "-editada") image_file) eqn:Hin; [|done].
  destruct (files s !! original) as [c|] eqn:E.
  - rewrite (bind_ok _ _ _ _ _ (path_exists_some _ _ _ E)).
    apply copy_file_ok; [done|].
    unfold original, edited, metadata_file_for. intros H%app_inv_tail.
    by apply replace_removes in H.
  - by rewrite (bind_ok _ _ _ _ _ (path_exists_none _ _ E)).
Qed.

(** ** The repair of numbered duplicates in general *)

Lemma join_dir d x b :
  x <> slash -> startswith b [slash] = false ->
  join (d ++ [x]) b = (d ++ [x]) ++ slash :: b.
Proof.
  intros Hx Hb. unfold join. rewrite Hb.
  assert (bool_decide (d ++ [x] = []) = false) as ->.
  { apply bool_decide_eq_false_2. by destruct d. }
  assert (endswith (d ++ [x]) [slash] = false) as ->.
  { apply not_true_is_false. intros [k H]%endswith_true.
    apply app_inj_2 in H as [_ [= ->]]; done. }
  done.
Qed.

Lemma startswith_cons_ne c b : c <> slash -> startswith (c :: b) [slash] = false.
Proof.
  intros Hc. apply not_true_is_false. intros [k [= ->]]%startswith_true. done.
Qed.

Lemma replace_go_skip old new a b :
  replace_go old new (length a) (a ++ b) = replace_go old new 0 b.
Proof. induction a as [|c a IH]; [done|]. simpl. exact IH. Qed.

Lemma replace_go_nil_r o old new u :
  o ∉ u -> replace_go (o :: old) new 0 u = u.
Proof.
  intros Hu. rewrite <- (app_nil_r u) at 1.
  rewrite replace_go_copy by done. simpl. by rewrite app_nil_r.
Qed.

Lemma span_digits_paren n :
  all_digits n -> span_digits (n ++ lit ")") = (n, lit ")").
Proof.
  intros Hd. induction n as [|c m IH]; [done|].
  unfold all_digits in Hd. simpl in Hd. apply andb_prop in Hd as [Hc Hm].
  cbn [app span_digits]. rewrite Hc. by rewrite IH.
Qed.

(** The parts of a path [dir/stem(n).ext]. *)
Section NumberedName.
Variables (dir stem n ext : str) (x : ascii).
Hypothesis Hx : x <> slash.
Hypothesis Hstem : forall c, c ∈ stem -> c <> slash /\ c <> "("%char.
Hypothesis Hext : forall c, c ∈ ext -> c <> slash /\ c <> "("%char /\ c <> dot.
Hypothesis Hn : n <> [].
Hypothesis Hdigits : all_digits n.

Let num : str := lit "(" ++ n ++ lit ")".
Let name : str := stem ++ num ++ dot :: ext.
Let img : str := (dir ++ [x]) ++ slash :: name.

Local Lemma slash_not_in_name : slash ∉ name.
Proof.
  unfold name, num. rewrite !not_elem_of_app. repeat split.
  - intros H. by apply Hstem in H as [? _].
  - by apply not_elem_of_lit_check.
  - by apply all_digits_not_elem.
  - by apply not_elem_of_lit_check.
  - intros [H|H]%elem_of_cons; [discriminate H|]. by apply Hext in H as [? _].
Qed.

Local Lemma numbered_basename : basename img = name.
Proof.
  unfold basename, img. by rewrite split_last_intro by apply slash_not_in_name.
Qed.

Local Lemma numbered_dirname : dirname img = dir ++ [x].
Proof.
  unfold img. apply (dirname_compose dir x 0 name Hx), slash_not_in_name.
Qed.

Local Lemma numbered_without_ext : filename_without_ext img = stem ++ num.
Proof.
  unfold filename_without_ext. rewrite numbered_basename. unfold splitext.
  pose proof slash_not_in_name as Hs. apply split_last_None in Hs. rewrite Hs.
  unfold name. rewrite app_assoc, split_last_intro.
  2:{ intros H. by apply Hext in H as (_ & _ & ?). }
  assert (forallb (fun c => bool_decide (c = dot)) (stem ++ num) = false) as ->; [|done].
  unfold num. rewrite !forallb_app. simpl. by rewrite andb_false_r.
Qed.

Local Lemma numbered_match : re_search pat_paren_num (stem ++ num) = Some num.
Proof.
  apply re_search_at.
  - unfold pat_paren_num, num. rewrite literal_app. cbn [mbind option_bind].
    rewrite span_digits_paren by done.
    rewrite bool_decide_eq_false_2 by done.
    by rewrite (proj2 (literal_spec (lit ")") (lit ")") []) eq_refl).
  - intros pre1 c pre2 ->.
    destruct (pat_paren_num (c :: pre2 ++ num)) as [g|] eqn:E; [|done].
    exfalso. revert E. unfold pat_paren_num.
    destruct (literal (lit "(") (c :: pre2 ++ num)) as [r|] eqn:El; [|done].
    apply literal_spec in El. injection El as -> _.
    assert (Hc : "("%char ∈ pre1 ++ "("%char :: pre2)
      by (apply elem_of_app; right; left).
    by apply Hstem in Hc as [_ ?].
Qed.

Local Lemma numbered_replace : replace num [] name = stem ++ dot :: ext.
Proof.
  unfold replace, name, num.
  change (lit "(" ++ n ++ lit ")") with ("("%char :: n ++ lit ")").
  rewrite replace_go_copy.
  2:{ intros H. by apply Hstem in H as [_ ?]. }
  f_equal. cbn [app replace_go].
  rewrite (proj2 (startswith_true _ _)) by (by eexists).
  cbn [app]. replace (length ("("%char :: n ++ lit ")") - 1)%nat
    with (length (n ++ lit ")")) by (simpl; lia).
  rewrite replace_go_skip. apply replace_go_nil_r.
  intros [H|H]%elem_of_cons; [discriminate H|]. by apply Hext in H as (_ & ? & _).
Qed.

(** What the second step of [fix_metadata_file_for_image] does on such a
    path, in the three cases the code distinguishes. *)
Lemma numbered_repair_run s :
  let placed := (dir ++ [x]) ++ slash :: stem ++ dot :: ext
                ++ lit ".supplemental-metadata" ++ num ++ lit ".json" in
  let canonical := metadata_file_for img in
  repair_numbered_duplicate img s
  = Ok img
      match files s !! placed with
      | None =>
          with_error (lit "Metadata file: " ++ placed
                      ++ lit " not exist for image: " ++ img) s
      | Some c =>
          match files s !! canonical with
          | Some _ =>
              with_error (lit "Metadata file already exist: " ++ canonical) s
          | None =>
              mk_state (<[canonical := c]> (delete placed (files s)))
                (fixes s ++ [basename placed ++ lit " moved to "
                             ++ basename canonical])
                (errors s) (stdout s) (fs_calls s ++ [Move placed canonical])
          end
      end.
Proof.
  intros placed canonical. unfold repair_numbered_duplicate.
  rewrite numbered_without_ext, numbered_match. unfold filename.
  rewrite numbered_basename, numbered_replace.
  rewrite split_last_intro by (intros H; by apply Hext in H as (_ & _ & ?)).
  rewrite numbered_dirname.
  assert (Hw : join (dir ++ [x])
                 ((stem ++ lit "." ++ ext) ++ lit ".supplemental-metadata"
                  ++ num ++ lit ".json") = placed).
  { rewrite join_dir; [|done|].
    - unfold placed. by rewrite <- !app_assoc.
    - destruct stem as [|c st]; [done|].
      apply startswith_cons_ne, Hstem. left. }
  assert (Hf : join (dir ++ [x]) (name ++ lit "." ++ METADATA_JSON) = canonical).
  { rewrite join_dir; [|done|].
    - unfold canonical, metadata_file_for, img. by rewrite <- !app_assoc.
    - unfold name. destruct stem as [|c st]; [done|].
      apply startswith_cons_ne, Hstem. left. }
  rewrite Hw, Hf.
  destruct (files s !! placed) as [c|] eqn:Ep.
  - rewrite (bind_ok _ _ _ _ _ (path_exists_some _ _ _ Ep)).
    destruct (files s !! canonical) as [c'|] eqn:Ec.
    + unfold bind at 1. rewrite (bind_ok _ _ _ _ _ (path_exists_some _ _ _ Ec)).
      reflexivity.
    + unfold bind at 1. rewrite (bind_ok _ _ _ _ _ (path_exists_none _ _ Ec)).
      by rewrite (move_file_ok _ _ _ _ Ep).
  - by rewrite (bind_ok _ _ _ _ _ (path_exists_none _ _ Ep)).
Qed.
End NumberedName.

Lemma free_of_spec chars s c : free_of chars s = true -> c ∈ s -> c ∉ chars.
Proof.
  unfold free_of. rewrite forallb_forall. intros H Hc.
  apply list_elem_of_In, H, negb_true_iff, bool_decide_eq_false in Hc. done.
Qed.

Lemma dir_last (dir : str) :
  dir <> [] -> endswith dir (lit "/") = false ->
  exists d x, dir = d ++ [x] /\ x <> slash.
Proof.
  intros Hne He. destruct (exists_last Hne) as (d & x & ->).
  exists d, x. split; [done|]. intros ->. by rewrite endswith_app in He.
Qed.

(** X6.  Numbered duplicates.  For a media file [dir/stem(n).ext] (no slash or
    parenthesis in [stem] and [ext], no dot in [ext], no [-editada] in the
    path), [fix_metadata_file_for_image] returns the path and looks for
    [dir/stem.ext.supplemental-metadata(n).json].  If that file does not
    exist, one error is recorded and nothing else changes; if it exists
    and so does the canonical sidecar, one error is recorded and both files
    stay as they are; otherwise it is moved to the canonical sidecar path,
    with one fix. *)
Theorem numbered_duplicate_repair (dir stem n ext : str) (s : state) :
  let image_file :=
    dir ++ lit "/" ++ stem ++ (lit "(" ++ n ++ lit ")") ++ lit "." ++ ext in
  let placed :=
    dir ++ lit "/" ++ stem ++ lit "." ++ ext ++ lit ".supplemental-metadata"
    ++ (lit "(" ++ n ++ lit ")") ++ lit ".json" in
  let canonical := image_file ++ lit ".supplemental-metadata.json" in
  dir <> [] -> endswith dir (lit "/") = false ->
  free_of (lit "/(") stem = true -> free_of (lit "/(.") ext = true ->
  n <> [] -> all_digits n ->
  str_in (lit "-editada") image_file = false ->
  fix_metadata_file_for_image image_file s
  = Ok image_file
      match files s !! placed with
      | None =>
          with_error (lit "Metadata file: " ++ placed
                      ++ lit " not exist for image: " ++ image_file) s
      | Some c =>
          match files s !! canonical with
          | Some _ =>
              with_error (lit "Metadata file already exist: " ++ canonical) s
          | None =>
              mk_state (<[canonical := c]> (delete placed (files s)))
                (fixes s ++ [basename placed ++ lit " moved to "
                             ++ basename canonical])
                (errors s) (stdout s) (fs_calls s ++ [Move placed canonical])
          end
      end.
Proof.
  intros image_file placed canonical Hne Hdir Hstem Hext Hn Hd Hmark.
  destruct (dir_last dir Hne Hdir) as (d & x & Hdx & Hx).
  unfold fix_metadata_file_for_image, repair_edited_variant. rewrite Hmark.
  unfold bind at 1, ret at 1.
  subst image_file placed canonical. rewrite Hdx.
  apply (numbered_repair_run d stem n ext x Hx); try done.
  - intros c Hc. pose proof (free_of_spec _ _ _ Hstem Hc) as H.
    split; intros ->; apply H; [left | right; left].
  - intros c Hc. pose proof (free_of_spec _ _ _ Hext Hc) as H.
    repeat split; intros ->; apply H; [left | right; left | right; right; left].
Qed.

Lemma numbered_duplicate_repair_witness :
  let img := lit "t/Photos from 2019/IMG_01(2).jpg" in
  let placed := lit "t/Photos from 2019/IMG_01.jpg.supplemental-metadata(2).json" in
  let canonical := lit "t/Photos from 2019/IMG_01(2).jpg.supplemental-metadata.json" in
  let s := empty_state {[ img := lit "image"; placed := lit "sidecar" ]} in
  str_in (lit "-editada") img = false
  /\ fix_metadata_file_for_image img s
     = Ok img (mk_state (<[canonical := lit "sidecar"]> (delete placed (files s)))
                 [lit "IMG_01.jpg.supplemental-metadata(2).json moved to IMG_01(2).jpg.supplemental-metadata.json"]
                 [] [] [Move placed canonical]).
Proof.
  intros img placed canonical s.
  assert (Hm : str_in (lit "-editada") img = false) by (vm_compute; reflexivity).
  split; [exact Hm|].
  pose proof (numbered_duplicate_repair (lit "t/Photos from 2019") (lit "IMG_01")
                (lit "2") (lit "jpg") s ltac:(discriminate) eq_refl eq_refl
                eq_refl ltac:(discriminate) eq_refl Hm) as H.
  replace (files s !! (lit "t/Photos from 2019" ++ lit "/" ++ lit "IMG_01"
             ++ lit "." ++ lit "jpg" ++ lit ".supplemental-metadata"
             ++ (lit "(" ++ lit "2" ++ lit ")") ++ lit ".json"))
    with (Some (lit "sidecar")) in H by (vm_compute; reflexivity).
  replace (files s !! ((lit "t/Photos from 2019" ++ lit "/" ++ lit "IMG_01"
             ++ (lit "(" ++ lit "2" ++ lit ")") ++ lit "." ++ lit "jpg")
             ++ lit ".supplemental-metadata.json"))
    with (@None str) in H by (vm_compute; reflexivity).
  exact H.
Defined.

(** Outside these paths: [replace] takes away every occurrence of the
    number, so for [a(1)b(1).jpg] the sidecar looked for is
    [ab.jpg.supplemental-metadata(1).json]. *)
Example numbered_duplicate_every_occurrence :
  let img := lit "t/Photos from 2019/a(1)b(1).jpg" in
  let r := fix_metadata_file_for_image img (empty_state {[ img := lit "image" ]}) in
  returned r = Some img
  /\ errors (final r)
     = [lit "Metadata file: t/Photos from 2019/ab.jpg.supplemental-metadata(1).json not exist for image: t/Photos from 2019/a(1)b(1).jpg"].
Proof. vm_compute. repeat split. Qed.

(** X7.  Numbered duplicates, repaired once.  When the misplaced sidecar
    [dir/stem.ext.supplemental-metadata(n).json] of [dir/stem(n).ext] exists
    and the canonical one does not, the repair moves it to the canonical
    path; synthesis then finds the sidecar and does nothing; and a second
    repair of the same file records that the misplaced sidecar does not
    exist: the repair reports an error for every file it has repaired
    before. *)
Theorem numbered_duplicate_repair_once
    (timestamp_int : datetime -> option Z) (dir stem n ext c : str) (s : state) :
  let image_file :=
    dir ++ lit "/" ++ stem ++ (lit "(" ++ n ++ lit ")") ++ lit "." ++ ext in
  let placed :=
    dir ++ lit "/" ++ stem ++ lit "." ++ ext ++ lit ".supplemental-metadata"
    ++ (lit "(" ++ n ++ lit ")") ++ lit ".json" in
  let canonical := image_file ++ lit ".supplemental-metadata.json" in
  dir <> [] -> endswith dir (lit "/") = false ->
  free_of (lit "/(") stem = true -> free_of (lit "/(.") ext = true ->
  n <> [] -> all_digits n ->
  str_in (lit "-editada") image_file = false ->
  files s !! placed = Some c -> files s !! canonical = None ->
  exists s1,
    fix_metadata_file_for_image image_file s = Ok image_file s1
    /\ files s1 !! canonical = Some c /\ files s1 !! placed = None
    /\ generate_metadata_for_image_file timestamp_int image_file s1 = Ok tt s1
    /\ fix_metadata_file_for_image image_file s1
       = Ok image_file
           (with_error (lit "Metadata file: " ++ placed
                        ++ lit " not exist for image: " ++ image_file) s1).
Proof.
  intros image_file placed canonical Hne Hdir Hstem Hext Hn Hd Hmark Hp Hc.
  destruct (dir_last dir Hne Hdir) as (d & x & Hdx & Hx).
  assert (Hs : forall c0, c0 ∈ stem -> c0 <> slash /\ c0 <> "("%char).
  { intros c0 H0. pose proof (free_of_spec _ _ _ Hstem H0) as H.
    split; intros ->; apply H; [left | right; left]. }
  assert (He : forall c0, c0 ∈ ext -> c0 <> slash /\ c0 <> "("%char /\ c0 <> dot).
  { intros c0 H0. pose proof (free_of_spec _ _ _ Hext H0) as H.
    repeat split; intros ->; apply H; [left | right; left | right; right; left]. }
  assert (Hrun : forall s0, fix_metadata_file_for_image image_file s0
                   = repair_numbered_duplicate image_file s0).
  { intros s0. unfold fix_metadata_file_for_image, repair_edited_variant.
    by rewrite Hmark. }
  pose proof (numbered_repair_run d stem n ext x Hx Hs He Hn Hd) as Hnum.
  cbv zeta in Hnum. rewrite <- Hdx in Hnum.
  change ((dir ++ slash :: stem ++ (lit "(" ++ n ++ lit ")") ++ dot :: ext))
    with image_file in Hnum.
  change (dir ++ slash :: stem ++ dot :: ext ++ lit ".supplemental-metadata"
          ++ (lit "(" ++ n ++ lit ")") ++ lit ".json") with placed in Hnum.
  change (metadata_file_for image_file) with canonical in Hnum.
  assert (Hpc : placed <> canonical) by congruence.
  eexists. split; [rewrite Hrun, Hnum, Hp, Hc; reflexivity|].
  cbn [files]. split; [apply lookup_insert_eq|]. split.
  { rewrite lookup_insert_ne by done. apply lookup_delete_eq. }
  split.
  - unfold generate_metadata_for_image_file.
    change (metadata_file_for image_file) with canonical.
    erewrite bind_ok by (apply (path_exists_some _ _ c); apply lookup_insert_eq).
    reflexivity.
  - rewrite Hrun, Hnum. cbn [files].
    rewrite lookup_insert_ne by done. by rewrite lookup_delete_eq.
Qed.

Lemma numbered_duplicate_repair_once_witness :
  let img := lit "t/Photos from 2019/IMG_01(2).jpg" in
  let placed := lit "t/Photos from 2019/IMG_01.jpg.supplemental-metadata(2).json" in
  let s := empty_state {[ img := lit "image"; placed := lit "sidecar" ]} in
  str_in (lit "-editada") img = false
  /\ files s !! placed = Some (lit "sidecar")
  /\ exists s1,
       fix_metadata_file_for_image img s = Ok img s1
       /\ generate_metadata_for_image_file utc_timestamp img s1 = Ok tt s1
       /\ errors (final (fix_metadata_file_for_image img s1))
          = [lit "Metadata file: " ++ placed ++ lit " not exist for image: " ++ img].
Proof.
  intros img placed s.
  assert (Hm : str_in (lit "-editada") img = false) by (vm_compute; reflexivity).
  assert (Hp : files s !! placed = Some (lit "sidecar")) by (vm_compute; reflexivity).
  split; [exact Hm|]. split; [exact Hp|].
  destruct (numbered_duplicate_repair_once utc_timestamp (lit "t/Photos from 2019")
              (lit "IMG_01") (lit "2") (lit "jpg") (lit "sidecar") s
              ltac:(discriminate) eq_refl eq_refl eq_refl ltac:(discriminate)
              eq_refl Hm Hp ltac:(vm_compute; reflexivity))
    as (s1 & H1 & _ & _ & H2 & H3).
  exists s1. split; [exact H1|]. split; [exact H2|].
  change (fix_metadata_file_for_image img s1) with
    (fix_metadata_file_for_image
       (lit "t/Photos from 2019" ++ lit "/" ++ lit "IMG_01"
        ++ (lit "(" ++ lit "2" ++ lit ")") ++ lit "." ++ lit "jpg") s1).
  rewrite H3. cbn [final errors with_error].
  assert (errors s1 = []) as ->; [|reflexivity].
  revert H1. clear. intros H1.
  assert (He : errors (final (fix_metadata_file_for_image
       (lit "t/Photos from 2019" ++ lit "/" ++ lit "IMG_01"
        ++ (lit "(" ++ lit "2" ++ lit ")") ++ lit "." ++ lit "jpg") s)) = [])
    by (vm_compute; reflexivity).
  by rewrite H1 in He.
Defined.

(** ** Every file left without a sidecar has its error *)

Lemma reaches_canonical s s' q :
  reaches s s' -> canonical q ->
  is_Some (files s !! q) -> is_Some (files s' !! q).
Proof.
  intros (calls & errs & _ & Hok & -> & _) Hq Hs. by apply replay_canonical.
Qed.

Lemma reaches_errors s s' e : reaches s s' -> e ∈ errors s -> e ∈ errors s'.
Proof.
  intros (calls & errs & _ & _ & _ & _ & -> & _) He.
  apply elem_of_app. by left.
Qed.

Lemma metadata_file_for_canonical img : canonical (metadata_file_for img).
Proof.
  unfold canonical, metadata_file_for. rewrite app_assoc. apply endswith_app.
Qed.

(** When synthesis returns, the sidecar exists or the error is recorded. *)
Lemma generate_covers timestamp_int img s s' :
  generate_metadata_for_image_file timestamp_int img s = Ok tt s' ->
  is_Some (files s' !! metadata_file_for img)
  \/ (lit "Unable to infer metadata for " ++ img) ∈ errors s'.
Proof.
  unfold generate_metadata_for_image_file.
  destruct (files s !! metadata_file_for img) as [c|] eqn:E.
  { rewrite (bind_ok _ _ _ _ _ (path_exists_some _ _ _ E)).
    intros [= <-]. left. eauto. }
  rewrite (bind_ok _ _ _ _ _ (path_exists_none _ _ E)).
  destruct (infer_time_outcomes img s) as [H|[H|[[t H]|H]]].
  - rewrite (bind_ok _ _ _ _ _ H). intros [= <-]. right. cbn.
    apply elem_of_app. right. left.
  - by rewrite (bind_raise _ _ _ _ _ H).
  - rewrite (bind_ok _ _ _ _ _ H). unfold bind, time_timestamp.
    destruct (timestamp_int t) as [n|]; [|done].
    intros [= <-]. left. cbn. rewrite lookup_insert_eq. eauto.
  - rewrite (bind_ok _ _ _ _ _ H). intros [= <-]. right. cbn.
    apply elem_of_app. right. left.
Qed.

Lemma repair_loop_covers timestamp_int imgs :
  Forall (fun f => in_year_dir f = true) imgs ->
  forall s s' img,
    for_each imgs (fun img =>
      fix_metadata_file_for_image img ;;
      generate_metadata_for_image_file timestamp_int img) s = Ok tt s' ->
    img ∈ imgs ->
    is_Some (files s' !! metadata_file_for img)
    \/ (lit "Unable to infer metadata for " ++ img) ∈ errors s'.
Proof.
  induction 1 as [|x l Hx Hl IH]; intros s s' img Hrun Hin.
  { by apply elem_of_nil in Hin. }
  cbn [for_each] in Hrun. unfold bind at 1 in Hrun.
  match type of Hrun with
  | match ?b s with _ => _ end = _ => destruct (b s) as [[] s1|e s1] eqn:Hbody
  end; [|done].
  apply elem_of_cons in Hin as [-> | Hin]; [|by eapply IH].
  assert (Hrest : reaches s1 s').
  { pose proof (keeps_for_each l (fun img =>
        fix_metadata_file_for_image img ;;
        generate_metadata_for_image_file timestamp_int img)) as Hk.
    unfold keeps in Hk. specialize (Hk ltac:(
      eapply Forall_impl; [exact Hl|]; intros f Hf; cbn beta;
      apply keeps_bind; [by apply keeps_fix_metadata_file_for_image|];
      intros _; by apply keeps_generate) s1).
    by rewrite Hrun in Hk. }
  unfold bind in Hbody.
  destruct (fix_metadata_file_for_image x s) as [a s0|e s0]; [|done].
  apply generate_covers in Hbody as [Hs | He].
  - left. eapply reaches_canonical; eauto using metadata_file_for_canonical.
  - right. by eapply reaches_errors.
Qed.

(** X9.  Whenever [execute] returns, every media file it lists as having no
    metadata (no file at its canonical sidecar path) has the entry [Unable
    to infer metadata for ...] among the errors: the third report repeats
    entries of the first. *)
Theorem unresolved_files_have_errors
    (timestamp_int : datetime -> option Z) (takeout_dir : str)
    (walk : list (str * list str * list str)) (s s' : state) (img : str) :
  execute timestamp_int takeout_dir walk s = Ok tt s' ->
  img ∈ unresolved (image_files walk) (files s') ->
  (lit "Unable to infer metadata for " ++ img) ∈ errors s'.
Proof.
  intros Hrun Hin.
  apply list_elem_of_In, filter_In in Hin as [Hin Hnone].
  apply list_elem_of_In in Hin. apply bool_decide_eq_true in Hnone.
  revert Hrun. unfold execute.
  unfold bind at 1, reset at 1.
  do 4 (unfold bind at 1, print at 1).
  unfold bind at 1.
  match goal with |- context [repair ?ts ?j ?i ?st] =>
    destruct (repair ts j i st) as [[] s1|e s1] eqn:Hrep end; [|done].
  rewrite report_prints. intros [= <-]. cbn [printed errors files] in *.
  unfold repair, bind in Hrep.
  match type of Hrep with
  | match ?c with _ => _ end = _ => destruct c as [js s0|e s0]
  end; [|done].
  destruct (repair_loop_covers timestamp_int _ (image_files_in_year_dir walk)
              _ _ img Hrep Hin) as [[c Hc] | He]; [congruence | done].
Qed.

Lemma unresolved_files_have_errors_witness :
  let walk := [(lit "t/Photos from 19", [], [lit "pic.jpg"])] in
  let s := empty_state {[ lit "t/Photos from 19/pic.jpg" := lit "image" ]} in
  let s' := final (execute utc_timestamp (lit "t") walk s) in
  lit "t/Photos from 19/pic.jpg" ∈ unresolved (image_files walk) (files s')
  /\ (lit "Unable to infer metadata for " ++ lit "t/Photos from 19/pic.jpg")
     ∈ errors s'.
Proof.
  intros walk s s'.
  assert (Hin : lit "t/Photos from 19/pic.jpg"
                ∈ unresolved (image_files walk) (files s')).
  { replace (unresolved (image_files walk) (files s'))
      with [lit "t/Photos from 19/pic.jpg"] by (vm_compute; reflexivity).
    left. }
  split; [exact Hin|].
  apply (unresolved_files_have_errors utc_timestamp (lit "t") walk s s');
    [|exact Hin].
  assert (Hr : returned (execute utc_timestamp (lit "t") walk s) = Some tt)
    by (vm_compute; reflexivity).
  subst s'. destruct (execute utc_timestamp (lit "t") walk s) as [[] ?|? ?];
    [reflexivity | discriminate].
Defined.

(** ** When a run returns *)

Lemma str_in_intro pre sub post : str_in sub (pre ++ sub ++ post) = true.
Proof.
  induction pre as [|c pre IH].
  - assert (H : startswith (sub ++ post) sub = true)
      by (apply startswith_true; eauto).
    destruct sub, post; simpl in *; by rewrite ?H.
  - cbn [app str_in]. rewrite IH. apply orb_true_r.
Qed.

Lemma digit_val_zero c : is_digit c = true -> digit_val c = 0 -> c = "0"%char.
Proof.
  destruct c as [[] [] [] [] [] [] [] []]; try discriminate; intros _;
    vm_compute; first [discriminate | reflexivity].
Qed.

(** Four digits that [int] reads as less than 1 are [0000]. *)
Lemma py_int_zero y :
  length y = 4%nat -> all_digits y -> py_int y < 1 -> y = lit "0000".
Proof.
  intros Hl Hd. destruct y as [|a [|b [|c [|d [|]]]]]; try discriminate Hl.
  unfold all_digits in Hd. cbn [forallb] in Hd.
  apply andb_prop in Hd as [Ha Hd]. apply andb_prop in Hd as [Hb Hd].
  apply andb_prop in Hd as [Hc Hd]. apply andb_prop in Hd as [Hd _].
  pose proof (is_digit_val _ Ha). pose proof (is_digit_val _ Hb).
  pose proof (is_digit_val _ Hc). pose proof (is_digit_val _ Hd).
  unfold py_int. cbn [fold_left]. intros Hz.
  rewrite (digit_val_zero a), (digit_val_zero b), (digit_val_zero c),
    (digit_val_zero d) by (done || lia).
  reflexivity.
Qed.

Lemma pat_photos_from_year_group s g :
  pat_photos_from_year s = Some g ->
  exists y post, g = [y] /\ s = lit "Photos from " ++ y ++ lit "/" ++ post
                 /\ length y = 4%nat /\ all_digits y.
Proof.
  unfold pat_photos_from_year.
  destruct (literal (lit "Photos from ") s) as [s0|] eqn:E0; [|done].
  cbn [mbind option_bind].
  destruct (digits 4 s0) as [[y s1]|] eqn:E1; [|done]. cbn [mbind option_bind].
  destruct (literal (lit "/") s1) as [s2|] eqn:E2; [|done]. cbn [mbind option_bind].
  intros [= <-]. apply literal_spec in E0 as ->, E2 as ->.
  apply digits_inv in E1 as (-> & ? & ?). by exists y, s2.
Qed.

(** The one exception of timestamp inference: rule 4 on the year 0000. *)
Lemma rule_photos_from_raise f s e s' :
  rule_photos_from f s = Raise e s' ->
  e = ValueError /\ s' = s /\ str_in (lit "Photos from 0000/") f = true.
Proof.
  unfold rule_photos_from.
  destruct (re_search pat_photos_from_year f) as [g|] eqn:E; [|done].
  apply re_search_some in E as (pre & rest & -> & E).
  apply pat_photos_from_year_group in E as (y & post & -> & -> & Hl & Hd).
  unfold datetime_new, valid_datetime.
  pose proof (py_int_bound y Hd) as Hb. rewrite Hl in Hb.
  change (10 ^ Z.of_nat 4) with 10000 in Hb.
  assert ((py_int y <=? 9999) = true) as -> by lia.
  destruct (1 <=? py_int y) eqn:E1; [done|]. intros [= <- <-].
  split; [done|]. split; [done|].
  rewrite (py_int_zero y) by (done || lia).
  apply (str_in_intro pre (lit "Photos from 0000/") post).
Qed.

Lemma rule_six_raise pat f fn next s e s' :
  rule_six pat f fn next s = Raise e s' -> next s = Raise e s'.
Proof. unfold rule_six. by repeat case_match. Qed.

Lemma rule_millis_raise f fn next s e s' :
  rule_millis f fn next s = Raise e s' -> next s = Raise e s'.
Proof. unfold rule_millis. by repeat case_match. Qed.

Lemma infer_time_raise f s e s' :
  infer_time_from_image_file f s = Raise e s' ->
  e = ValueError /\ s' = s /\ str_in (lit "Photos from 0000/") f = true.
Proof.
  unfold infer_time_from_image_file.
  intros H%rule_six_raise%rule_millis_raise%rule_six_raise.
  by apply rule_photos_from_raise.
Qed.

(** The two exceptions of synthesis: rule 4 on the year 0000, and
    [time.timestamp()] on the inferred date. *)
Lemma generate_raise timestamp_int f s e s' :
  generate_metadata_for_image_file timestamp_int f s = Raise e s' ->
  e = ValueError /\ s' = s
  /\ (str_in (lit "Photos from 0000/") f = true
      \/ exists t, infer_time_from_image_file f s = Ok (Some t) s
                   /\ timestamp_int t = None).
Proof.
  unfold generate_metadata_for_image_file. unfold bind at 1, path_exists.
  case_bool_decide; [done|].
  unfold bind at 1.
  destruct (infer_time_from_image_file f s) as [[t|] s1|e1 s1] eqn:E; [|done|].
  - pose proof (infer_time_some _ _ _ _ E) as ->.
    unfold bind, time_timestamp.
    destruct (timestamp_int t) eqn:Et; [done|].
    intros [= <- <-]. repeat split. right. by exists t.
  - intros [= <- <-]. apply infer_time_raise in E as (? & ? & ?). auto.
Qed.

Lemma repair_edited_variant_returns img s :
  exists s', repair_edited_variant img s = Ok tt s'.
Proof.
  unfold repair_edited_variant.
  destruct (str_in (lit "-editada") img) eqn:Hin; [|by eexists].
  destruct (files s !! (replace (lit "-editada") [] img ++ lit "." ++ METADATA_JSON))
    as [c|] eqn:E.
  - rewrite (bind_ok _ _ _ _ _ (path_exists_some _ _ _ E)).
    eexists. apply copy_file_ok; [done|].
    intros H%app_inv_tail. by apply replace_removes in H.
  - rewrite (bind_ok _ _ _ _ _ (path_exists_none _ _ E)). by eexists.
Qed.

(** The indexing of line 154 succeeds when the name has a dot. *)
Lemma repair_numbered_duplicate_returns img s :
  dot ∈ basename img -> exists s', repair_numbered_duplicate img s = Ok img s'.
Proof.
  intros Hdot. unfold repair_numbered_duplicate.
  destruct (re_search pat_paren_num _) as [num|] eqn:En; [|by eexists].
  destruct (pat_paren_num_inv _ _ En) as (n & -> & Hn).
  destruct (split_last dot (replace _ [] (filename img))) as [[stem ext]|] eqn:Es.
  - unfold bind at 1. unfold bind at 1, path_exists at 1.
    case_bool_decide as Ew; [|by eexists].
    unfold bind at 1, path_exists at 1.
    case_bool_decide as Ef; [by eexists|].
    destruct Ew as [c Ew]. erewrite move_file_ok by done. by eexists.
  - exfalso. apply split_last_None in Es. apply Es.
    apply replace_keeps; [done| |done].
    by apply paren_num_not_elem.
Qed.

Lemma fix_metadata_returns img s :
  is_image img = true ->
  exists s', fix_metadata_file_for_image img s = Ok img s'.
Proof.
  intros Hi. unfold fix_metadata_file_for_image.
  destruct (repair_edited_variant_returns img s) as [s1 H1].
  rewrite (bind_ok _ _ _ _ _ H1).
  apply repair_numbered_duplicate_returns. by apply is_image_dot.
Qed.

(** The first pass returns when the files it is given are distinct and
    exist: a move takes away only its own source. *)
Lemma normalization_pass_returns jsons :
  NoDup jsons ->
  forall s, (forall jf, jf ∈ jsons -> is_Some (files s !! jf)) ->
  exists l s', comprehension jsons fix_divergent_metadata_filename s = Ok l s'.
Proof.
  induction 1 as [|x l Hx Hl IH]; intros s Hs; [by eexists _, _|].
  cbn [comprehension].
  assert (Hstep : exists y s1,
            fix_divergent_metadata_filename x s = Ok y s1
            /\ forall jf, jf ∈ l -> is_Some (files s1 !! jf)).
  { unfold fix_divergent_metadata_filename.
    destruct (negb (endswith x METADATA_JSON));
      [|eexists _, _; split; [done|]; intros; apply Hs; by right].
    case_bool_decide as Hne;
      [|eexists _, _; split; [done|]; intros; apply Hs; by right].
    destruct (Hs x ltac:(left)) as [c Hc].
    rewrite (bind_ok _ _ _ _ _ (move_file_ok _ _ _ _ Hc)).
    eexists _, _. split; [done|]. intros jf Hjf. cbn [files].
    rewrite lookup_insert_is_Some.
    destruct (decide (re_sub_suppl (lit "." ++ METADATA_JSON) x = jf));
      [by left|right]. split; [done|].
    rewrite lookup_delete_ne; [apply Hs; by right|].
    intros ->. done. }
  destruct Hstep as (y & s1 & Hy & Hs1).
  rewrite (bind_ok _ _ _ _ _ Hy).
  destruct (IH s1 Hs1) as (ys & s2 & Hys).
  rewrite (bind_ok _ _ _ _ _ Hys). by eexists _, _.
Qed.

Lemma repair_loop_returns timestamp_int imgs :
  (forall img, img ∈ imgs ->
     is_image img = true /\ str_in (lit "Photos from 0000/") img = false
     /\ forall t s0, infer_time_from_image_file img s0 = Ok (Some t) s0 ->
                     is_Some (timestamp_int t)) ->
  forall s, exists s',
    for_each imgs (fun img =>
      fix_metadata_file_for_image img ;;
      generate_metadata_for_image_file timestamp_int img) s = Ok tt s'.
Proof.
  induction imgs as [|x l IH]; intros Hi s; [by eexists|].
  cbn [for_each].
  destruct (Hi x ltac:(left)) as (Hx & Hy & Ht).
  destruct (fix_metadata_returns x s Hx) as [s1 H1].
  destruct (generate_metadata_for_image_file timestamp_int x s1) as [[] s2|e s2] eqn:H2.
  - destruct (IH (fun img H => Hi img ltac:(by right)) s2) as [s3 H3].
    exists s3. unfold bind at 1. unfold bind at 1. by rewrite H1, H2.
  - apply generate_raise in H2 as (_ & _ & [H2 | (t & H2 & H3)]); [congruence|].
    apply Ht in H2 as [n Hn]. congruence.
Qed.

Lemma image_files_are_images walk img :
  img ∈ image_files walk -> is_image img = true.
Proof.
  intros Hin%list_elem_of_In. unfold image_files in Hin.
  by apply filter_In in Hin as [_ ?].
Qed.

(** X10.  [execute] returns, with its reports printed, when the directory
    walk lists no path twice, every listed metadata file exists when the
    run starts, no listed media file has [Photos from 0000/] in its path,
    and [time.timestamp()] returns for every date that inference gives for
    a listed media file (on a POSIX platform it raises for the dates of
    0001-01-01). *)
Theorem execute_returns
    (timestamp_int : datetime -> option Z) (takeout_dir : str)
    (walk : list (str * list str * list str)) (s : state) :
  NoDup (all_files walk) ->
  (forall jf, jf ∈ json_files walk -> is_Some (files s !! jf)) ->
  (forall img, img ∈ image_files walk ->
     str_in (lit "Photos from 0000/") img = false) ->
  (forall img t s0, img ∈ image_files walk ->
     infer_time_from_image_file img s0 = Ok (Some t) s0 ->
     is_Some (timestamp_int t)) ->
  exists s1,
    execute timestamp_int takeout_dir walk s
    = Ok tt (printed (reports_code_order s1 (image_files walk)) s1).
Proof.
  intros Hnd Hj Hi Ht. unfold execute.
  unfold bind at 1, reset at 1.
  do 4 (unfold bind at 1, print at 1).
  unfold bind at 1.
  match goal with |- context [repair ?ts ?j ?i ?st] => set (s0 := st) end.
  assert (Hf0 : files s0 = files s) by reflexivity. clearbody s0.
  assert (Hrep : exists s1,
            repair timestamp_int (json_files walk) (image_files walk) s0
            = Ok tt s1).
  { unfold repair.
    destruct (normalization_pass_returns (json_files walk)) with (s := s0)
      as (l & s1 & H1).
    - unfold json_files, years_files. apply NoDup_ListNoDup.
      do 2 apply List.NoDup_filter. by apply NoDup_ListNoDup.
    - by rewrite Hf0.
    - rewrite (bind_ok _ _ _ _ _ H1). apply repair_loop_returns.
      intros img Hin. split; [by eapply image_files_are_images|].
      split; [by apply Hi|]. intros t s2. by apply Ht. }
  destruct Hrep as [s1 ->]. exists s1. apply report_prints.
Qed.

Lemma execute_returns_witness :
  let walk := [(lit "t/Photos from 2019", [],
                [lit "IMG_20190102_030405.jpg"; lit "b.jpg.suppl.json"])] in
  let s := empty_state {[ lit "t/Photos from 2019/IMG_20190102_030405.jpg" := lit "image";
                          lit "t/Photos from 2019/b.jpg.suppl.json" := lit "{}" ]} in
  NoDup (all_files walk)
  /\ exists s1,
       execute utc_timestamp (lit "t") walk s
       = Ok tt (printed (reports_code_order s1 (image_files walk)) s1).
Proof.
  intros walk s.
  assert (Hnd : NoDup (all_files walk)).
  { apply (bool_decide_unpack _). vm_compute. exact I. }
  split; [exact Hnd|].
  apply (execute_returns utc_timestamp (lit "t") walk s Hnd).
  - intros jf Hjf.
    replace (json_files walk) with [lit "t/Photos from 2019/b.jpg.suppl.json"]
      in Hjf by (vm_compute; reflexivity).
    apply list_elem_of_singleton in Hjf as ->. by eexists.
  - intros img Himg.
    replace (image_files walk)
      with [lit "t/Photos from 2019/IMG_20190102_030405.jpg"]
      in Himg by (vm_compute; reflexivity).
    apply list_elem_of_singleton in Himg as ->. reflexivity.
  - intros img t s0 Himg.
    replace (image_files walk)
      with [lit "t/Photos from 2019/IMG_20190102_030405.jpg"]
      in Himg by (vm_compute; reflexivity).
    apply list_elem_of_singleton in Himg as ->.
    replace (infer_time_from_image_file
               (lit "t/Photos from 2019/IMG_20190102_030405.jpg") s0)
      with (Ok (Some (mk_datetime 2019 1 2 3 4 5 0)) s0)
      by (vm_compute; reflexivity).
    intros [= <-]. by exists 1546398245.
Defined.

(** ** When a run raises *)

Lemma silent_ret {A} (a : A) : silent (ret a).
Proof. done. Qed.

Lemma silent_raise {A} e : silent (@raise A e).
Proof. done. Qed.

Lemma silent_bind {A B} (m : M A) (k : A -> M B) :
  silent m -> (forall a, silent (k a)) -> silent (bind m k).
Proof.
  intros Hm Hk s. unfold bind. specialize (Hm s).
  destruct (m s) as [a s'|e s']; simpl in *; [|done].
  by rewrite Hk.
Qed.

Lemma silent_for_each {A} (l : list A) (body : A -> M unit) :
  (forall x, silent (body x)) -> silent (for_each l body).
Proof.
  intros Hb. induction l as [|x l IH]; simpl; [apply silent_ret|].
  by apply silent_bind.
Qed.

Lemma silent_comprehension {A B} (l : list A) (f : A -> M B) :
  (forall x, silent (f x)) -> silent (comprehension l f).
Proof.
  intros Hf. induction l as [|x l IH]; simpl; [apply silent_ret|].
  apply silent_bind; [done|]. intros y.
  apply silent_bind; [done|]. intros ys. apply silent_ret.
Qed.

Lemma silent_path_exists p : silent (path_exists p).
Proof. done. Qed.

Lemma silent_errors_append e : silent (errors_append e).
Proof. done. Qed.

Lemma silent_copy_file o d : silent (copy_file o d).
Proof.
  intros s. unfold copy_file, bind, shutil_copy2.
  destruct (files s !! o); [|done]. by case_bool_decide.
Qed.

Lemma silent_move_file o d : silent (move_file o d).
Proof.
  intros s. unfold move_file, bind, shutil_move. by destruct (files s !! o).
Qed.

Lemma silent_write_file n c : silent (write_file n c).
Proof. done. Qed.

Lemma silent_infer_time f : silent (infer_time_from_image_file f).
Proof.
  intros s.
  destruct (infer_time_outcomes f s) as [H|[H|[[t H]|H]]]; by rewrite H.
Qed.

Lemma silent_generate timestamp_int f :
  silent (generate_metadata_for_image_file timestamp_int f).
Proof.
  unfold generate_metadata_for_image_file.
  apply silent_bind; [apply silent_path_exists|]. intros [|]; [apply silent_ret|].
  apply silent_bind; [apply silent_infer_time|]. intros [t|].
  - apply silent_bind; [|intros n; apply silent_write_file].
    unfold time_timestamp.
    destruct (timestamp_int t); [apply silent_ret | apply silent_raise].
  - apply silent_errors_append.
Qed.

Lemma silent_fix_divergent jf : silent (fix_divergent_metadata_filename jf).
Proof.
  unfold fix_divergent_metadata_filename.
  destruct (negb _); [|apply silent_ret].
  case_bool_decide; [|apply silent_ret].
  apply silent_bind; [apply silent_move_file|]. intros _. apply silent_ret.
Qed.

Lemma silent_fix_metadata img : silent (fix_metadata_file_for_image img).
Proof.
  unfold fix_metadata_file_for_image. apply silent_bind.
  - unfold repair_edited_variant. destruct (str_in _ img); [|apply silent_ret].
    apply silent_bind; [apply silent_path_exists|].
    intros [|]; [apply silent_copy_file | apply silent_ret].
  - intros _. unfold repair_numbered_duplicate.
    destruct (re_search pat_paren_num _) as [num|]; [|apply silent_ret].
    destruct (split_last dot _) as [[stem ext]|]; [|apply silent_raise].
    apply silent_bind; [apply silent_path_exists|]. intros ew.
    apply silent_bind; [|intros; apply silent_ret].
    destruct ew.
    + apply silent_bind; [apply silent_path_exists|].
      intros [|]; [apply silent_errors_append | apply silent_move_file].
    + apply silent_errors_append.
Qed.

Lemma silent_repair timestamp_int jsons images :
  silent (repair timestamp_int jsons images).
Proof.
  unfold repair. apply silent_bind.
  - apply silent_comprehension, silent_fix_divergent.
  - intros _. apply silent_for_each. intros img.
    apply silent_bind; [apply silent_fix_metadata|].
    intros _. apply silent_generate.
Qed.

(** Normalization raises only for a file that is not there. *)
Lemma fix_divergent_raise jf s e s' :
  fix_divergent_metadata_filename jf s = Raise e s' ->
  e = FileNotFoundError jf /\ files s' !! jf = None /\ ~ canonical jf.
Proof.
  unfold fix_divergent_metadata_filename, canonical.
  destruct (endswith jf METADATA_JSON) eqn:Ec; [done|]. cbn [negb].
  case_bool_decide; [|done].
  destruct (files s !! jf) as [c|] eqn:E.
  - by rewrite (bind_ok _ _ _ _ _ (move_file_ok _ _ _ _ E)).
  - rewrite (bind_raise _ _ _ _ _ (move_file_raise _ _ _ E)).
    by intros [= <- <-].
Qed.

Lemma normalization_pass_raise jsons s e s' :
  comprehension jsons fix_divergent_metadata_filename s = Raise e s' ->
  exists jf, jf ∈ jsons /\ e = FileNotFoundError jf
             /\ files s' !! jf = None /\ ~ canonical jf.
Proof.
  revert s. induction jsons as [|x l IH]; intros s; [done|].
  cbn [comprehension]. unfold bind at 1.
  destruct (fix_divergent_metadata_filename x s) as [y s1|e1 s1] eqn:E1.
  - unfold bind at 1.
    destruct (comprehension l fix_divergent_metadata_filename s1)
      as [ys s2|e2 s2] eqn:E2; [done|].
    intros [= <- <-]. destruct (IH _ E2) as (jf & Hin & H).
    exists jf. split; [by right | done].
  - intros [= <- <-]. apply fix_divergent_raise in E1.
    exists x. split; [left | done].
Qed.

Lemma generate_raise_missing timestamp_int f s e s' :
  generate_metadata_for_image_file timestamp_int f s = Raise e s' ->
  files s !! metadata_file_for f = None.
Proof.
  unfold generate_metadata_for_image_file. unfold bind at 1, path_exists.
  case_bool_decide as E; [done|]. intros _.
  by apply eq_None_not_Some.
Qed.

Lemma repair_loop_raise timestamp_int imgs s e s' :
  (forall img, img ∈ imgs -> is_image img = true) ->
  for_each imgs (fun img =>
    fix_metadata_file_for_image img ;;
    generate_metadata_for_image_file timestamp_int img) s = Raise e s' ->
  e = ValueError
  /\ exists img,
       img ∈ imgs /\ files s' !! metadata_file_for img = None
       /\ (str_in (lit "Photos from 0000/") img = true
           \/ exists t, infer_time_from_image_file img s' = Ok (Some t) s'
                        /\ timestamp_int t = None).
Proof.
  revert s. induction imgs as [|x l IH]; intros s Hi; [done|].
  cbn [for_each]. unfold bind at 1.
  destruct (fix_metadata_returns x s (Hi x ltac:(left))) as [s1 H1].
  unfold bind at 1. rewrite H1.
  destruct (generate_metadata_for_image_file timestamp_int x s1)
    as [[] s2|e2 s2] eqn:E2.
  - intros Hrest. destruct (IH s2 (fun img H => Hi img ltac:(by right)) Hrest)
      as (-> & img & Hin & H).
    split; [done|]. exists img. split; [by right | done].
  - intros [= <- <-]. pose proof (generate_raise_missing _ _ _ _ _ E2) as Hm.
    apply generate_raise in E2 as (-> & -> & Hy).
    split; [done|]. exists x. split; [left | done].
Qed.

(** X11.  [execute] raises in three cases only.  [FileNotFoundError]: a
    listed metadata file that needs its name normalized is not there when
    its turn comes.  [ValueError]: a listed media file without sidecar has
    [Photos from 0000/] in its path, or has a date inferred for which
    [time.timestamp()] raises.  The indexing of line 154 never fails here.
    In every case the run stops at once: after the four totals nothing is
    printed, none of the reports. *)
Theorem execute_raises
    (timestamp_int : datetime -> option Z) (takeout_dir : str)
    (walk : list (str * list str * list str)) (s s' : state) (e : exn) :
  execute timestamp_int takeout_dir walk s = Raise e s' ->
  ((exists jf, e = FileNotFoundError jf /\ jf ∈ json_files walk
               /\ files s' !! jf = None /\ ~ canonical jf)
   \/ (e = ValueError
       /\ exists img,
            img ∈ image_files walk
            /\ files s' !! metadata_file_for img = None
            /\ (str_in (lit "Photos from 0000/") img = true
                \/ exists t,
                     infer_time_from_image_file img s' = Ok (Some t) s'
                     /\ timestamp_int t = None)))
  /\ stdout s' = stdout s ++ totals takeout_dir walk.
Proof.
  unfold execute.
  unfold bind at 1, reset at 1.
  do 4 (unfold bind at 1, print at 1).
  unfold bind at 1.
  match goal with |- context [repair ?ts ?j ?i ?st] => set (s0 := st) end.
  assert (Hout : stdout s0 = stdout s ++ totals takeout_dir walk).
  { cbn. by rewrite <- !app_assoc. }
  clearbody s0.
  pose proof (silent_repair timestamp_int (json_files walk) (image_files walk) s0)
    as Hsilent.
  destruct (repair timestamp_int (json_files walk) (image_files walk) s0)
    as [[] s1|e1 s1] eqn:Hrep.
  { by rewrite report_prints. }
  intros [= <- <-]. cbn [final] in Hsilent. split; [|congruence].
  unfold repair in Hrep. unfold bind at 1 in Hrep.
  destruct (comprehension (json_files walk) fix_divergent_metadata_filename s0)
    as [l s2|e2 s2] eqn:Hpass.
  - right. eapply repair_loop_raise; [|exact Hrep].
    intros img. apply image_files_are_images.
  - left. injection Hrep as <- <-.
    apply normalization_pass_raise in Hpass as (jf & Hin & He & Hf & Hc).
    by exists jf.
Qed.

Lemma execute_raises_witness :
  let walk := [(lit "t/Photos from 0000", [], [lit "a.jpg"])] in
  let s := empty_state {[ lit "t/Photos from 0000/a.jpg" := lit "image" ]} in
  exists s',
    execute utc_timestamp (lit "t") walk s = Raise ValueError s'
    /\ stdout s' = totals (lit "t") walk.
Proof.
  intros walk s.
  assert (H : match execute utc_timestamp (lit "t") walk s with
              | Raise ValueError _ => true
              | _ => false
              end = true) by (vm_compute; reflexivity).
  destruct (execute utc_timestamp (lit "t") walk s) as [a s'|e s'] eqn:E;
    [discriminate H|].
  destruct e; try discriminate H.
  exists s'. split; [reflexivity|].
  exact (proj2 (execute_raises utc_timestamp (lit "t") walk s s' ValueError E)).
Defined.

(** The third case on a POSIX platform in UTC: the date inferred for a
    file under [Photos from 0001] is 0001-01-01, for which
    [time.timestamp()] raises; a day later it returns.  Before 1970 a
    fraction of a second is rounded towards zero. *)
Example timestamp_of_first_day :
  utc_timestamp (mk_datetime 1 1 1 0 0 0 0) = None
  /\ utc_timestamp (mk_datetime 1 1 2 0 0 0 0) = Some (-62135510400)
  /\ utc_timestamp (mk_datetime 1969 12 31 23 59 59 500000) = Some 0.
Proof. vm_compute. repeat split. Qed.

Example run_raises_on_first_day :
  let f := lit "t/Photos from 0001/a.jpg" in
  let walk := [(lit "t/Photos from 0001", [], [lit "a.jpg"])] in
  let s := empty_state {[ f := lit "image" ]} in
  let r := execute utc_timestamp (lit "t") walk s in
  str_in (lit "Photos from 0000/") f = false
  /\ infer_time_from_image_file f s = Ok (Some (mk_datetime 1 1 1 0 0 0 0)) s
  /\ returned r = None
  /\ files (final r) !! metadata_file_for f = None
  /\ fs_calls (final r) = [].
Proof. vm_compute. repeat split. Qed.

(** ** A numbered name without extension *)

Lemma splitext_no_dot b : slash ∉ b -> dot ∉ b -> splitext b = (b, []).
Proof.
  intros Hs Hd. unfold splitext.
  apply split_last_None in Hs, Hd. by rewrite Hs, Hd.
Qed.

(** X8.  Called on a path whose last component has no dot and ends with [(N)],
    [fix_metadata_file_for_image] raises [IndexError] at line 154, after
    the step for edited variants has done its work: the name without the
    number has no extension to index. *)
Theorem numbered_name_without_extension
    (image_file k n : str) (s : state) :
  basename image_file = k ++ lit "(" ++ n ++ lit ")" ->
  n <> [] -> all_digits n -> dot ∉ basename image_file ->
  fix_metadata_file_for_image image_file s
  = Raise IndexError (final (repair_edited_variant image_file s)).
Proof.
  intros Hb Hn Hd Hdot. unfold fix_metadata_file_for_image.
  destruct (repair_edited_variant_returns image_file s) as [s1 H1].
  rewrite (bind_ok _ _ _ _ _ H1), H1. cbn [final].
  unfold repair_numbered_duplicate, filename_without_ext, filename.
  rewrite splitext_no_dot by (done || apply basename_no_slash). cbn [fst].
  assert (Hm : is_Some (re_search pat_paren_num (basename image_file))).
  { rewrite Hb. apply (re_search_is_Some _ _ _ (lit "(" ++ n ++ lit ")")).
    unfold pat_paren_num. rewrite literal_app. cbn [mbind option_bind].
    rewrite span_digits_paren by done.
    rewrite bool_decide_eq_false_2 by done.
    by rewrite (proj2 (literal_spec (lit ")") (lit ")") []) eq_refl). }
  destruct Hm as [num ->].
  assert (split_last dot (replace num [] (basename image_file)) = None) as ->;
    [|done].
  apply split_last_None. by intros H%elem_of_replace.
Qed.

Lemma numbered_name_without_extension_witness :
  let f := lit "t/Photos from 2019/IMG(1)" in
  let s := empty_state {[ f := lit "image" ]} in
  basename f = lit "IMG" ++ lit "(" ++ lit "1" ++ lit ")"
  /\ (dot ∉ basename f)
  /\ fix_metadata_file_for_image f s = Raise IndexError s.
Proof.
  intros f s.
  assert (Hb : basename f = lit "IMG" ++ lit "(" ++ lit "1" ++ lit ")")
    by (vm_compute; reflexivity).
  assert (Hd : dot ∉ basename f).
  { rewrite Hb. by apply not_elem_of_lit_check. }
  split; [exact Hb|]. split; [exact Hd|].
  exact (numbered_name_without_extension f (lit "IMG") (lit "1") s Hb
           ltac:(discriminate) eq_refl Hd).
Defined.

(** ** The fixes a run ends with *)

(** X12.  However [execute] ends, its list of fixes has one entry for each call
    the run has made to the file system, in the order of the calls, and
    nothing else: what an earlier run left in [fixes] is gone.  The errors
    it ends with are those of this run, each about a file in a year
    directory. *)
Theorem fixes_list_the_calls
    (timestamp_int : datetime -> option Z) (takeout_dir : str)
    (walk : list (str * list str * list str)) (s : state) :
  let s' := final (execute timestamp_int takeout_dir walk s) in
  exists calls,
    fs_calls s' = fs_calls s ++ calls
    /\ fixes s' = List.map describe calls
    /\ Forall error_ok (errors s').
Proof.
  intros s'.
  destruct (execute_reaches timestamp_int takeout_dir walk s)
    as (calls & errs & Hcalls & _ & _ & Hfixes & Herrs & Hok).
  fold s' in Hcalls, Hfixes, Herrs. cbn in Hcalls, Hfixes, Herrs.
  exists calls. by rewrite Herrs.
Qed.

(** ** Files that are no metadata files *)

Lemma canonical_json q :
  endswith q METADATA_JSON = true -> endswith q (lit ".json") = true.
Proof.
  intros [k ->]%endswith_true. apply endswith_true.
  exists (k ++ lit "supplemental-metadata"). by rewrite <- app_assoc.
Qed.

Lemma joined_json a b :
  endswith b (lit ".json") = true -> endswith (join a b) (lit ".json") = true.
Proof.
  intros Hb%bool_decide_eq_true. apply bool_decide_eq_true.
  etrans; [exact Hb | apply join_suffix].
Qed.

Section UnchangedAt.

Variable p : str.
Hypothesis Hp : endswith p (lit ".json") = false.

Lemma json_ne q : endswith q (lit ".json") = true -> q <> p.
Proof. intros Hq ->. congruence. Qed.

Lemma unchanged_ret {A} (a : A) : unchanged_at p (ret a).
Proof. done. Qed.

Lemma unchanged_raise {A} e : unchanged_at p (@raise A e).
Proof. done. Qed.

Lemma unchanged_bind {A B} (m : M A) (k : A -> M B) :
  unchanged_at p m -> (forall a, unchanged_at p (k a)) -> unchanged_at p (bind m k).
Proof.
  intros Hm Hk s. unfold bind. specialize (Hm s).
  destruct (m s) as [a s'|e s']; simpl in *; [|done].
  by rewrite Hk.
Qed.

Lemma unchanged_for_each {A} (l : list A) (body : A -> M unit) :
  (forall x, unchanged_at p (body x)) -> unchanged_at p (for_each l body).
Proof.
  intros Hb. induction l as [|x l IH]; simpl; [apply unchanged_ret|].
  by apply unchanged_bind.
Qed.

Lemma unchanged_comprehension {A B} (l : list A) (f : A -> M B) :
  Forall (fun x => unchanged_at p (f x)) l -> unchanged_at p (comprehension l f).
Proof.
  induction 1 as [|x l Hx Hl IH]; simpl; [apply unchanged_ret|].
  apply unchanged_bind; [done|]. intros y.
  apply unchanged_bind; [done|]. intros ys. apply unchanged_ret.
Qed.

Lemma unchanged_path_exists q : unchanged_at p (path_exists q).
Proof. done. Qed.

Lemma unchanged_errors_append e : unchanged_at p (errors_append e).
Proof. done. Qed.

Lemma unchanged_copy_file o d :
  endswith d (lit ".json") = true -> unchanged_at p (copy_file o d).
Proof.
  intros Hd%json_ne s. unfold copy_file, bind, shutil_copy2.
  destruct (files s !! o); [|done]. case_bool_decide; [done|].
  cbn. by rewrite lookup_insert_ne.
Qed.

Lemma unchanged_move_file o d :
  endswith o (lit ".json") = true -> endswith d (lit ".json") = true ->
  unchanged_at p (move_file o d).
Proof.
  intros Ho%json_ne Hd%json_ne s. unfold move_file, bind, shutil_move.
  destruct (files s !! o); [|done].
  cbn. by rewrite lookup_insert_ne, lookup_delete_ne.
Qed.

Lemma unchanged_write_file n c :
  endswith n (lit ".json") = true -> unchanged_at p (write_file n c).
Proof.
  intros Hn%json_ne s. cbn. by rewrite lookup_insert_ne.
Qed.

Lemma unchanged_infer_time f : unchanged_at p (infer_time_from_image_file f).
Proof.
  intros s.
  destruct (infer_time_outcomes f s) as [H|[H|[[t H]|H]]]; by rewrite H.
Qed.

Lemma unchanged_generate timestamp_int f :
  unchanged_at p (generate_metadata_for_image_file timestamp_int f).
Proof.
  unfold generate_metadata_for_image_file.
  apply unchanged_bind; [apply unchanged_path_exists|].
  intros [|]; [apply unchanged_ret|].
  apply unchanged_bind; [apply unchanged_infer_time|]. intros [t|].
  - apply unchanged_bind.
    + unfold time_timestamp.
      destruct (timestamp_int t); [apply unchanged_ret | apply unchanged_raise].
    + intros n.
      apply unchanged_write_file, canonical_json, metadata_file_for_canonical.
  - apply unchanged_errors_append.
Qed.

Lemma unchanged_fix_divergent jf :
  is_json jf = true -> unchanged_at p (fix_divergent_metadata_filename jf).
Proof.
  intros Hj. unfold fix_divergent_metadata_filename.
  destruct (endswith jf METADATA_JSON) eqn:Ec; cbn [negb]; [apply unchanged_ret|].
  pose proof (re_sub_suppl_cases (lit "." ++ METADATA_JSON) jf) as Hcases.
  set (fixed := re_sub_suppl (lit "." ++ METADATA_JSON) jf) in *.
  case_bool_decide as Hd; [|apply unchanged_ret].
  apply unchanged_bind; [|intros; apply unchanged_ret].
  destruct Hcases as [(stem & rest & Hjf & Hrest & Hfixed)|Hsame]; [|done].
  assert (rest = []) as ->.
  { apply at_end_cases in Hrest as [-> | ->]; [done|].
    destruct (is_json_last _ Hj) as (k & x & Heq & Hx). rewrite Hjf in Heq.
    rewrite !app_assoc in Heq. apply app_inj_2 in Heq as [_ [= <-]]; done. }
  rewrite app_nil_r in Hjf, Hfixed. clearbody fixed. subst fixed jf.
  apply unchanged_move_file.
  - apply endswith_true. exists (stem ++ lit ".suppl"). by rewrite <- app_assoc.
  - apply canonical_json, canonical_endswith.
Qed.

Lemma unchanged_fix_metadata img :
  unchanged_at p (fix_metadata_file_for_image img).
Proof.
  unfold fix_metadata_file_for_image. apply unchanged_bind.
  - unfold repair_edited_variant. destruct (str_in _ img); [|apply unchanged_ret].
    apply unchanged_bind; [apply unchanged_path_exists|].
    intros [|]; [|apply unchanged_ret].
    apply unchanged_copy_file, canonical_json.
    apply (metadata_file_for_canonical img).
  - intros _. unfold repair_numbered_duplicate.
    destruct (re_search pat_paren_num _) as [num|]; [|apply unchanged_ret].
    destruct (split_last dot _) as [[stem ext]|]; [|apply unchanged_raise].
    assert (Hfixed : endswith (join (dirname img)
                        (filename img ++ lit "." ++ METADATA_JSON))
                       (lit ".json") = true)
      by apply canonical_json, fixed_name_canonical.
    assert (Hwrong : endswith (join (dirname img)
                        ((stem ++ lit "." ++ ext) ++ lit ".supplemental-metadata"
                         ++ num ++ lit ".json")) (lit ".json") = true).
    { apply joined_json, endswith_true.
      exists ((stem ++ lit "." ++ ext) ++ lit ".supplemental-metadata" ++ num).
      by rewrite <- !app_assoc. }
    apply unchanged_bind; [apply unchanged_path_exists|]. intros ew.
    apply unchanged_bind; [|intros; apply unchanged_ret].
    destruct ew.
    + apply unchanged_bind; [apply unchanged_path_exists|].
      intros [|]; [apply unchanged_errors_append | by apply unchanged_move_file].
    + apply unchanged_errors_append.
Qed.

Lemma unchanged_repair timestamp_int jsons images :
  Forall (fun f => is_json f = true) jsons ->
  unchanged_at p (repair timestamp_int jsons images).
Proof.
  intros Hj. unfold repair. apply unchanged_bind.
  - apply unchanged_comprehension. eapply Forall_impl; [exact Hj|].
    intros f Hf. by apply unchanged_fix_divergent.
  - intros _. apply unchanged_for_each. intros img.
    apply unchanged_bind; [apply unchanged_fix_metadata|].
    intros _. apply unchanged_generate.
Qed.

End UnchangedAt.

(** X13.  However [execute] ends, it has left alone every path whose name does
    not end in [.json]: a file there has the content it had, and no file
    has appeared where none was.  Photos and videos are never written,
    renamed or replaced. *)
Theorem media_files_untouched
    (timestamp_int : datetime -> option Z) (takeout_dir : str)
    (walk : list (str * list str * list str)) (s : state) (p : str) :
  endswith p (lit ".json") = false ->
  files (final (execute timestamp_int takeout_dir walk s)) !! p = files s !! p.
Proof.
  intros Hp. unfold execute.
  unfold bind at 1, reset at 1.
  do 4 (unfold bind at 1, print at 1).
  match goal with |- context [bind _ _ ?st] => set (s0 := st) end.
  change (files s !! p) with (files s0 !! p). clearbody s0. revert s0.
  match goal with |- forall s0, files (final (?m s0)) !! p = _ =>
    change (unchanged_at p m) end.
  apply unchanged_bind.
  - apply unchanged_repair; [done|].
    eapply Forall_impl; [apply json_files_in_year_dir|]. by intros f [_ ?].
  - intros _ s1. by rewrite report_prints.
Qed.

Lemma media_files_untouched_witness :
  let walk := [(lit "t/Photos from 2019", [],
                [lit "IMG_20190102_030405.jpg"; lit "b.jpg.suppl.json"])] in
  let s := empty_state {[ lit "t/Photos from 2019/IMG_20190102_030405.jpg" := lit "image";
                          lit "t/Photos from 2019/b.jpg.suppl.json" := lit "{}" ]} in
  files (final (execute utc_timestamp (lit "t") walk s))
    !! lit "t/Photos from 2019/IMG_20190102_030405.jpg" = Some (lit "image").
Proof.
  intros walk s.
  exact (media_files_untouched utc_timestamp (lit "t") walk s
           (lit "t/Photos from 2019/IMG_20190102_030405.jpg") eq_refl).
Defined.
